(** * Receipt processor: normalisation and aggregation

    A shallow embedding of [src/receipt_processor/main.py]:
    [sanitize_amount], [process_directory], [parse_date],
    [calculate_expenses], [aggregate_by_category],
    [plot_expenses_by_category] and [main], and of
    [src/receipt_processor/file_io.py]: [encode_file] and [list_files],
    together with the Python built-ins they call ([str], [str.replace],
    [str.strip], [float], [datetime.strptime], float addition, dict lookup,
    [base64.b64encode], [os.path.join], [format]). *)

From Stdlib Require Import ZArith Bool List Ascii String Lia.
From Stdlib Require Import SpecFloat PrimFloat FloatOps.
From stdpp Require Import gmap strings.

Local Open Scope string_scope.
Local Open Scope Z_scope.

(* Decimal float literals such as 43.83 stand for the nearest binary64
   number, which is what they stand for in Python as well. *)
#[local] Set Warnings "-inexact-float,-register-all".

(** ** Python values

    The values [json.loads] returns.  A Python [float] is an IEEE 754
    binary64 number, here a [spec_float]; strings are sequences of code
    points below 256; a nested object keeps its fields in order. *)

Inductive value : Type :=
  | VNone
  | VBool (b : bool)
  | VInt (n : Z)
  | VFloat (f : spec_float)
  | VStr (s : string)
  | VList (items : list value)
  | VDict (fields : list (string * value)).

(** Exceptions that escape the modelled functions. *)
Inductive exn : Type :=
  | OverflowError
  | TypeError
  | KeyError
  | ValueError
  | OSError
  | OtherError (name : string).

Inductive result (A : Type) : Type :=
  | Ok (a : A)
  | Raise (e : exn).
Arguments Ok {A} a.
Arguments Raise {A} e.

Definition bind {A B : Type} (r : result A) (k : A -> result B) : result B :=
  match r with
  | Ok a => k a
  | Raise e => Raise e
  end.

Notation "'let*' x ':=' r 'in' k" := (bind r (fun x => k))
  (at level 10, x name, r at level 100, k at level 200).

(** ** Text: [str.replace], [str.strip] *)

Module Text.

Definition code (c : ascii) : Z := Z.of_N (N_of_ascii c).

(** [str.isspace] on code points below 256, the characters [str.strip()]
    removes. *)
Definition is_space (c : ascii) : bool :=
  let n := code c in
  ((9 <=? n) && (n <=? 13)) || ((28 <=? n) && (n <=? 32))
  || (n =? 133) || (n =? 160).

(** [s.replace(c, "")] for a one-character [c]. *)
Fixpoint remove_char (c : ascii) (s : string) : string :=
  match s with
  | EmptyString => EmptyString
  | String a t =>
      if Ascii.eqb a c then remove_char c t else String a (remove_char c t)
  end.

Fixpoint lstrip (s : string) : string :=
  match s with
  | EmptyString => EmptyString
  | String a t => if is_space a then lstrip t else s
  end.

Fixpoint rstrip (s : string) : string :=
  match s with
  | EmptyString => EmptyString
  | String a t =>
      match rstrip t with
      | EmptyString => if is_space a then EmptyString else String a EmptyString
      | r => String a r
      end
  end.

(** [s.strip()] *)
Definition strip (s : string) : string := rstrip (lstrip s).

Definition is_digit (c : ascii) : bool :=
  let n := code c in (48 <=? n) && (n <=? 57).

Definition digit_of (c : ascii) : option Z :=
  if is_digit c then Some (code c - 48) else None.

Definition lower (c : ascii) : ascii :=
  let n := code c in
  if (65 <=? n) && (n <=? 90) then ascii_of_N (Z.to_N (n + 32)) else c.

Fixpoint lower_string (s : string) : string :=
  match s with
  | EmptyString => EmptyString
  | String a t => String (lower a) (lower_string t)
  end.

Fixpoint string_exists (p : ascii -> bool) (s : string) : bool :=
  match s with
  | EmptyString => false
  | String a t => p a || string_exists p t
  end.

Fixpoint join (sep : string) (xs : list string) : string :=
  match xs with
  | [] => EmptyString
  | [x] => x
  | x :: rest => (x ++ sep ++ join sep rest)%string
  end.

Definition single_quote : ascii := ascii_of_N 39.
Definition double_quote : ascii := ascii_of_N 34.
Definition backslash : ascii := ascii_of_N 92.

Definition hex_digit (n : Z) : ascii :=
  ascii_of_N (Z.to_N (if n <? 10 then n + 48 else n + 87)).

(** [str.isprintable] on code points below 256. *)
Definition is_printable (c : ascii) : bool :=
  let n := code c in
  ((32 <=? n) && (n <? 127)) || ((161 <=? n) && negb (n =? 173)).

(** One character inside the quotes of [repr(s)]. *)
Definition escape_char (quote c : ascii) : string :=
  let n := code c in
  if Ascii.eqb c quote || Ascii.eqb c backslash
  then String backslash (String c EmptyString)
  else if n =? 9 then String backslash "t"
  else if n =? 10 then String backslash "n"
  else if n =? 13 then String backslash "r"
  else if is_printable c then String c EmptyString
  else String backslash
         (String "x" (String (hex_digit (n / 16))
                        (String (hex_digit (n mod 16)) EmptyString))).

Fixpoint escape_string (quote : ascii) (s : string) : string :=
  match s with
  | EmptyString => EmptyString
  | String a t => (escape_char quote a ++ escape_string quote t)%string
  end.

(** [repr(s)] for a [str]: single quotes, unless the text has a single
    quote and no double quote. *)
Definition repr_string (s : string) : string :=
  let quote :=
    if string_exists (Ascii.eqb single_quote) s
       && negb (string_exists (Ascii.eqb double_quote) s)
    then double_quote else single_quote in
  String quote (escape_string quote s ++ String quote EmptyString)%string.

Fixpoint string_forall (p : ascii -> bool) (s : string) : bool :=
  match s with
  | EmptyString => true
  | String a t => p a && string_forall p t
  end.

(** The number a list of decimal digits denotes, most significant first. *)
Definition digits_value (ds : list Z) : Z :=
  fold_left (fun acc d => 10 * acc + d) ds 0.

End Text.

(** ** Binary64 arithmetic: [float(str)], [float(int)], [repr(float)], [+] *)

Module Float.

Definition prec : Z := 53.
Definition emax : Z := 1024.
Definition emin : Z := -1074.

(** Numbers that are not whole are kept as a ratio [n / d] of two positive
    integers.  A power [b ^ z] with an exponent of either sign is the ratio
    [pow_up b z / pow_down b z]. *)
Definition pow_up (b z : Z) : Z := b ^ Z.max z 0.
Definition pow_down (b z : Z) : Z := b ^ Z.max (- z) 0.

(** [b ^ k <= n / d] *)
Definition pow_le (b k n d : Z) : bool :=
  d * pow_up b k <=? n * pow_down b k.

(** [floor (log2 (n / d))] for positive [n] and [d]. *)
Definition ratio_log2 (n d : Z) : Z :=
  let k := Z.log2 n - Z.log2 d in
  if pow_le 2 k n d then k else k - 1.

(** The binary64 number nearest to [n / d] (positive [n] and [d]), ties to
    the even mantissa, with sign [neg]; infinity beyond the largest finite
    number, zero below half the smallest one. *)
Definition round_ratio (neg : bool) (n d : Z) : spec_float :=
  let e := Z.max (ratio_log2 n d - 52) emin in
  let N := n * pow_down 2 e in
  let D := d * pow_up 2 e in
  let q := N / D in
  let r := N mod D in
  let m := if (D <? 2 * r) || ((D =? 2 * r) && Z.odd q) then q + 1 else q in
  let '(m, e) := if m =? 2 ^ 53 then (2 ^ 52, e + 1) else (m, e) in
  match m with
  | Zpos p =>
      if e <=? emax - prec then S754_finite neg p e else S754_infinity neg
  | _ => S754_zero neg
  end.

(** The value [digits * 10 ^ e10] as a binary64 number. *)
Definition of_decimal (neg : bool) (digits e10 : Z) : spec_float :=
  if digits <=? 0 then S754_zero neg
  else round_ratio neg (digits * pow_up 10 e10) (pow_down 10 e10).

(** [float(n)] for an [int]: rounds to nearest, raises [OverflowError]
    when the result is not finite. *)
Definition of_int (n : Z) : result spec_float :=
  if n =? 0 then Ok (S754_zero false)
  else
    match round_ratio (n <? 0) (Z.abs n) 1 with
    | S754_infinity _ => Raise OverflowError
    | f => Ok f
    end.

Definition add (x y : spec_float) : spec_float := SFadd prec emax x y.

Definition zero : spec_float := S754_zero false.
Definition one : spec_float := S754_finite false 4503599627370496 (-52).

(** *** Reading a float: [float(s)] for a [str] *)

(** [digitpart ::= digit (["_"] digit)*]: the digits read and the text
    left.  An underscore that is not between two digits is left unread. *)
Fixpoint take_digits (s : string) : list Z * string :=
  match s with
  | String c t =>
      match Text.digit_of c with
      | Some d =>
          match t with
          | String c1 u =>
              if Ascii.eqb c1 "_" then
                match u with
                | String c2 _ =>
                    if Text.is_digit c2
                    then let (ds, r) := take_digits u in (d :: ds, r)
                    else ([d], t)
                | EmptyString => ([d], t)
                end
              else let (ds, r) := take_digits t in (d :: ds, r)
          | EmptyString => ([d], t)
          end
      | None => ([], s)
      end
  | EmptyString => ([], s)
  end.

Definition take_sign (s : string) : bool * string :=
  match s with
  | String c t =>
      if Ascii.eqb c "-" then (true, t)
      else if Ascii.eqb c "+" then (false, t)
      else (false, s)
  | EmptyString => (false, s)
  end.

(** [exponent ::= ("e" | "E") [sign] digitpart], up to the end of the
    text; no exponent reads as 0. *)
Definition parse_exponent (s : string) : option Z :=
  match s with
  | EmptyString => Some 0
  | String c t =>
      if Ascii.eqb (Text.lower c) "e" then
        let (neg, u) := take_sign t in
        match take_digits u with
        | ((_ :: _) as ds, EmptyString) =>
            Some (if neg then - Text.digits_value ds else Text.digits_value ds)
        | _ => None
        end
      else None
  end.

(** [number ::= [digitpart] "." digitpart | digitpart ["."]] followed by
    an optional exponent: the decimal digits and the power of ten. *)
Definition parse_number (s : string) : option (Z * Z) :=
  let (ip, r1) := take_digits s in
  let '(fp, r2) :=
    match r1 with
    | String c t => if Ascii.eqb c "." then take_digits t else ([], r1)
    | EmptyString => ([], r1)
    end in
  match (ip ++ fp)%list with
  | [] => None
  | ds =>
      match parse_exponent r2 with
      | Some e => Some (Text.digits_value ds, e - Z.of_nat (List.length fp))
      | None => None
      end
  end.

(** [floatvalue ::= [sign] (floatnumber | "inf" | "infinity" | "nan")],
    letters in any case. *)
Definition parse_literal (s : string) : option spec_float :=
  let (neg, body) := take_sign s in
  let low := Text.lower_string body in
  if String.eqb low "inf" || String.eqb low "infinity"
  then Some (S754_infinity neg)
  else if String.eqb low "nan" then Some S754_nan
  else
    match parse_number body with
    | Some (ds, e10) => Some (of_decimal neg ds e10)
    | None => None
    end.

(** The white space [float] skips at both ends of its argument: the ASCII
    blanks, and the two blanks above 127 that it first turns into a
    space. *)
Definition is_blank (c : ascii) : bool :=
  let n := Text.code c in
  ((9 <=? n) && (n <=? 13)) || (n =? 32) || (n =? 133) || (n =? 160).

Fixpoint lskip (s : string) : string :=
  match s with
  | EmptyString => EmptyString
  | String a t => if is_blank a then lskip t else s
  end.

Fixpoint rskip (s : string) : string :=
  match s with
  | EmptyString => EmptyString
  | String a t =>
      match rskip t with
      | EmptyString => if is_blank a then EmptyString else String a EmptyString
      | r => String a r
      end
  end.

(** [float(s)]: [None] stands for [ValueError]. *)
Definition of_string (s : string) : option spec_float :=
  parse_literal (rskip (lskip s)).

(** *** Writing a float: [repr(x)], which is also [str(x)] *)

Definition eqb (x y : spec_float) : bool :=
  match x, y with
  | S754_zero a, S754_zero b => Bool.eqb a b
  | S754_infinity a, S754_infinity b => Bool.eqb a b
  | S754_nan, S754_nan => true
  | S754_finite a m e, S754_finite b m' e' =>
      Bool.eqb a b && Pos.eqb m m' && Z.eqb e e'
  | _, _ => false
  end.

(** About [log10 (2 ^ L)], for the binary logarithms [L] of the finite
    floats. *)
Definition decpt_estimate (L : Z) : Z := L * 1233 / 4096.

(** The position of the decimal point of [n / d]: the [k] with
    [10 ^ (k - 1) <= n / d < 10 ^ k], found from the binary logarithm. *)
Definition ratio_decpt (n d : Z) : Z :=
  let est := decpt_estimate (ratio_log2 n d) in
  if pow_le 10 (est + 1) n d then est + 2
  else if pow_le 10 est n d then est + 1
  else est.

(** The decimal numbers [D * 10 ^ (k - p)] next to [n / d], the nearer one
    first (the even one on a tie). *)
Definition candidates (n d k p : Z) : list (Z * Z) :=
  let t := k - p in
  let N := n * pow_down 10 t in
  let D := d * pow_up 10 t in
  let lo := N / D in
  let r := N mod D in
  if r =? 0 then [(lo, t)]
  else if (D <? 2 * r) || ((D =? 2 * r) && Z.odd lo)
  then [(lo + 1, t); (lo, t)]
  else [(lo, t); (lo + 1, t)].

Definition reads_back (f : spec_float) (c : Z * Z) : bool :=
  eqb (of_decimal false (fst c) (snd c)) f.

(** The shortest decimal number, of [p] to 17 digits, that [float] reads
    back as [f]; [n / d] is the value of [f]. *)
Fixpoint shortest_from (fuel : nat) (p : Z) (f : spec_float) (n d k : Z)
  : Z * Z :=
  match fuel with
  | O => hd (0, 0) (candidates n d k 17)
  | S fuel' =>
      match find (reads_back f) (candidates n d k p) with
      | Some c => c
      | None => shortest_from fuel' (p + 1) f n d k
      end
  end.

Fixpoint digits_of_fuel (fuel : nat) (n : Z) (acc : list Z) : list Z :=
  match fuel with
  | O => acc
  | S fuel' =>
      if n <? 10 then n :: acc
      else digits_of_fuel fuel' (n / 10) (n mod 10 :: acc)
  end.

(** The decimal digits of a natural number, most significant first. *)
Definition digits_of (n : Z) : list Z :=
  digits_of_fuel (S (Z.to_nat (Z.log2 n))) n [].

Fixpoint strip_zeros_rev (ds : list Z) : list Z :=
  match ds with
  | 0 :: t => strip_zeros_rev t
  | _ => ds
  end.

Definition strip_trailing_zeros (ds : list Z) : list Z :=
  rev (strip_zeros_rev (rev ds)).

Definition digit_char (d : Z) : ascii := ascii_of_N (Z.to_N (d + 48)).

Fixpoint digit_string (ds : list Z) : string :=
  match ds with
  | [] => EmptyString
  | d :: t => String (digit_char d) (digit_string t)
  end.

Fixpoint zeros (n : nat) : string :=
  match n with
  | O => EmptyString
  | S n' => String "0" (zeros n')
  end.

(** The exponent of the scientific form: a sign and at least two
    digits. *)
Definition exponent_string (e : Z) : string :=
  let ds := digits_of (Z.abs e) in
  let ds := match ds with [_] => 0 :: ds | _ => ds end in
  ((if (e <? 0)%Z then "-" else "+") ++ digit_string ds)%string.

(** The digits [ds] with the decimal point after the first [decpt] of
    them: scientific form when [decpt <= -4] or [decpt > 16], else
    positional form, with [.0] after a whole number. *)
Definition format_repr (ds : list Z) (decpt : Z) : string :=
  if (decpt <=? -4) || (16 <? decpt) then
    match ds with
    | [] => EmptyString
    | d1 :: rest =>
        (String (digit_char d1)
           (match rest with
            | [] => EmptyString
            | _ => String "." (digit_string rest)
            end)
         ++ String "e" (exponent_string (decpt - 1)%Z))%string
    end
  else if decpt <=? 0 then
    ("0." ++ zeros (Z.to_nat (- decpt)%Z) ++ digit_string ds)%string
  else if Z.of_nat (List.length ds) <=? decpt then
    (digit_string ds ++ zeros (Z.to_nat decpt - List.length ds)%nat ++ ".0")%string
  else
    (digit_string (firstn (Z.to_nat decpt) ds) ++ "."
     ++ digit_string (skipn (Z.to_nat decpt) ds))%string.

(** [repr(f)] *)
Definition repr (f : spec_float) : string :=
  match f with
  | S754_nan => "nan"
  | S754_infinity neg => if neg then "-inf" else "inf"
  | S754_zero neg => if neg then "-0.0" else "0.0"
  | S754_finite neg m e =>
      let n := Zpos m * pow_up 2 e in
      let d := pow_down 2 e in
      let k := ratio_decpt n d in
      let '(D, t) := shortest_from 17 1 (S754_finite false m e) n d k in
      let ds := digits_of D in
      let body :=
        format_repr (strip_trailing_zeros ds) (t + Z.of_nat (List.length ds)) in
      if neg then String "-" body else body
  end.

End Float.

(** ** Dictionaries

    A receipt is the object [json.loads] returns: a finite map from field
    names to values.  The collection and the category totals are Python
    dicts whose iteration order matters (floating-point sums depend on it),
    so they are association lists in insertion order. *)

Abbreviation receipt := (gmap string value).

(** [d.get(key)]: [None] when the key is absent. *)
Definition dict_get (d : receipt) (key : string) : value :=
  default VNone (d !! key).

(** [d.get(key, dflt)] *)
Definition dict_get_default (d : receipt) (key : string) (dflt : value) : value :=
  default dflt (d !! key).

Definition collection : Type := list (string * receipt).

(** [data.values()] *)
Definition values (data : collection) : list receipt := map snd data.

(** [results[name] = data] on an insertion-ordered dict. *)
Fixpoint collection_set (results : collection) (name : string) (data : receipt)
  : collection :=
  match results with
  | [] => [(name, data)]
  | (k, v) :: rest =>
      if String.eqb k name then (k, data) :: rest
      else (k, v) :: collection_set rest name data
  end.

(** A loop [for x in xs: ...] over an accumulator, stopping at the first
    exception. *)
Fixpoint for_each {A B : Type} (body : B -> A -> result B) (xs : list A) (acc : B)
  : result B :=
  match xs with
  | [] => Ok acc
  | x :: rest =>
      match body acc x with
      | Ok acc' => for_each body rest acc'
      | Raise e => Raise e
      end
  end.

(** ** [sanitize_amount] *)

(** [repr(v)], for the values [str] writes out: CPython refuses to write an
    [int] of more than 4300 digits. *)
Fixpoint py_repr (v : value) : string :=
  match v with
  | VNone => "None"
  | VBool b => if b then "True" else "False"
  | VInt n =>
      let ds := Float.digit_string (Float.digits_of (Z.abs n)) in
      if n <? 0 then String "-" ds else ds
  | VFloat f => Float.repr f
  | VStr s => Text.repr_string s
  | VList items => ("[" ++ Text.join ", " (map py_repr items) ++ "]")%string
  | VDict fields =>
      ("{"
       ++ Text.join ", "
            (map (fun field =>
                    (Text.repr_string (fst field) ++ ": "
                     ++ py_repr (snd field))%string)
               fields)
       ++ "}")%string
  end.

(** [str(v)] *)
Definition py_str (v : value) : string :=
  match v with
  | VStr s => s
  | _ => py_repr v
  end.

Definition sanitize_amount (amount : value) : value :=
  match amount with
  | VNone => VNone
  | _ =>
      let cleaned := Text.strip (Text.remove_char "$" (py_str amount)) in
      match Float.of_string cleaned with
      | Some f => VFloat f
      | None => VNone
      end
  end.

(** ** [process_directory]

    The directory listing, the file reader and the extraction service are
    the world outside the program; a run in which they fail stops with their
    exception and builds no collection. *)

Section Directory.

Variable list_files : string -> list (string * string).
Variable encode_file : string -> string.
Variable extract_receipt_info : string -> receipt.

Definition process_directory (dirpath : string) : collection :=
  fold_left
    (fun results '(name, path) =>
       let image_b64 := encode_file path in
       let data := extract_receipt_info image_b64 in
       let data := <["amount" := sanitize_amount (dict_get data "amount")]> data in
       collection_set results name data)
    (list_files dirpath) [].

End Directory.

(** ** [parse_date] *)

Record date : Type := mkdate { year : Z; month : Z; day : Z }.

Module Strptime.

Definition in_range (lo hi : Z) (c : ascii) : bool :=
  let n := Text.code c in (lo <=? n) && (n <=? hi).

Definition digit (c : ascii) : Z := Text.code c - 48.

(** [(?P<m>1[0-2]|0[1-9]|[1-9])], the alternatives in order: the month
    and the text after it. *)
Definition month_alternatives (s : string) : list (Z * string) :=
  (match s with
   | String "1" (String b r) =>
       if in_range 48 50 b then [(10 + digit b, r)] else []
   | _ => []
   end
   ++
   match s with
   | String "0" (String b r) =>
       if in_range 49 57 b then [(digit b, r)] else []
   | _ => []
   end
   ++
   match s with
   | String a r => if in_range 49 57 a then [(digit a, r)] else []
   | _ => []
   end)%list.

(** [(?P<d>3[0-1]|[1-2]\d|0[1-9]|[1-9]| [1-9])] *)
Definition day_alternatives (s : string) : list (Z * string) :=
  (match s with
   | String "3" (String b r) =>
       if in_range 48 49 b then [(30 + digit b, r)] else []
   | _ => []
   end
   ++
   match s with
   | String a (String b r) =>
       if in_range 49 50 a && Text.is_digit b
       then [(10 * digit a + digit b, r)] else []
   | _ => []
   end
   ++
   match s with
   | String "0" (String b r) =>
       if in_range 49 57 b then [(digit b, r)] else []
   | _ => []
   end
   ++
   match s with
   | String a r => if in_range 49 57 a then [(digit a, r)] else []
   | _ => []
   end
   ++
   match s with
   | String " " (String b r) =>
       if in_range 49 57 b then [(digit b, r)] else []
   | _ => []
   end)%list.

Definition starts_with_dash (x : Z * string) : bool :=
  match snd x with
  | String "-" _ => true
  | _ => false
  end.

Definition is_leap (y : Z) : bool :=
  (y mod 4 =? 0) && (negb (y mod 100 =? 0) || (y mod 400 =? 0)).

Definition days_in_month (y m : Z) : Z :=
  if m =? 2 then (if is_leap y then 29 else 28)
  else if (m =? 4) || (m =? 6) || (m =? 9) || (m =? 11) then 30
  else 31.

(** [datetime.strptime(s, "%Y-%m-%d")]: the text must match
    [(?P<Y>\d\d\d\d)-(?P<m>...)-(?P<d>...)] from its start and be used up
    by the match, and the fields must form a date of the calendar, years
    1 to 9999.  [None] stands for [ValueError]. *)
Definition strptime (s : string) : option date :=
  match s with
  | String y1 (String y2 (String y3 (String y4 (String "-" r)))) =>
      if Text.is_digit y1 && Text.is_digit y2 && Text.is_digit y3
         && Text.is_digit y4
      then
        let y := 1000 * digit y1 + 100 * digit y2 + 10 * digit y3 + digit y4 in
        match find starts_with_dash (month_alternatives r) with
        | Some (m, String _ r') =>
            match day_alternatives r' with
            | (d, EmptyString) :: _ =>
                if (1 <=? y) && (d <=? days_in_month y m)
                then Some (mkdate y m d) else None
            | _ => None
            end
        | _ => None
        end
      else None
  | _ => None
  end.

End Strptime.

(** [None] for a [ValueError] (text that is not a date) and for a
    [TypeError] (an argument that is not a [str]). *)
Definition parse_date (date_str : value) : option date :=
  match date_str with
  | VStr s => Strptime.strptime s
  | _ => None
  end.

(** [a < b] on [datetime] objects with the time at midnight. *)
Definition date_ltb (a b : date) : bool :=
  (year a <? year b)
  || ((year a =? year b)
      && ((month a <? month b)
          || ((month a =? month b) && (day a <? day b)))).

(** ** The aggregation operations *)

Definition is_none (v : value) : bool :=
  match v with
  | VNone => true
  | _ => false
  end.

(** [isinstance(v, (int, float))]; [bool] is a subclass of [int]. *)
Definition isinstance_int_float (v : value) : bool :=
  match v with
  | VBool _ | VInt _ | VFloat _ => true
  | _ => false
  end.

(** Lists and dicts have no hash: as a dict key they raise [TypeError]. *)
Definition hashable (v : value) : bool :=
  match v with
  | VList _ | VDict _ => false
  | _ => true
  end.

(** [total + amount] for a float [total]. *)
Definition float_add (total : spec_float) (amount : value) : result spec_float :=
  match amount with
  | VFloat f => Ok (Float.add total f)
  | VInt n => let* f := Float.of_int n in Ok (Float.add total f)
  | VBool b => Ok (Float.add total (if b then Float.one else Float.zero))
  | _ => Raise TypeError
  end.

(** One turn of the loop of [calculate_expenses]; [Ok total] is a
    [continue]. *)
Definition calculate_expenses_body (start end_ : date)
    (total : spec_float) (receipt : receipt) : result spec_float :=
  let receipt_date := parse_date (dict_get receipt "date") in
  let amount := dict_get receipt "amount" in
  match receipt_date with
  | None => Ok total
  | Some receipt_date =>
      if date_ltb receipt_date start || date_ltb end_ receipt_date
      then Ok total
      else if is_none amount || negb (isinstance_int_float amount)
      then Ok total
      else float_add total amount
  end.

Definition calculate_expenses (data : collection) (start_date end_date : value)
  : result spec_float :=
  let start := parse_date start_date in
  let end_ := parse_date end_date in
  match start, end_ with
  | Some start, Some end_ =>
      for_each (calculate_expenses_body start end_) (values data) Float.zero
  | _, _ => Ok Float.zero
  end.

(** *** Category totals: a dict keyed by Python values *)

(** The integer a float is equal to, when there is one. *)
Definition float_to_int (f : spec_float) : option Z :=
  match f with
  | S754_zero _ => Some 0
  | S754_finite neg m e =>
      let v :=
        if 0 <=? e then Some (Zpos m * 2 ^ e)
        else if Zpos m mod 2 ^ (- e) =? 0 then Some (Zpos m / 2 ^ (- e))
        else None in
      match v with
      | Some n => Some (if neg then - n else n)
      | None => None
      end
  | _ => None
  end.

(** Whether two hashable values are the same dict key: equal by [==]
    (numbers of different types compare by value, [True == 1 == 1.0]), or
    the same object.  [json.loads] returns one and the same object for every
    [NaN] it reads, so NaN keys coincide. *)
Definition key_eqb (a b : value) : bool :=
  match a, b with
  | VNone, VNone => true
  | VStr s, VStr t => String.eqb s t
  | VBool x, VBool y => Bool.eqb x y
  | VBool x, VInt n | VInt n, VBool x => Z.b2z x =? n
  | VInt n, VInt m => n =? m
  | VFloat S754_nan, VFloat S754_nan => true
  | VFloat f, VFloat g => SFeqb f g
  | VFloat f, VInt n | VInt n, VFloat f =>
      match float_to_int f with
      | Some m => m =? n
      | None => false
      end
  | VFloat f, VBool x | VBool x, VFloat f =>
      match float_to_int f with
      | Some m => m =? Z.b2z x
      | None => false
      end
  | _, _ => false
  end.

Definition totals_dict : Type := list (value * spec_float).

(** [totals[key]]; [None] stands for [KeyError]. *)
Fixpoint totals_get (totals : totals_dict) (key : value) : option spec_float :=
  match totals with
  | [] => None
  | (k, v) :: rest => if key_eqb k key then Some v else totals_get rest key
  end.

(** [key in totals] *)
Definition totals_mem (totals : totals_dict) (key : value) : bool :=
  match totals_get totals key with
  | Some _ => true
  | None => false
  end.

(** [totals[key] = v]: an existing key keeps its place (and its first
    spelling), a new key goes last. *)
Fixpoint totals_set (totals : totals_dict) (key : value) (v : spec_float)
  : totals_dict :=
  match totals with
  | [] => [(key, v)]
  | (k, w) :: rest =>
      if key_eqb k key then (k, v) :: rest
      else (k, w) :: totals_set rest key v
  end.

(** One turn of the loop of [aggregate_by_category]. *)
Definition aggregate_by_category_body (totals : totals_dict) (receipt : receipt)
  : result totals_dict :=
  let category := dict_get_default receipt "category" (VStr "Other") in
  let amount := dict_get receipt "amount" in
  if is_none amount || negb (isinstance_int_float amount)
  then Ok totals
  else if negb (hashable category) then Raise TypeError
  else
    let totals :=
      if negb (totals_mem totals category)
      then totals_set totals category Float.zero
      else totals in
    match totals_get totals category with
    | Some current =>
        let* updated := float_add current amount in
        Ok (totals_set totals category updated)
    | None => Raise KeyError
    end.

Definition aggregate_by_category (data : collection) : result totals_dict :=
  for_each aggregate_by_category_body (values data) [].

(** ** [file_io]: reading and listing files *)

(** *** [base64.b64encode]

    Bytes are [Byte.byte]; three bytes make a 24-bit number that is written
    as four characters of the alphabet, six bits each, and a last group of
    one or two bytes is filled up with [=]. *)

Module Base64.

Definition byte_value (b : Byte.byte) : Z := Z.of_N (Byte.to_N b).

Definition byte_of (n : Z) : Byte.byte := byte_of_ascii (ascii_of_N (Z.to_N n)).

(** [A-Z], [a-z], [0-9], [+], [/] for the numbers 0 to 63. *)
Definition alphabet (n : Z) : Byte.byte :=
  byte_of
    (if n <? 26 then n + 65
     else if n <? 52 then n + 71
     else if n <? 62 then n - 4
     else if n =? 62 then 43
     else 47).

Definition pad : Byte.byte := byte_of 61.

Definition sextet (n shift : Z) : Byte.byte :=
  alphabet (Z.land (Z.shiftr n shift) 63).

Fixpoint b64encode (data : list Byte.byte) : list Byte.byte :=
  match data with
  | [] => []
  | [b0] =>
      let n := Z.shiftl (byte_value b0) 16 in
      [sextet n 18; sextet n 12; pad; pad]
  | [b0; b1] =>
      let n := Z.lor (Z.shiftl (byte_value b0) 16) (Z.shiftl (byte_value b1) 8) in
      [sextet n 18; sextet n 12; sextet n 6; pad]
  | b0 :: b1 :: b2 :: rest =>
      let n :=
        Z.lor (Z.lor (Z.shiftl (byte_value b0) 16) (Z.shiftl (byte_value b1) 8))
          (byte_value b2) in
      sextet n 18 :: sextet n 12 :: sextet n 6 :: sextet n 0 :: b64encode rest
  end.

End Base64.

(** [bytes.decode("utf-8")] for the texts of this development, whose
    characters are the code points below 256: a byte below 128 is the
    character of that code, and the two-byte sequences that start with 194
    or 195 are the characters from 128 to 255.  [None] stands for
    [UnicodeDecodeError] and for a character beyond 255. *)
Fixpoint decode_utf8 (data : list Byte.byte) : option string :=
  match data with
  | [] => Some EmptyString
  | b :: rest =>
      let n := Base64.byte_value b in
      if n <? 128 then option_map (String (ascii_of_byte b)) (decode_utf8 rest)
      else if (n =? 194) || (n =? 195) then
        match rest with
        | c :: rest' =>
            let m := Base64.byte_value c in
            if (128 <=? m) && (m <? 192)
            then option_map
                   (String (ascii_of_N (Z.to_N ((n - 192) * 64 + (m - 128)))))
                   (decode_utf8 rest')
            else None
        | [] => None
        end
      else None
  end.

(** *** [os.path.join] on POSIX, for two components *)

Module Posixpath.

Definition starts_with_sep (s : string) : bool :=
  match s with
  | String c _ => Ascii.eqb c "/"
  | EmptyString => false
  end.

Fixpoint ends_with_sep (s : string) : bool :=
  match s with
  | EmptyString => false
  | String c EmptyString => Ascii.eqb c "/"
  | String _ t => ends_with_sep t
  end.

(** [join(a, b)]: [b] alone when it is absolute, else [a] and [b] with one
    separator between them, unless [a] is empty or ends with one. *)
Definition join (a b : string) : string :=
  if starts_with_sep b then b
  else if String.eqb a EmptyString || ends_with_sep a then (a ++ b)%string
  else (a ++ "/" ++ b)%string.

End Posixpath.

(** The file system is the world outside the program: [read_bytes path] is
    [open(path, "rb").read()], [listdir] is [os.listdir] and [isfile] is
    [os.path.isfile]; [None] stands for the [OSError] of a path that cannot
    be opened or listed. *)

Section FileSystem.

Variable read_bytes : string -> option (list Byte.byte).
Variable listdir : string -> option (list string).
Variable isfile : string -> bool.

Definition encode_file (path : string) : option string :=
  match read_bytes path with
  | Some data => decode_utf8 (Base64.b64encode data)
  | None => None
  end.

(** The pairs the generator yields, in order. *)
Definition list_files (dirpath : string) : option (list (string * string)) :=
  match listdir dirpath with
  | Some names =>
      Some
        (flat_map
           (fun name =>
              let path := Posixpath.join dirpath name in
              if isfile path then [(name, path)] else [])
           names)
  | None => None
  end.

End FileSystem.

(** ** [plot_expenses_by_category] and [main]

    What these two functions do is call the outside world: they print and
    they drive [matplotlib.pyplot].  Every such call returns or raises, and
    which of the two is for the world to decide: [plt.pie], for one, raises
    [ValueError] when a wedge size is negative.  A run takes the calls made
    so far and gives the calls made once it is over, the call that raised
    included, with its outcome; a call is made only when the calls before it
    have returned. *)

Inductive command : Type :=
  | ImportModule (name : string)
  | PrintLine (text : string)
  | Figure (width height : Z)
  | Pie (amounts : list spec_float) (labels : list value)
      (autopct : string) (startangle : Z)
  | Title (text : string)
  | Axis (option : string)
  | Savefig (path : string)
  | Close.

(** The outside world: what a call does after the calls made before it,
    [None] when it returns and the exception when it raises. *)
Definition world : Type := list command -> command -> option exn.

Definition run (A : Type) : Type := list command -> list command * result A.

Definition run_ret {A : Type} (a : A) : run A := fun made => (made, Ok a).

Definition run_bind {A B : Type} (r : run A) (k : A -> run B) : run B :=
  fun made =>
    match r made with
    | (made', Ok a) => k a made'
    | (made', Raise e) => (made', Raise e)
    end.

Notation "'run*' x ':=' r 'in' k" := (run_bind r (fun x => k))
  (at level 10, x name, r at level 100, k at level 200).

Definition call (outside : world) (c : command) : run unit :=
  fun made =>
    ((made ++ [c])%list,
     match outside made c with
     | None => Ok tt
     | Some e => Raise e
     end).

Definition lift {A : Type} (r : result A) : run A := fun made => (made, r).

Definition plot_expenses_by_category (outside : world) (data : collection)
    (output_path : string) : run unit :=
  run* _ := call outside (ImportModule "matplotlib.pyplot") in
  run* totals := lift (aggregate_by_category data) in
  match totals with
  | [] => call outside (PrintLine "No valid data to plot.")
  | _ =>
      let categories := map fst totals in
      let amounts := map snd totals in
      run* _ := call outside (Figure 10 8) in
      run* _ := call outside (Pie amounts categories "%1.1f%%" 90) in
      run* _ := call outside (Title "Expenses by Category") in
      run* _ := call outside (Axis "equal") in
      run* _ := call outside (Savefig output_path) in
      run* _ := call outside Close in
      call outside (PrintLine ("Pie chart saved to " ++ output_path))
  end.

(** [format(x, ".2f")]: the decimal number with two digits after the point
    that is nearest to [x], ties to the even last digit; the sign is kept
    when the digits are all zero. *)
Definition format_fixed2 (x : spec_float) : string :=
  match x with
  | S754_nan => "nan"
  | S754_infinity neg => if neg then "-inf" else "inf"
  | S754_zero neg => if neg then "-0.00" else "0.00"
  | S754_finite neg m e =>
      let n := Zpos m * Float.pow_up 2 e * 100 in
      let d := Float.pow_down 2 e in
      let q := n / d in
      let r := n mod d in
      let cents := if (d <? 2 * r) || ((d =? 2 * r) && Z.odd q) then q + 1 else q in
      let body :=
        (Float.digit_string (Float.digits_of (cents / 100)) ++ "."
         ++ Float.digit_string [cents / 10 mod 10; cents mod 10])%string in
      if neg then String "-" body else body
  end.

(** The arguments [argparse] hands to [main]: the directory, the flag
    [--print], the two dates of [--expenses] when it is given, and the flag
    [--plot]. *)
Record arguments : Type := mkargs {
  args_dirpath : string;
  args_print : bool;
  args_expenses : option (string * string);
  args_plot : bool
}.

Section Main.

Variable listdir : string -> option (list string).
Variable isfile : string -> bool.
Variable read_bytes : string -> option (list Byte.byte).

(** [gpt.extract_receipt_info]: the object the service replied, or the
    exception of a call that failed or of a reply that is not a JSON
    object. *)
Variable extract_receipt_info : string -> result receipt.

(** [json.dumps(data, indent=2)] *)
Variable json_dumps : collection -> string.

Variable outside : world.

(** [process_directory] as [main] runs it, over a file system and a service
    that can fail: the first failure ends the run with its exception and no
    collection is built.  The amount of a reply is a value [json.loads] has
    read, which [str] writes out, so [sanitize_amount] returns on it. *)
Definition process_directory_run (dirpath : string) : result collection :=
  match list_files listdir isfile dirpath with
  | None => Raise OSError
  | Some files =>
      for_each
        (fun (results : collection) (file : string * string) =>
           let (name, path) := file in
           match encode_file read_bytes path with
           | None => Raise OSError
           | Some image_b64 =>
               let* data := extract_receipt_info image_b64 in
               let data :=
                 <["amount" := sanitize_amount (dict_get data "amount")]> data in
               Ok (collection_set results name data)
           end)
        files []
  end.

(** [main], from the parsed arguments on. *)
Definition main (args : arguments) : run unit :=
  run* data := lift (process_directory_run (args_dirpath args)) in
  run* _ :=
    (if args_print args
     then call outside (PrintLine (json_dumps data))
     else run_ret tt) in
  run* _ :=
    match args_expenses args with
    | Some (start_date, end_date) =>
        run* total :=
          lift (calculate_expenses data (VStr start_date) (VStr end_date)) in
        call outside
          (PrintLine ("Total expenses from " ++ start_date ++ " to " ++ end_date
                      ++ ": $" ++ format_fixed2 total))
    | None => run_ret tt
    end in
  if args_plot args
  then plot_expenses_by_category outside data "expenses_by_category.png"
  else run_ret tt.

End Main.

(** ** Notions used to state the properties *)

(** A decimal float literal, read by Rocq's own binary64 reader. *)
Definition lit (f : PrimFloat.float) : spec_float := Prim2SF f.

(** The test both aggregation loops make before they [continue]:
    [amount is None or not isinstance(amount, (int, float))]. *)
Definition skips_amount (amount : value) : bool :=
  is_none amount || negb (isinstance_int_float amount).

(** A record whose amount field is absent, [None] or not a number. *)
Definition amount_missing (r : receipt) : Prop :=
  r !! "amount" = None
  \/ exists v, r !! "amount" = Some v /\ isinstance_int_float v = false.

(** [a] is [b] or an earlier day. *)
Definition date_le (a b : date) : Prop := date_ltb a b = true \/ a = b.

(** The date test of [calculate_expenses]: the date parses and is neither
    strictly before [start] nor strictly after [end_]. *)
Definition date_in_range (start end_ : date) (r : receipt) : bool :=
  match parse_date (dict_get r "date") with
  | Some d => negb (date_ltb d start) && negb (date_ltb end_ d)
  | None => false
  end.

(** The records [calculate_expenses] adds up. *)
Definition counted (start end_ : date) (r : receipt) : bool :=
  date_in_range start end_ r && isinstance_int_float (dict_get r "amount").

(** Adding up the amounts of a list of records, in order. *)
Definition sum_amounts (rs : list receipt) : result spec_float :=
  for_each (fun total r => float_add total (dict_get r "amount")) rs Float.zero.

(** What a record with a number for amount does to the totals: its amount
    is added to the bucket of its category, which starts at [0.0]. *)
Definition bucket_add (totals : totals_dict) (category amount : value)
  : result totals_dict :=
  let* updated :=
    float_add (default Float.zero (totals_get totals category)) amount in
  Ok (totals_set totals category updated).

(** The finite binary64 numbers: a mantissa of 53 bits with an exponent from
    -1074 to 971, or a shorter mantissa with the exponent -1074. *)
Definition canonical (m : positive) (e : Z) : Prop :=
  (2 ^ 52 <= Zpos m < 2 ^ 53 /\ -1074 <= e <= 971)
  \/ (Zpos m < 2 ^ 52 /\ e = -1074).

(** The floats of Python: the special values and the finite binary64
    numbers. *)
Definition binary64 (f : spec_float) : Prop :=
  match f with
  | S754_finite _ m e => canonical m e
  | _ => True
  end.

(** [10 ^ (decpt_estimate L - 1) <= 2 ^ L] *)
Definition estimate_below (L : Z) : bool :=
  Float.pow_up 10 (Float.decpt_estimate L - 1) * Float.pow_down 2 L
  <=? Float.pow_up 2 L * Float.pow_down 10 (Float.decpt_estimate L - 1).

(** The binary logarithms of the finite floats, from -1074 to 1023. *)
Definition binary_logarithms : list Z :=
  map (fun i => Z.of_nat i - 1074) (seq 0 2098).

(** Decimal digits. *)
Definition is_decimal (d : Z) : Prop := 0 <= d <= 9.

(** A text at which [take_digits] stops: it does not start with a digit or
    an underscore. *)
Definition stops (r : string) : bool :=
  match r with
  | EmptyString => true
  | String c _ => negb (Text.is_digit c) && negb (Ascii.eqb c "_")
  end.

(** A text made of white space only. *)
Definition all_space (ws : string) : Prop :=
  Text.string_forall Text.is_space ws = true.

(** A character that is neither a [$] nor white space. *)
Definition plain (c : ascii) : bool :=
  negb (Ascii.eqb c "$") && negb (Text.is_space c) && negb (Float.is_blank c).

(** The text [sanitize_amount] hands to [float]. *)
Definition cleaned_text (amount : value) : string :=
  Text.strip (Text.remove_char "$" (py_str amount)).

Definition strip_leading_dollar (s : string) : string :=
  match s with
  | String c t => if Ascii.eqb c "$" then t else s
  | EmptyString => s
  end.

(** The normaliser in the words of the specification: convert to text,
    strip a leading [$] if present, strip surrounding white space, parse.
    White space is stripped before the [$] as well, so that [" $43.83 "] is
    read as the specification says. *)
Definition sanitize_amount_as_specified (amount : value) : value :=
  match amount with
  | VNone => VNone
  | _ =>
      let cleaned :=
        Text.strip (strip_leading_dollar (Text.strip (py_str amount))) in
      match Float.of_string cleaned with
      | Some f => VFloat f
      | None => VNone
      end
  end.

(** A receipt with a date, an amount and a category. *)
Definition receipt_of (d a c : value) : receipt :=
  <["date" := d]> (<["amount" := a]> (<["category" := c]> ∅)).

(** The collection of the end-to-end example, amounts normalised. *)
Definition example_collection : collection :=
  [ ("a", receipt_of (VStr "2024-02-01") (VFloat (lit 10.0)) (VStr "Meals"));
    ("b", receipt_of (VStr "2024-02-15") (sanitize_amount (VStr "$5")) (VStr "Meals"));
    ("c", receipt_of (VStr "2024-03-01") VNone (VStr "Other")) ].

(** The same collection with the amount of [b] left as the text ["$5"]. *)
Definition example_collection_raw : collection :=
  [ ("a", receipt_of (VStr "2024-02-01") (VFloat (lit 10.0)) (VStr "Meals"));
    ("b", receipt_of (VStr "2024-02-15") (VStr "$5") (VStr "Meals"));
    ("c", receipt_of (VStr "2024-03-01") VNone (VStr "Other")) ].

(** *** Reading base64 back *)

(** The number a character of the alphabet stands for. *)
Definition base64_value (c : Byte.byte) : option Z :=
  let n := Base64.byte_value c in
  if (65 <=? n) && (n <=? 90) then Some (n - 65)
  else if (97 <=? n) && (n <=? 122) then Some (n - 71)
  else if (48 <=? n) && (n <=? 57) then Some (n + 4)
  else if n =? 43 then Some 62
  else if n =? 47 then Some 63
  else None.

Definition is_pad (c : Byte.byte) : bool := Base64.byte_value c =? 61.

Definition octet (n shift : Z) : Byte.byte :=
  Base64.byte_of (Z.land (Z.shiftr n shift) 255).

(** The bytes a padded base64 text stands for (RFC 4648): four characters
    give three bytes, and only the last four may end with one or two [=]. *)
Fixpoint base64_decode (text : list Byte.byte) : option (list Byte.byte) :=
  match text with
  | [] => Some []
  | c0 :: c1 :: c2 :: c3 :: rest =>
      match base64_value c0, base64_value c1 with
      | Some s0, Some s1 =>
          let n01 := Z.lor (Z.shiftl s0 18) (Z.shiftl s1 12) in
          if is_pad c2 && is_pad c3 then
            match rest with
            | [] => Some [octet n01 16]
            | _ => None
            end
          else
            match base64_value c2 with
            | Some s2 =>
                let n012 := Z.lor n01 (Z.shiftl s2 6) in
                if is_pad c3 then
                  match rest with
                  | [] => Some [octet n012 16; octet n012 8]
                  | _ => None
                  end
                else
                  match base64_value c3 with
                  | Some s3 =>
                      let n := Z.lor n012 s3 in
                      option_map
                        (fun tail => octet n 16 :: octet n 8 :: octet n 0 :: tail)
                        (base64_decode rest)
                  | None => None
                  end
            | None => None
            end
      | _, _ => None
      end
  | _ => None
  end.

(** The bytes of a text whose characters are below 128
    ([text.encode("ascii")]). *)
Definition ascii_bytes (text : string) : list Byte.byte :=
  map byte_of_ascii (list_ascii_of_string text).

(** A character of a base64 text: a letter, a digit, [+], [/] or [=]. *)
Definition is_base64_char (c : ascii) : bool :=
  let n := Text.code c in
  ((65 <=? n) && (n <=? 90)) || ((97 <=? n) && (n <=? 122))
  || ((48 <=? n) && (n <=? 57)) || (n =? 43) || (n =? 47) || (n =? 61).

(** The text whose characters have the codes of the bytes. *)
Definition bytes_text (data : list Byte.byte) : string :=
  string_of_list_ascii (map ascii_of_byte data).

(** The [=] signs that end the encoding of [n] bytes. *)
Definition padding (n : nat) : string :=
  match (n mod 3)%nat with
  | O => ""
  | S O => "=="
  | _ => "="
  end.

(** A character of the alphabet proper, [=] left out. *)
Definition is_alphabet_char (c : ascii) : bool :=
  is_base64_char c && negb (Ascii.eqb c "=").

(** What [a] contributes to [join a b] for a relative [b]. *)
Definition directory_prefix (a : string) : string :=
  if String.eqb a EmptyString || Posixpath.ends_with_sep a then a
  else (a ++ "/")%string.

(** The record [process_directory] stores for the file at [path]. *)
Definition stored_record (encode_file : string -> string)
    (extract_receipt_info : string -> receipt) (path : string) : receipt :=
  let data := extract_receipt_info (encode_file path) in
  <["amount" := sanitize_amount (dict_get data "amount")]> data.

(** *** Dates *)

(** A date of the calendar, years 1 to 9999. *)
Definition valid_date (d : date) : Prop :=
  1 <= year d <= 9999
  /\ 1 <= month d <= 12
  /\ 1 <= day d <= Strptime.days_in_month (year d) (month d).

(** A number below 100 in two digits. *)
Definition two_digits (n : Z) : string :=
  String (Float.digit_char (n / 10)) (String (Float.digit_char (n mod 10)) EmptyString).

(** A number below 100 without a leading zero. *)
Definition short_digits (n : Z) : string :=
  if n <? 10 then String (Float.digit_char n) EmptyString else two_digits n.

Definition four_digits (n : Z) : string :=
  String (Float.digit_char (n / 1000))
    (String (Float.digit_char (n / 100 mod 10))
       (String (Float.digit_char (n / 10 mod 10))
          (String (Float.digit_char (n mod 10)) EmptyString))).

(** The text [YYYY-MM-DD] of a date. *)
Definition isoformat (d : date) : string :=
  four_digits (year d) ++ "-" ++ two_digits (month d) ++ "-" ++ two_digits (day d).

(** The same with the month and the day written without a leading zero. *)
Definition short_format (d : date) : string :=
  four_digits (year d) ++ "-" ++ short_digits (month d) ++ "-"
  ++ short_digits (day d).

(** *** Collections *)

(** The category under which [aggregate_by_category] files a record. *)
Definition category_of (r : receipt) : value :=
  dict_get_default r "category" (VStr "Other").

(** The records with a number for amount that are filed under the text
    category [c]. *)
Definition in_category (c : string) (r : receipt) : bool :=
  isinstance_int_float (dict_get r "amount")
  && key_eqb (category_of r) (VStr c).

(** A record with a number for amount and a list or an object for
    category. *)
Definition unhashable_category (r : receipt) : bool :=
  isinstance_int_float (dict_get r "amount") && negb (hashable (category_of r)).

(** A collection whose amounts are all [None] or a float. *)
Definition normalised (data : collection) : Prop :=
  Forall (fun entry =>
            dict_get (snd entry) "amount" = VNone
            \/ exists f, dict_get (snd entry) "amount" = VFloat f)
    data.

(** *** Characters of amounts *)

(** The characters float literals are made of: the digits, the signs, the
    point, the underscore, and the letters of [e], [inf], [infinity] and
    [nan] in either case. *)
Definition numeric_char (c : ascii) : bool :=
  Text.is_digit c || Ascii.eqb c "+" || Ascii.eqb c "-" || Ascii.eqb c "."
  || Ascii.eqb c "_"
  || Text.string_exists (Ascii.eqb (Text.lower c)) "aefinty".

(** The characters of the texts [sanitize_amount] turns into a float:
    those of float literals, the [$] and white space. *)
Definition amount_char (c : ascii) : bool :=
  numeric_char c || Ascii.eqb c "$" || Text.is_space c.

(** *** Dicts *)

(** The keys of a dict have a hash and are pairwise different. *)
Fixpoint distinct_keys (totals : totals_dict) : Prop :=
  match totals with
  | [] => True
  | (k, _) :: rest =>
      hashable k = true
      /\ (forall entry, In entry rest -> key_eqb k (fst entry) = false)
      /\ distinct_keys rest
  end.

(** A record with a number for amount. *)
Definition has_amount (entry : string * receipt) : bool :=
  isinstance_int_float (dict_get (snd entry) "amount").

(** *** Runs *)

(** The calls of a run that starts with no call made, and its outcome. *)
Definition calls {A : Type} (r : run A) : list command := fst (r []).
Definition outcome {A : Type} (r : run A) : result A := snd (r []).

(** Whether the calls [cs], made in order after the calls [made], all
    return. *)
Fixpoint all_return (outside : world) (made cs : list command) : bool :=
  match cs with
  | [] => true
  | c :: rest =>
      match outside made c with
      | None => all_return outside (made ++ [c]) rest
      | Some _ => false
      end
  end.

(** The calls of [cs] that are made when they are tried in order: all of
    them up to the first that raises, that one included. *)
Fixpoint attempted (outside : world) (made cs : list command) : list command :=
  match cs with
  | [] => []
  | c :: rest =>
      c :: match outside made c with
           | None => attempted outside (made ++ [c]) rest
           | Some _ => []
           end
  end.

(** The outcome of trying the calls [cs] in order: the exception of the
    first that raises. *)
Fixpoint first_failure (outside : world) (made cs : list command) : result unit :=
  match cs with
  | [] => Ok tt
  | c :: rest =>
      match outside made c with
      | None => first_failure outside (made ++ [c]) rest
      | Some e => Raise e
      end
  end.

(** A world in which [pie] raises [ValueError] when a wedge size is below
    zero and every other call returns. *)
Definition pie_rejects_negative : world :=
  fun _ c =>
    match c with
    | Pie amounts _ _ _ =>
        if existsb (fun amount => SFltb amount Float.zero) amounts
        then Some ValueError
        else None
    | _ => None
    end.

(** The calls that draw and save the pie of the totals. *)
Definition chart_calls (totals : totals_dict) (output_path : string)
  : list command :=
  [ Figure 10 8;
    Pie (map snd totals) (map fst totals) "%1.1f%%" 90;
    Title "Expenses by Category";
    Axis "equal";
    Savefig output_path;
    Close;
    PrintLine ("Pie chart saved to " ++ output_path) ].

(** The line [main] prints for [--expenses]. *)
Definition expenses_line (start_date end_date : string) (total : spec_float)
  : string :=
  "Total expenses from " ++ start_date ++ " to " ++ end_date ++ ": $"
  ++ format_fixed2 total.

(** The total functions that return what the world returns where it does
    not fail. *)
Definition files_listed (listdir : string -> option (list string))
    (isfile : string -> bool) (dirpath : string) : list (string * string) :=
  default [] (list_files listdir isfile dirpath).

Definition file_encoded (read_bytes : string -> option (list Byte.byte))
    (path : string) : string :=
  default EmptyString (encode_file read_bytes path).

Definition reply_of (extract_receipt_info : string -> result receipt)
    (image_b64 : string) : receipt :=
  match extract_receipt_info image_b64 with
  | Ok data => data
  | Raise _ => ∅
  end.

(** *** Amounts *)

(** The floats among the amounts of a list of records, in order. *)
Definition float_amounts (rs : list receipt) : list spec_float :=
  flat_map
    (fun r =>
       match dict_get r "amount" with
       | VFloat f => [f]
       | _ => []
       end)
    rs.

(** The values [str] writes out when the interpreter lets lists and objects
    be nested [limit] deep: CPython refuses to write an [int] of more than
    4300 digits, and raises [RecursionError] on a value nested deeper than
    its recursion limit leaves room for.  [json.loads] reads under the same
    two limits. *)
Fixpoint str_defined (limit : nat) (v : value) {struct v} : bool :=
  match v with
  | VInt n => Z.abs n <? 10 ^ 4300
  | VList items =>
      match limit with
      | O => false
      | S limit' => forallb (str_defined limit') items
      end
  | VDict fields =>
      match limit with
      | O => false
      | S limit' => forallb (fun field => str_defined limit' (snd field)) fields
      end
  | _ => true
  end.

(** * Properties *)

(** ** Loops *)

Lemma for_each_app {A B : Type} (body : B -> A -> result B) (xs ys : list A) acc :
  for_each body (xs ++ ys) acc =
  match for_each body xs acc with
  | Ok acc' => for_each body ys acc'
  | Raise e => Raise e
  end.
Proof.
  revert acc. induction xs as [|x xs IH]; intros acc; simpl; [reflexivity|].
  destruct (body acc x); [apply IH | reflexivity].
Qed.

Lemma for_each_filter {A B : Type} (body : B -> A -> result B) (keep : A -> bool)
    (xs : list A) acc :
  (forall acc x, keep x = false -> body acc x = Ok acc) ->
  for_each body xs acc = for_each body (List.filter keep xs) acc.
Proof.
  intros Hskip. revert acc. induction xs as [|x xs IH]; intros acc; simpl.
  - reflexivity.
  - destruct (keep x) eqn:Hk; simpl.
    + destruct (body acc x); [apply IH | reflexivity].
    + rewrite (Hskip acc x Hk). apply IH.
Qed.

Lemma for_each_ext {A B : Type} (body body' : B -> A -> result B) (xs : list A) acc :
  (forall acc x, In x xs -> body acc x = body' acc x) ->
  for_each body xs acc = for_each body' xs acc.
Proof.
  revert acc. induction xs as [|x xs IH]; intros acc Heq; simpl; [reflexivity|].
  rewrite (Heq acc x (or_introl Logic.eq_refl)).
  destruct (body' acc x); [|reflexivity].
  apply IH. intros acc' y Hy. apply Heq. right. exact Hy.
Qed.

Lemma for_each_skip_middle {A B : Type} (body : B -> A -> result B) xs x ys acc :
  (forall acc, body acc x = Ok acc) ->
  for_each body (xs ++ x :: ys) acc = for_each body (xs ++ ys) acc.
Proof.
  intros Hskip. rewrite !for_each_app. simpl.
  destruct (for_each body xs acc); [|reflexivity].
  rewrite Hskip. reflexivity.
Qed.

(** ** Amount tests *)

Lemma skips_amount_isinstance v :
  skips_amount v = negb (isinstance_int_float v).
Proof. destruct v; reflexivity. Qed.

Lemma amount_missing_skips r :
  amount_missing r -> skips_amount (dict_get r "amount") = true.
Proof.
  unfold dict_get. intros [Habs | (v & Hv & Hnum)].
  - rewrite Habs. reflexivity.
  - rewrite Hv. simpl. rewrite skips_amount_isinstance, Hnum. reflexivity.
Qed.

(** ** Dates *)

Lemma date_ltb_irrefl d : date_ltb d d = false.
Proof.
  unfold date_ltb. rewrite !Z.ltb_irrefl, !Z.eqb_refl. reflexivity.
Qed.

(** ** [calculate_expenses] *)

(** C4: when [start_date] or [end_date] is not a date, the total is [0.0]
    whatever the collection holds, and no exception is raised. *)
Theorem calculate_expenses_bad_range (data : collection) (start_date end_date : value) :
  parse_date start_date = None \/ parse_date end_date = None ->
  calculate_expenses data start_date end_date = Ok (S754_zero false).
Proof.
  unfold calculate_expenses. intros [H | H]; rewrite H.
  - reflexivity.
  - destruct (parse_date start_date); reflexivity.
Qed.

Lemma calculate_expenses_bad_range_witness :
  (parse_date (VStr "2024-02-30") = None
   \/ parse_date (VStr "2024-03-01") = None)
  /\ calculate_expenses example_collection (VStr "2024-02-30") (VStr "2024-03-01")
     = Ok (S754_zero false).
Proof.
  assert (H : parse_date (VStr "2024-02-30") = None
              \/ parse_date (VStr "2024-03-01") = None)
    by (left; reflexivity).
  split; [exact H|].
  apply (calculate_expenses_bad_range example_collection
           (VStr "2024-02-30") (VStr "2024-03-01") H).
Defined.

(** The loop body of [calculate_expenses] adds the amount of a counted
    record and leaves the total alone otherwise. *)
Lemma calculate_expenses_filter data start_date end_date start end_ :
  parse_date start_date = Some start ->
  parse_date end_date = Some end_ ->
  calculate_expenses data start_date end_date
  = sum_amounts (List.filter (counted start end_) (values data)).
Proof.
  intros Hs He. unfold calculate_expenses, sum_amounts. rewrite Hs, He.
  rewrite (for_each_filter _ (counted start end_)).
  - apply for_each_ext. intros acc r Hin. unfold calculate_expenses_body.
    apply filter_In in Hin. destruct Hin as [_ Hc].
    unfold counted, date_in_range in Hc.
    destruct (parse_date (dict_get r "date")) as [d|]; [|discriminate].
    apply andb_prop in Hc. destruct Hc as [Hd Hnum].
    apply andb_prop in Hd. destruct Hd as [H1 H2].
    apply negb_true_iff in H1, H2. rewrite H1, H2. simpl.
    fold (skips_amount (dict_get r "amount")).
    rewrite skips_amount_isinstance, Hnum. reflexivity.
  - intros acc r Hc. unfold counted, date_in_range in Hc.
    unfold calculate_expenses_body.
    destruct (parse_date (dict_get r "date")) as [d|]; [|reflexivity].
    fold (skips_amount (dict_get r "amount")).
    rewrite skips_amount_isinstance.
    destruct (date_ltb d start); [reflexivity|].
    destruct (date_ltb end_ d); [reflexivity|].
    simpl in Hc. rewrite Hc. reflexivity.
Qed.

(** Not strictly after is the same as before or equal. *)
Lemma date_ltb_total a b : date_ltb b a = false <-> date_le a b.
Proof.
  destruct a as [y m d], b as [y' m' d']. unfold date_le, date_ltb. simpl.
  destruct (Z.compare_spec y y') as [Hy | Hy | Hy],
    (Z.compare_spec m m') as [Hm | Hm | Hm],
    (Z.compare_spec d d') as [Hd | Hd | Hd];
    repeat match goal with
      | |- context [?x <? ?z] =>
          first [ replace (x <? z) with true by (symmetry; apply Z.ltb_lt; lia)
                | replace (x <? z) with false by (symmetry; apply Z.ltb_ge; lia) ]
      | |- context [?x =? ?z] =>
          first [ replace (x =? z) with true by (symmetry; apply Z.eqb_eq; lia)
                | replace (x =? z) with false by (symmetry; apply Z.eqb_neq; lia) ]
      end;
    simpl; split; intros Hgoal; try discriminate Hgoal; try reflexivity;
    try (left; reflexivity);
    try (right; f_equal; lia);
    try (destruct Hgoal as [Hgoal | Hgoal];
         [discriminate Hgoal | injection Hgoal; lia]).
Qed.

Lemma counted_iff start end_ r :
  counted start end_ r = true <->
  exists d, parse_date (dict_get r "date") = Some d
            /\ date_le start d /\ date_le d end_
            /\ isinstance_int_float (dict_get r "amount") = true.
Proof.
  unfold counted, date_in_range. split.
  - destruct (parse_date (dict_get r "date")) as [d|]; [|discriminate].
    intros H. apply andb_prop in H. destruct H as [H Hnum].
    apply andb_prop in H. destruct H as [H1 H2].
    apply negb_true_iff in H1, H2. apply date_ltb_total in H1, H2.
    exists d. auto.
  - intros (d & Hd & H1 & H2 & Hnum). apply date_ltb_total in H1, H2.
    rewrite Hd, H1, H2, Hnum. reflexivity.
Qed.

Lemma float_amounts_cons r rs :
  float_amounts (r :: rs)
  = (match dict_get r "amount" with VFloat f => [f] | _ => [] end
     ++ float_amounts rs)%list.
Proof. reflexivity. Qed.

Lemma sum_amounts_floats rs :
  Forall (fun r => exists f, dict_get r "amount" = VFloat f) rs ->
  forall total,
    for_each (fun total r => float_add total (dict_get r "amount")) rs total
    = Ok (fold_left Float.add (float_amounts rs) total).
Proof.
  induction 1 as [|r rs [f Hf] _ IH]; intros total; [reflexivity|].
  cbn [for_each]. rewrite float_amounts_cons, Hf.
  cbn [float_add app fold_left]. apply IH.
Qed.

Lemma counted_floats data start end_ :
  Forall (fun entry =>
            dict_get (snd entry) "amount" = VNone
            \/ exists f, dict_get (snd entry) "amount" = VFloat f) data ->
  Forall (fun r => exists f, dict_get r "amount" = VFloat f)
    (List.filter (counted start end_) (values data)).
Proof.
  intros Hnorm. apply List.Forall_forall. intros r Hin.
  apply List.filter_In in Hin. destruct Hin as [Hin Hc].
  unfold values in Hin. apply List.in_map_iff in Hin.
  destruct Hin as ([name r'] & <- & Hin).
  rewrite List.Forall_forall in Hnorm.
  destruct (Hnorm (name, r') Hin) as [Hnone | Hf]; [|exact Hf].
  simpl in Hnone, Hc. unfold counted in Hc. rewrite Hnone in Hc.
  rewrite andb_false_r in Hc. discriminate Hc.
Qed.

(** C3: with a start and an end that are dates, the total is the sum, in
    order, over the records whose date is neither strictly before the start
    nor strictly after the end, that is, from the start to the end with both
    bounds included (and whose amount is a number); so a record dated exactly
    the start or exactly the end of a range is counted.  On a collection
    whose amounts are all [None] or a float the total is those floats added
    to [0.0] one after the other; and of five records dated the day before
    the start, the start, a day inside, the end and the day after the end,
    with amounts 1, 2, 4, 8 and 16, the total is 14. *)
Theorem calculate_expenses_inclusive_range
    (data : collection) (start_date end_date : value) (start end_ : date) :
  parse_date start_date = Some start ->
  parse_date end_date = Some end_ ->
  calculate_expenses data start_date end_date
  = sum_amounts (List.filter (counted start end_) (values data))
  /\ (forall r, counted start end_ r = true <->
        exists d, parse_date (dict_get r "date") = Some d
                  /\ date_ltb d start = false /\ date_ltb end_ d = false
                  /\ isinstance_int_float (dict_get r "amount") = true)
  /\ (forall r, counted start end_ r = true <->
        exists d, parse_date (dict_get r "date") = Some d
                  /\ date_le start d /\ date_le d end_
                  /\ isinstance_int_float (dict_get r "amount") = true)
  /\ (forall r, date_le start end_ ->
        isinstance_int_float (dict_get r "amount") = true ->
        parse_date (dict_get r "date") = Some start
        \/ parse_date (dict_get r "date") = Some end_ ->
        counted start end_ r = true)
  /\ (normalised data ->
      calculate_expenses data start_date end_date
      = Ok (fold_left Float.add
              (float_amounts (List.filter (counted start end_) (values data)))
              Float.zero))
  /\ calculate_expenses
       [ ("before", receipt_of (VStr "2024-01-31") (VFloat (lit 1.0)) (VStr "Meals"));
         ("first", receipt_of (VStr "2024-02-01") (VFloat (lit 2.0)) (VStr "Meals"));
         ("inside", receipt_of (VStr "2024-02-15") (VFloat (lit 4.0)) (VStr "Other"));
         ("last", receipt_of (VStr "2024-03-01") (VFloat (lit 8.0)) (VStr "Meals"));
         ("after", receipt_of (VStr "2024-03-02") (VFloat (lit 16.0)) (VStr "Meals")) ]
       (VStr "2024-02-01") (VStr "2024-03-01")
     = Ok (lit 14.0)
  /\ calculate_expenses
       [("r", receipt_of (VStr "2024-01-01") (VFloat (lit 7.0)) (VStr "Meals"))]
       (VStr "2024-02-01") (VStr "2024-03-01")
     = Ok (lit 0.0)
  /\ calculate_expenses
       [("r", receipt_of (VStr "2024-02-01") (VFloat (lit 7.0)) (VStr "Meals"))]
       (VStr "2024-02-01") (VStr "2024-03-01")
     = Ok (lit 7.0)
  /\ calculate_expenses
       [("r", receipt_of (VStr "2024-03-01") (VFloat (lit 7.0)) (VStr "Meals"))]
       (VStr "2024-02-01") (VStr "2024-03-01")
     = Ok (lit 7.0).
Proof.
  intros Hs He. split; [|split; [|split; [|split; [|split]]]].
  - apply calculate_expenses_filter; assumption.
  - intros r. rewrite counted_iff. split; intros (d & Hd & H1 & H2 & Hnum);
      exists d; repeat split; try assumption; apply date_ltb_total; assumption.
  - intros r. apply counted_iff.
  - intros r Hle Hnum [Hd | Hd]; apply counted_iff.
    + exists start. repeat split; try assumption. right. reflexivity.
    + exists end_. repeat split; try assumption. right. reflexivity.
  - intros Hnorm.
    rewrite (calculate_expenses_filter data start_date end_date start end_ Hs He).
    unfold sum_amounts. apply sum_amounts_floats.
    apply counted_floats. exact Hnorm.
  - repeat split; vm_compute; reflexivity.
Qed.

Lemma calculate_expenses_inclusive_range_witness :
  parse_date (VStr "2024-02-01") = Some (mkdate 2024 2 1)
  /\ parse_date (VStr "2024-03-01") = Some (mkdate 2024 3 1)
  /\ normalised example_collection
  /\ calculate_expenses example_collection (VStr "2024-02-01") (VStr "2024-03-01")
     = Ok (fold_left Float.add
             (float_amounts
                (List.filter (counted (mkdate 2024 2 1) (mkdate 2024 3 1))
                   (values example_collection)))
             Float.zero)
  /\ fold_left Float.add
       (float_amounts
          (List.filter (counted (mkdate 2024 2 1) (mkdate 2024 3 1))
             (values example_collection)))
       Float.zero
     = lit 15.0.
Proof.
  assert (Hnorm : normalised example_collection).
  { unfold normalised, example_collection.
    apply List.Forall_cons; [right; exists (lit 10.0); reflexivity|].
    apply List.Forall_cons; [right; exists (lit 5.0); vm_compute; reflexivity|].
    apply List.Forall_cons; [left; reflexivity|]. apply List.Forall_nil. }
  split; [reflexivity|]. split; [reflexivity|]. split; [exact Hnorm|].
  split; [|vm_compute; reflexivity].
  exact (proj1 (proj2 (proj2 (proj2 (proj2
    (calculate_expenses_inclusive_range example_collection
       (VStr "2024-02-01") (VStr "2024-03-01")
       (mkdate 2024 2 1) (mkdate 2024 3 1) Logic.eq_refl Logic.eq_refl)))))
    Hnorm).
Defined.

(** The dates of the example: 2024-01-01 is outside the range 2024-02-01 to
    2024-03-01, both of its bounds are inside. *)
Example range_excludes_january :
  calculate_expenses
    [("r", receipt_of (VStr "2024-01-01") (VFloat (lit 7.0)) (VStr "Meals"))]
    (VStr "2024-02-01") (VStr "2024-03-01")
  = Ok (lit 0.0).
Proof. vm_compute. reflexivity. Qed.

Example range_includes_start :
  calculate_expenses
    [("r", receipt_of (VStr "2024-02-01") (VFloat (lit 7.0)) (VStr "Meals"))]
    (VStr "2024-02-01") (VStr "2024-03-01")
  = Ok (lit 7.0).
Proof. vm_compute. reflexivity. Qed.

Example range_includes_end :
  calculate_expenses
    [("r", receipt_of (VStr "2024-03-01") (VFloat (lit 7.0)) (VStr "Meals"))]
    (VStr "2024-02-01") (VStr "2024-03-01")
  = Ok (lit 7.0).
Proof. vm_compute. reflexivity. Qed.

(** ** The end-to-end example *)

(** C2, as the specification words it, fails: records [a] and [b] both lie
    in the range, so the range total cannot be 10.0 when the category total
    is 15.0. *)
Lemma example_collection_range_total_not_10 :
  ~ (aggregate_by_category example_collection = Ok [(VStr "Meals", lit 15.0)]
     /\ calculate_expenses example_collection (VStr "2024-02-01") (VStr "2024-02-28")
        = Ok (lit 10.0)).
Proof. intros [_ H]. vm_compute in H. discriminate H. Qed.

(** C2, amended: the category totals are [{"Meals": 15.0}] and the total of
    the range 2024-02-01 to 2024-02-28 is 15.0 as well. *)
Theorem example_collection_totals :
  aggregate_by_category example_collection = Ok [(VStr "Meals", lit 15.0)]
  /\ calculate_expenses example_collection (VStr "2024-02-01") (VStr "2024-02-28")
     = Ok (lit 15.0).
Proof. split; vm_compute; reflexivity. Qed.

(** With the amount of [b] left as text, [b] is skipped by both
    operations and both totals are 10.0. *)
Lemma example_collection_raw_totals :
  aggregate_by_category example_collection_raw = Ok [(VStr "Meals", lit 10.0)]
  /\ calculate_expenses example_collection_raw (VStr "2024-02-01") (VStr "2024-02-28")
     = Ok (lit 10.0).
Proof. split; vm_compute; reflexivity. Qed.

(** ** [aggregate_by_category] *)

Lemma values_app (xs ys : collection) :
  values (xs ++ ys)%list = (values xs ++ values ys)%list.
Proof. apply map_app. Qed.

Lemma SFeqb_refl_finite f : f <> S754_nan -> SFeqb f f = true.
Proof.
  intros Hnan. unfold SFeqb. destruct f as [[]|[]| |[] m e]; simpl; try reflexivity.
  - congruence.
  - rewrite Z.compare_refl, Pos.compare_cont_refl. reflexivity.
  - rewrite Z.compare_refl, Pos.compare_cont_refl. reflexivity.
Qed.

Lemma key_eqb_refl k : hashable k = true -> key_eqb k k = true.
Proof.
  destruct k as [|b|n|f|s|items|fields]; simpl; intros Hk; try discriminate.
  - reflexivity.
  - destruct b; reflexivity.
  - apply Z.eqb_refl.
  - destruct f as [s|s| |s m e]; try reflexivity;
      apply SFeqb_refl_finite; discriminate.
  - apply String.eqb_refl.
Qed.

Lemma totals_get_set_same totals key v :
  hashable key = true ->
  totals_get (totals_set totals key v) key = Some v.
Proof.
  intros Hkey. induction totals as [|[k w] rest IH]; simpl.
  - rewrite (key_eqb_refl key Hkey). reflexivity.
  - destruct (key_eqb k key) eqn:Hk; simpl; rewrite Hk; [reflexivity | exact IH].
Qed.

Lemma totals_set_set totals key v w :
  hashable key = true ->
  totals_set (totals_set totals key v) key w = totals_set totals key w.
Proof.
  intros Hkey. induction totals as [|[k u] rest IH]; simpl.
  - rewrite (key_eqb_refl key Hkey). reflexivity.
  - destruct (key_eqb k key) eqn:Hk; simpl; rewrite Hk; [reflexivity|].
    rewrite IH. reflexivity.
Qed.

(** A key that no stored key matches both ways is looked up as before. *)
Lemma totals_get_set_other totals key key' v :
  hashable key = true ->
  (forall k, key_eqb k key = true -> key_eqb k key' = false) ->
  totals_get (totals_set totals key v) key' = totals_get totals key'.
Proof.
  intros Hkey Hsep. induction totals as [|[k w] rest IH]; simpl.
  - rewrite (Hsep key (key_eqb_refl key Hkey)). reflexivity.
  - destruct (key_eqb k key) eqn:Hk; simpl.
    + rewrite (Hsep k Hk). reflexivity.
    + rewrite IH. reflexivity.
Qed.

Lemma key_eqb_str k s : key_eqb k (VStr s) = true -> k = VStr s.
Proof.
  destruct k as [|b|n|f|t|items|fields]; simpl; try discriminate.
  - destruct f; discriminate.
  - intros H. apply String.eqb_eq in H. congruence.
Qed.

Lemma key_eqb_none k : key_eqb k VNone = true -> k = VNone.
Proof.
  destruct k as [|b|n|f|t|items|fields]; simpl; try discriminate;
    try reflexivity.
  destruct f; discriminate.
Qed.

(** The loop body on a record with a number for amount. *)
Lemma aggregate_by_category_body_number totals r :
  isinstance_int_float (dict_get r "amount") = true ->
  hashable (dict_get_default r "category" (VStr "Other")) = true ->
  aggregate_by_category_body totals r
  = bucket_add totals (dict_get_default r "category" (VStr "Other"))
      (dict_get r "amount").
Proof.
  intros Hnum Hkey. unfold aggregate_by_category_body, bucket_add.
  fold (skips_amount (dict_get r "amount")).
  rewrite skips_amount_isinstance, Hnum, Hkey. simpl.
  set (category := dict_get_default r "category" (VStr "Other")) in *.
  unfold totals_mem.
  destruct (totals_get totals category) as [current|] eqn:Hget; simpl.
  - rewrite Hget. reflexivity.
  - rewrite (totals_get_set_same _ _ _ Hkey). simpl.
    destruct (float_add Float.zero (dict_get r "amount")); simpl; [|reflexivity].
    rewrite (totals_set_set _ _ _ _ Hkey). reflexivity.
Qed.

(** A record with a number for amount and a list or an object for category
    makes [aggregate_by_category] raise [TypeError]. *)
Lemma aggregate_by_category_body_unhashable totals r :
  isinstance_int_float (dict_get r "amount") = true ->
  hashable (dict_get_default r "category" (VStr "Other")) = false ->
  aggregate_by_category_body totals r = Raise TypeError.
Proof.
  intros Hnum Hkey. unfold aggregate_by_category_body.
  fold (skips_amount (dict_get r "amount")).
  rewrite skips_amount_isinstance, Hnum, Hkey. reflexivity.
Qed.

Lemma aggregate_by_category_body_skip totals r :
  skips_amount (dict_get r "amount") = true ->
  aggregate_by_category_body totals r = Ok totals.
Proof.
  intros Hskip. unfold aggregate_by_category_body.
  fold (skips_amount (dict_get r "amount")). rewrite Hskip. reflexivity.
Qed.

Lemma calculate_expenses_body_skip start end_ total r :
  skips_amount (dict_get r "amount") = true ->
  calculate_expenses_body start end_ total r = Ok total.
Proof.
  intros Hskip. unfold calculate_expenses_body.
  fold (skips_amount (dict_get r "amount")). rewrite Hskip.
  destruct (parse_date (dict_get r "date")) as [d|]; [|reflexivity].
  destruct (date_ltb d start || date_ltb end_ d); reflexivity.
Qed.

Lemma aggregate_by_category_snoc data name r :
  aggregate_by_category (data ++ [(name, r)])%list
  = let* totals := aggregate_by_category data in
    aggregate_by_category_body totals r.
Proof.
  unfold aggregate_by_category. rewrite values_app, for_each_app. simpl.
  destruct (for_each aggregate_by_category_body (values data) []) as [t|e];
    simpl; [|reflexivity].
  destruct (aggregate_by_category_body t r); reflexivity.
Qed.

(** C6: a record whose amount is absent, [None] or not a number takes no
    part in the range total nor in any category total: both operations
    return what they return on the collection without that record, so such
    a record is never the cause of an exception. *)
Theorem missing_amount_excluded
    (before after : collection) (name : string) (r : receipt)
    (start_date end_date : value) :
  amount_missing r ->
  calculate_expenses (before ++ (name, r) :: after)%list start_date end_date
  = calculate_expenses (before ++ after)%list start_date end_date
  /\ aggregate_by_category (before ++ (name, r) :: after)%list
     = aggregate_by_category (before ++ after)%list.
Proof.
  intros Hmiss. apply amount_missing_skips in Hmiss. split.
  - unfold calculate_expenses.
    destruct (parse_date start_date) as [start|]; [|reflexivity].
    destruct (parse_date end_date) as [end_|]; [|reflexivity].
    rewrite !values_app. simpl. apply for_each_skip_middle.
    intros total. apply calculate_expenses_body_skip. exact Hmiss.
  - unfold aggregate_by_category. rewrite !values_app. simpl.
    apply for_each_skip_middle.
    intros totals. apply aggregate_by_category_body_skip. exact Hmiss.
Qed.

Lemma missing_amount_excluded_witness :
  amount_missing (receipt_of (VStr "2024-02-15") (VStr "$5") (VStr "Meals"))
  /\ aggregate_by_category example_collection_raw
     = aggregate_by_category
         [ ("a", receipt_of (VStr "2024-02-01") (VFloat (lit 10.0)) (VStr "Meals"));
           ("c", receipt_of (VStr "2024-03-01") VNone (VStr "Other")) ].
Proof.
  assert (Hmiss :
    amount_missing (receipt_of (VStr "2024-02-15") (VStr "$5") (VStr "Meals"))).
  { right. exists (VStr "$5"). split; reflexivity. }
  split; [exact Hmiss|].
  exact (proj2 (missing_amount_excluded
    [("a", receipt_of (VStr "2024-02-01") (VFloat (lit 10.0)) (VStr "Meals"))]
    [("c", receipt_of (VStr "2024-03-01") VNone (VStr "Other"))]
    "b" (receipt_of (VStr "2024-02-15") (VStr "$5") (VStr "Meals"))
    VNone VNone Hmiss)).
Defined.

(** A collection in which no record has a number for amount gives the
    empty results without raising. *)
Lemma only_missing_amounts data start_date end_date :
  Forall (fun entry => amount_missing (snd entry)) data ->
  calculate_expenses data start_date end_date = Ok (S754_zero false)
  /\ aggregate_by_category data = Ok [].
Proof.
  intros Hall. unfold calculate_expenses, aggregate_by_category.
  assert (Hloops :
    (forall start end_ total,
       for_each (calculate_expenses_body start end_) (values data) total = Ok total)
    /\ forall totals,
         for_each aggregate_by_category_body (values data) totals = Ok totals).
  { induction Hall as [|[name r] rest Hr _ [IH1 IH2]]; [split; reflexivity|].
    apply amount_missing_skips in Hr. simpl in Hr. split.
    - intros start end_ total. simpl.
      rewrite (calculate_expenses_body_skip start end_ total r Hr). apply IH1.
    - intros totals. simpl.
      rewrite (aggregate_by_category_body_skip totals r Hr). apply IH2. }
  destruct Hloops as [H1 H2]. split; [|apply H2].
  destruct (parse_date start_date), (parse_date end_date);
    first [apply H1 | reflexivity].
Qed.

Lemma bucket_add_other_str totals s t a totals' :
  s <> t ->
  bucket_add totals (VStr s) a = Ok totals' ->
  totals_get totals' (VStr t) = totals_get totals (VStr t).
Proof.
  intros Hne. unfold bucket_add.
  destruct (float_add _ a) as [v|e]; simpl; [|discriminate].
  intros H. injection H as <-. apply totals_get_set_other; [reflexivity|].
  intros k Hk. apply key_eqb_str in Hk. subst k. simpl.
  apply String.eqb_neq. exact Hne.
Qed.

(** C7: a record without a category key adds its amount to the bucket
    ["Other"]; two text keys are the same bucket only when they are the same
    text, so a record filed under one spelling leaves the bucket of any other
    spelling alone, and ["Meals"] and ["meals"] give two buckets. *)
Theorem absent_category_is_other (data : collection) (name : string) (r : receipt) :
  r !! "category" = None ->
  isinstance_int_float (dict_get r "amount") = true ->
  aggregate_by_category (data ++ [(name, r)])%list
  = (let* totals := aggregate_by_category data in
     bucket_add totals (VStr "Other") (dict_get r "amount"))
  /\ (forall s t, key_eqb (VStr s) (VStr t) = true <-> s = t)
  /\ (forall totals s t a totals',
        s <> t ->
        bucket_add totals (VStr s) a = Ok totals' ->
        totals_get totals' (VStr t) = totals_get totals (VStr t))
  /\ aggregate_by_category
       [ ("x", receipt_of (VStr "2024-02-01") (VFloat (lit 1.0)) (VStr "Meals"));
         ("y", receipt_of (VStr "2024-02-01") (VFloat (lit 2.0)) (VStr "meals")) ]
     = Ok [(VStr "Meals", lit 1.0); (VStr "meals", lit 2.0)].
Proof.
  intros Hcat Hnum. split; [|split; [|split]].
  - rewrite aggregate_by_category_snoc.
    destruct (aggregate_by_category data) as [totals|e]; simpl; [|reflexivity].
    unfold dict_get_default in *.
    rewrite aggregate_by_category_body_number;
      unfold dict_get_default; rewrite ?Hcat; auto.
  - intros s t. simpl. apply String.eqb_eq.
  - intros totals s t a totals'. apply bucket_add_other_str.
  - vm_compute. reflexivity.
Qed.

Lemma absent_category_is_other_witness :
  (<["amount" := VFloat (lit 3.0)]> (∅ : receipt)) !! "category" = None
  /\ aggregate_by_category
       (example_collection ++ [("d", <["amount" := VFloat (lit 3.0)]> ∅)])%list
     = (let* totals := aggregate_by_category example_collection in
        bucket_add totals (VStr "Other") (VFloat (lit 3.0))).
Proof.
  split; [reflexivity|].
  exact (proj1 (absent_category_is_other example_collection "d"
    (<["amount" := VFloat (lit 3.0)]> ∅) Logic.eq_refl Logic.eq_refl)).
Defined.

(** C10: a record whose category key is present with the value [None] adds
    its amount to the bucket keyed by [None]: the bucket ["Other"] is left as
    it was, and the result has a key that is not text. *)
Theorem none_category_is_a_key (data : collection) (name : string) (r : receipt) :
  r !! "category" = Some VNone ->
  isinstance_int_float (dict_get r "amount") = true ->
  aggregate_by_category (data ++ [(name, r)])%list
  = (let* totals := aggregate_by_category data in
     bucket_add totals VNone (dict_get r "amount"))
  /\ (forall totals a totals',
        bucket_add totals VNone a = Ok totals' ->
        totals_get totals' (VStr "Other") = totals_get totals (VStr "Other")
        /\ exists v, totals_get totals' VNone = Some v)
  /\ aggregate_by_category
       [("x", receipt_of (VStr "2024-02-01") (VFloat (lit 3.0)) VNone)]
     = Ok [(VNone, lit 3.0)].
Proof.
  intros Hcat Hnum. split; [|split].
  - rewrite aggregate_by_category_snoc.
    destruct (aggregate_by_category data) as [totals|e]; simpl; [|reflexivity].
    rewrite aggregate_by_category_body_number;
      unfold dict_get_default; rewrite ?Hcat; auto.
  - intros totals a totals'. unfold bucket_add.
    destruct (float_add _ a) as [v|e]; simpl; [|discriminate].
    intros H. injection H as <-. split.
    + apply totals_get_set_other; [reflexivity|]. intros k Hk.
      apply key_eqb_none in Hk. subst k. reflexivity.
    + exists v. apply totals_get_set_same. reflexivity.
  - vm_compute. reflexivity.
Qed.

Lemma none_category_is_a_key_witness :
  receipt_of (VStr "2024-02-01") (VFloat (lit 3.0)) VNone !! "category" = Some VNone
  /\ aggregate_by_category
       (example_collection
        ++ [("d", receipt_of (VStr "2024-02-01") (VFloat (lit 3.0)) VNone)])%list
     = (let* totals := aggregate_by_category example_collection in
        bucket_add totals VNone (VFloat (lit 3.0))).
Proof.
  split; [reflexivity|].
  exact (proj1 (none_category_is_a_key example_collection "d"
    (receipt_of (VStr "2024-02-01") (VFloat (lit 3.0)) VNone)
    Logic.eq_refl Logic.eq_refl)).
Defined.

(** ** [sanitize_amount] and [process_directory] *)

Lemma sanitize_amount_cases amount :
  sanitize_amount amount = VNone \/ exists f, sanitize_amount amount = VFloat f.
Proof.
  unfold sanitize_amount.
  destruct amount; auto;
    match goal with
    | |- context [Float.of_string ?s] => destruct (Float.of_string s)
    end; eauto.
Qed.

Lemma collection_set_In (results : collection) name data key r :
  In (key, r) (collection_set results name data) ->
  (key, r) = (name, data) \/ In (key, r) results.
Proof.
  induction results as [|[k v] rest IH]; simpl.
  - intros [H | []]. left. symmetry. exact H.
  - destruct (String.eqb k name) eqn:Hk; simpl.
    + apply String.eqb_eq in Hk. subst k. intros [H | H]; auto.
    + intros [H | H]; auto. destruct (IH H); auto.
Qed.

Lemma process_directory_In list_files encode_file extract_receipt_info dirpath key r :
  In (key, r)
    (process_directory list_files encode_file extract_receipt_info dirpath) ->
  exists path,
    In (key, path) (list_files dirpath)
    /\ r = <["amount" :=
              sanitize_amount
                (dict_get (extract_receipt_info (encode_file path)) "amount")]>
            (extract_receipt_info (encode_file path)).
Proof.
  unfold process_directory.
  set (step := fun (results : collection) '(name, path) =>
    let image_b64 := encode_file path in
    let data := extract_receipt_info image_b64 in
    let data := <["amount" := sanitize_amount (dict_get data "amount")]> data in
    collection_set results name data).
  assert (Hgen : forall files (acc : collection),
    In (key, r) (fold_left step files acc) ->
    In (key, r) acc \/
    exists path, In (key, path) files
      /\ r = <["amount" :=
                sanitize_amount
                  (dict_get (extract_receipt_info (encode_file path)) "amount")]>
              (extract_receipt_info (encode_file path))).
  { induction files as [|[name path] rest IH]; intros acc H; simpl in *.
    - left. exact H.
    - destruct (IH _ H) as [Hin | (q & Hq & Hr)].
      + apply collection_set_In in Hin. destruct Hin as [Heq | Hin].
        * injection Heq as -> ->. right. exists path. auto.
        * left. exact Hin.
      + right. exists q. auto. }
  intros H. destruct (Hgen _ [] H) as [[] | Hex]. exact Hex.
Qed.

(** C9: [sanitize_amount] returns [None] or a float, for every amount that
    [str] writes out, whatever the depth of nesting the interpreter allows;
    so when the amounts of the replies are of this kind, every record of the
    collection [process_directory] builds has an amount field that is [None]
    or a float, and the amount test of the two aggregation loops lets a
    record through exactly when normalisation gave a float. *)
Theorem sanitize_amount_none_or_float :
  (forall limit amount,
     str_defined limit amount = true ->
     sanitize_amount amount = VNone \/ exists f, sanitize_amount amount = VFloat f)
  /\ (forall limit list_files encode_file extract_receipt_info dirpath name r,
        (forall image_b64,
           str_defined limit
             (dict_get (extract_receipt_info image_b64) "amount") = true) ->
        In (name, r)
          (process_directory list_files encode_file extract_receipt_info dirpath) ->
        (r !! "amount" = Some VNone
         /\ skips_amount (dict_get r "amount") = true)
        \/ (exists f, r !! "amount" = Some (VFloat f)
                      /\ skips_amount (dict_get r "amount") = false))
  /\ (forall limit amount,
        str_defined limit amount = true ->
        (skips_amount (sanitize_amount amount) = false
         <-> exists f, sanitize_amount amount = VFloat f)).
Proof.
  split; [intros limit amount _; apply sanitize_amount_cases | split].
  - intros limit list_files encode_file extract_receipt_info dirpath name r _ Hin.
    apply process_directory_In in Hin. destruct Hin as (path & _ & ->).
    set (data := extract_receipt_info (encode_file path)).
    destruct (sanitize_amount_cases (dict_get data "amount")) as [H | [f H]];
      rewrite H; unfold dict_get; rewrite !lookup_insert_eq;
      [left | right; exists f]; split; reflexivity.
  - intros limit amount _.
    destruct (sanitize_amount_cases amount) as [H | [f H]]; rewrite H.
    + split; [discriminate | intros [f Hf]; discriminate].
    + split; [eauto | reflexivity].
Qed.

Lemma sanitize_amount_none_or_float_witness :
  str_defined 1 (VList [VStr "$5"; VInt 5]) = true
  /\ (sanitize_amount (VList [VStr "$5"; VInt 5]) = VNone
      \/ exists f, sanitize_amount (VList [VStr "$5"; VInt 5]) = VFloat f).
Proof.
  split; [vm_compute; reflexivity|].
  exact (proj1 sanitize_amount_none_or_float 1%nat (VList [VStr "$5"; VInt 5])
           Logic.eq_refl).
Defined.

(** C1, as the specification words it, fails: a [$] inside the text is
    removed too, so ["1$2"], which [float] rejects once a leading [$] and the
    surrounding white space are stripped, is normalised to 12.0 and not to
    [None]. *)
Lemma sanitize_amount_inner_dollar :
  Float.of_string (Text.strip (strip_leading_dollar (Text.strip "1$2"))) = None
  /\ sanitize_amount_as_specified (VStr "1$2") = VNone
  /\ sanitize_amount (VStr "1$2") = VFloat (lit 12.0)
  /\ sanitize_amount (VStr "1$2") <> VNone.
Proof.
  split; [vm_compute; reflexivity|]. split; [vm_compute; reflexivity|].
  split; [vm_compute; reflexivity|]. vm_compute. discriminate.
Qed.

Lemma remove_char_gone c s :
  Text.string_forall (fun a => negb (Ascii.eqb a c)) (Text.remove_char c s) = true.
Proof.
  induction s as [|a s IH]; simpl; [reflexivity|].
  destruct (Ascii.eqb a c) eqn:Ha; [exact IH|].
  simpl. rewrite Ha, IH. reflexivity.
Qed.

Lemma lstrip_decompose s :
  exists ws, all_space ws /\ s = ws ++ Text.lstrip s.
Proof.
  induction s as [|a s (ws & Hws & IH)]; [exists ""; split; reflexivity|].
  simpl. destruct (Text.is_space a) eqn:Ha.
  - exists (String a ws). split.
    + unfold all_space in *. simpl. rewrite Ha, Hws. reflexivity.
    + change (String a s = String a (ws ++ Text.lstrip s)). rewrite <- IH.
      reflexivity.
  - exists "". split; reflexivity.
Qed.

Lemma rstrip_decompose s :
  exists ws, all_space ws /\ s = Text.rstrip s ++ ws.
Proof.
  induction s as [|a s (ws & Hws & IH)]; [exists ""; split; reflexivity|].
  simpl. destruct (Text.rstrip s) as [|b r] eqn:Hr.
  - destruct (Text.is_space a) eqn:Ha.
    + exists (String a ws). split.
      * unfold all_space in *. simpl. rewrite Ha, Hws. reflexivity.
      * rewrite IH. reflexivity.
    + exists ws. split; [exact Hws|]. rewrite IH. reflexivity.
  - exists ws. split; [exact Hws|]. rewrite IH at 1. reflexivity.
Qed.

(** [strip] takes white space off both ends and nothing else. *)
Lemma strip_decompose s :
  exists ws1 ws2,
    all_space ws1 /\ all_space ws2 /\ s = ws1 ++ Text.strip s ++ ws2.
Proof.
  destruct (lstrip_decompose s) as (ws1 & H1 & Hl).
  destruct (rstrip_decompose (Text.lstrip s)) as (ws2 & H2 & Hr).
  exists ws1, ws2. split; [exact H1|]. split; [exact H2|].
  unfold Text.strip. rewrite <- Hr. exact Hl.
Qed.

(** C1, amended: the text handed to [float] is [str(amount)] with every
    [$] removed, wherever it stands, and the white space at both ends
    stripped, and nothing else changed; the result is [None] exactly when the
    amount is [None] or [float] rejects that text. *)
Theorem sanitize_amount_none_iff (amount : value) :
  (sanitize_amount amount = VNone
   <-> amount = VNone \/ Float.of_string (cleaned_text amount) = None)
  /\ (exists ws1 ws2,
        all_space ws1 /\ all_space ws2
        /\ Text.remove_char "$" (py_str amount)
           = ws1 ++ cleaned_text amount ++ ws2)
  /\ Text.string_forall (fun a => negb (Ascii.eqb a "$"))
       (Text.remove_char "$" (py_str amount)) = true.
Proof.
  split; [|split].
  - unfold sanitize_amount, cleaned_text. split.
    + destruct amount; auto; right;
        match goal with
        | H : context [Float.of_string ?s] |- _ =>
            destruct (Float.of_string s); [discriminate | reflexivity]
        end.
    + intros [-> | H]; [reflexivity|].
      destruct amount; try reflexivity; rewrite H; reflexivity.
  - apply strip_decompose.
  - apply remove_char_gone.
Qed.

Example sanitize_amount_not_available : sanitize_amount (VStr "N/A") = VNone.
Proof. vm_compute. reflexivity. Qed.

Example sanitize_amount_of_none : sanitize_amount VNone = VNone.
Proof. reflexivity. Qed.

(** ** Text *)

Ltac each_char c := destruct c as [[] [] [] [] [] [] [] []].

Lemma plain_lower c : plain (Text.lower c) = plain c.
Proof. each_char c; reflexivity. Qed.

Lemma plain_digit c d : Text.digit_of c = Some d -> plain c = true.
Proof. each_char c; vm_compute; intros H; first [reflexivity | discriminate H]. Qed.

Lemma plain_no_dollar c : plain c = true -> Ascii.eqb c "$" = false.
Proof. each_char c; vm_compute; intros H; first [reflexivity | discriminate H]. Qed.

Lemma plain_no_space c : plain c = true -> Text.is_space c = false.
Proof. each_char c; vm_compute; intros H; first [reflexivity | discriminate H]. Qed.

Lemma plain_no_blank c : plain c = true -> Float.is_blank c = false.
Proof. each_char c; vm_compute; intros H; first [reflexivity | discriminate H]. Qed.

Lemma space_no_dollar c : Text.is_space c = true -> Ascii.eqb c "$" = false.
Proof. each_char c; vm_compute; intros H; first [reflexivity | discriminate H]. Qed.

Lemma string_forall_app p s t :
  Text.string_forall p (s ++ t) = Text.string_forall p s && Text.string_forall p t.
Proof.
  induction s as [|a s IH]; simpl; [reflexivity|].
  rewrite IH. apply andb_assoc.
Qed.

Lemma string_forall_lower s :
  Text.string_forall plain (Text.lower_string s) = Text.string_forall plain s.
Proof.
  induction s as [|a s IH]; simpl; [reflexivity|].
  rewrite plain_lower, IH. reflexivity.
Qed.

Lemma remove_char_app c s t :
  Text.remove_char c (s ++ t) = Text.remove_char c s ++ Text.remove_char c t.
Proof.
  induction s as [|a s IH]; simpl; [reflexivity|].
  destruct (Ascii.eqb a c); simpl; rewrite IH; reflexivity.
Qed.

Lemma remove_char_absent c s :
  Text.string_forall (fun a => negb (Ascii.eqb a c)) s = true ->
  Text.remove_char c s = s.
Proof.
  induction s as [|a s IH]; simpl; [reflexivity|].
  intros H. apply andb_prop in H. destruct H as [Ha Hs].
  apply negb_true_iff in Ha. rewrite Ha, (IH Hs). reflexivity.
Qed.

Lemma remove_dollar_space ws : all_space ws -> Text.remove_char "$" ws = ws.
Proof.
  unfold all_space. induction ws as [|a s IH]; simpl; [reflexivity|].
  intros H. apply andb_prop in H. destruct H as [Ha Hs].
  rewrite (space_no_dollar a Ha), (IH Hs). reflexivity.
Qed.

Lemma remove_dollar_plain s :
  Text.string_forall plain s = true -> Text.remove_char "$" s = s.
Proof.
  induction s as [|a s IH]; simpl; [reflexivity|].
  intros H. apply andb_prop in H. destruct H as [Ha Hs].
  rewrite (plain_no_dollar a Ha), (IH Hs). reflexivity.
Qed.

Lemma lstrip_space_app ws s : all_space ws -> Text.lstrip (ws ++ s) = Text.lstrip s.
Proof.
  unfold all_space. induction ws as [|a ws IH]; simpl; [reflexivity|].
  intros H. apply andb_prop in H. destruct H as [Ha Hs].
  rewrite Ha. apply IH. exact Hs.
Qed.

Lemma rstrip_space ws : all_space ws -> Text.rstrip ws = "".
Proof.
  unfold all_space. induction ws as [|a ws IH]; simpl; [reflexivity|].
  intros H. apply andb_prop in H. destruct H as [Ha Hs].
  rewrite (IH Hs), Ha. reflexivity.
Qed.

Lemma rstrip_app_space s ws : all_space ws -> Text.rstrip (s ++ ws) = Text.rstrip s.
Proof.
  intros Hws. induction s as [|a s IH]; simpl.
  - apply rstrip_space. exact Hws.
  - rewrite IH. reflexivity.
Qed.

Lemma rstrip_plain s : Text.string_forall plain s = true -> Text.rstrip s = s.
Proof.
  induction s as [|a s IH]; simpl; [reflexivity|].
  intros H. apply andb_prop in H. destruct H as [Ha Hs].
  rewrite (IH Hs). destruct s; [|reflexivity].
  rewrite (plain_no_space a Ha). reflexivity.
Qed.

Lemma rskip_plain s : Text.string_forall plain s = true -> Float.rskip s = s.
Proof.
  induction s as [|a s IH]; simpl; [reflexivity|].
  intros H. apply andb_prop in H. destruct H as [Ha Hs].
  rewrite (IH Hs). destruct s; [|reflexivity].
  rewrite (plain_no_blank a Ha). reflexivity.
Qed.

Lemma lstrip_plain_head a s : plain a = true -> Text.lstrip (String a s) = String a s.
Proof. intros Ha. simpl. rewrite (plain_no_space a Ha). reflexivity. Qed.

Lemma lskip_plain_head a s : plain a = true -> Float.lskip (String a s) = String a s.
Proof. intros Ha. simpl. rewrite (plain_no_blank a Ha). reflexivity. Qed.

(** ** The float reader accepts plain text only *)

Lemma take_digits_plain n :
  forall s ds r,
    (String.length s <= n)%nat ->
    Float.take_digits s = (ds, r) ->
    exists pre, s = pre ++ r /\ Text.string_forall plain pre = true.
Proof.
  induction n as [|n IH]; intros s ds r Hlen H.
  - destruct s; [|simpl in Hlen; lia].
    injection H as <- <-. exists "". auto.
  - destruct s as [|c t]; [injection H as <- <-; exists ""; auto|].
    cbn [Float.take_digits] in H. simpl in Hlen.
    destruct (Text.digit_of c) as [d|] eqn:Hd;
      [|injection H as <- <-; exists ""; auto].
    pose proof (plain_digit c d Hd) as Hc.
    destruct t as [|c1 u];
      [injection H as <- <-; exists (String c ""); simpl; rewrite Hc; auto|].
    destruct (Ascii.eqb c1 "_") eqn:Hu.
    + apply Ascii.eqb_eq in Hu. subst c1.
      destruct u as [|c2 u'];
        [injection H as <- <-; exists (String c ""); simpl; rewrite Hc; auto|].
      destruct (Text.is_digit c2);
        [|injection H as <- <-; exists (String c ""); simpl; rewrite Hc; auto].
      destruct (Float.take_digits (String c2 u')) as [ds' r'] eqn:Hrec.
      injection H as <- <-.
      destruct (IH (String c2 u') ds' r') as (pre & Hpre & Hplain);
        [simpl in *; lia | exact Hrec |].
      exists (String c (String "_" pre)). simpl. rewrite Hpre, Hc, Hplain. auto.
    + destruct (Float.take_digits (String c1 u)) as [ds' r'] eqn:Hrec.
      injection H as <- <-.
      destruct (IH (String c1 u) ds' r') as (pre & Hpre & Hplain);
        [simpl in *; lia | exact Hrec |].
      exists (String c pre). simpl. rewrite Hpre, Hc, Hplain. auto.
Qed.

Lemma take_digits_rest_plain s ds r :
  Float.take_digits s = (ds, r) ->
  Text.string_forall plain r = true ->
  Text.string_forall plain s = true.
Proof.
  intros H Hr.
  destruct (take_digits_plain (String.length s) s ds r (Nat.le_refl _) H)
    as (pre & -> & Hpre).
  rewrite string_forall_app, Hpre, Hr. reflexivity.
Qed.

Lemma take_sign_plain s neg body :
  Float.take_sign s = (neg, body) ->
  Text.string_forall plain body = true ->
  Text.string_forall plain s = true.
Proof.
  unfold Float.take_sign. destruct s as [|c t]; [intros [= <- <-]; auto|].
  destruct (Ascii.eqb c "-") eqn:Hm.
  - apply Ascii.eqb_eq in Hm. subst c. intros [= <- <-] H. simpl. exact H.
  - destruct (Ascii.eqb c "+") eqn:Hp.
    + apply Ascii.eqb_eq in Hp. subst c. intros [= <- <-] H. simpl. exact H.
    + intros [= <- <-] H. exact H.
Qed.

Lemma parse_exponent_plain s e :
  Float.parse_exponent s = Some e -> Text.string_forall plain s = true.
Proof.
  unfold Float.parse_exponent. destruct s as [|c t]; [reflexivity|].
  destruct (Ascii.eqb (Text.lower c) "e") eqn:He; [|discriminate].
  apply Ascii.eqb_eq in He.
  destruct (Float.take_sign t) as [neg u] eqn:Hsign.
  destruct (Float.take_digits u) as [ds r] eqn:Hdig.
  destruct ds as [|d ds]; [discriminate|].
  destruct r; [|discriminate].
  intros _. simpl. rewrite <- plain_lower, He. simpl.
  apply (take_sign_plain t neg u Hsign).
  apply (take_digits_rest_plain u (d :: ds) "" Hdig). reflexivity.
Qed.

Lemma parse_number_plain s x :
  Float.parse_number s = Some x -> Text.string_forall plain s = true.
Proof.
  unfold Float.parse_number.
  destruct (Float.take_digits s) as [ip r1] eqn:Hip.
  destruct r1 as [|c t].
  - intros _. apply (take_digits_rest_plain s ip "" Hip). reflexivity.
  - destruct (Ascii.eqb c ".") eqn:Hdot.
    + apply Ascii.eqb_eq in Hdot. subst c.
      destruct (Float.take_digits t) as [fp r2] eqn:Hfp.
      destruct (ip ++ fp)%list; [discriminate|].
      destruct (Float.parse_exponent r2) as [e|] eqn:He; [|discriminate].
      intros _. apply (take_digits_rest_plain s ip _ Hip). simpl.
      apply (take_digits_rest_plain t fp r2 Hfp).
      apply (parse_exponent_plain r2 e He).
    + destruct (ip ++ [])%list; [discriminate|].
      destruct (Float.parse_exponent (String c t)) as [e|] eqn:He; [|discriminate].
      intros _. apply (take_digits_rest_plain s ip _ Hip).
      apply (parse_exponent_plain _ e He).
Qed.

Lemma parse_literal_plain s v :
  Float.parse_literal s = Some v -> Text.string_forall plain s = true.
Proof.
  unfold Float.parse_literal.
  destruct (Float.take_sign s) as [neg body] eqn:Hsign.
  intros H. apply (take_sign_plain s neg body Hsign).
  destruct (String.eqb (Text.lower_string body) "inf"
            || String.eqb (Text.lower_string body) "infinity") eqn:Hinf.
  - rewrite <- string_forall_lower.
    apply orb_prop in Hinf. destruct Hinf as [Hi | Hi];
      apply String.eqb_eq in Hi; rewrite Hi; reflexivity.
  - destruct (String.eqb (Text.lower_string body) "nan") eqn:Hnan.
    + rewrite <- string_forall_lower.
      apply String.eqb_eq in Hnan. rewrite Hnan. reflexivity.
    + destruct (Float.parse_number body) as [[ds e10]|] eqn:Hnum; [|discriminate].
      apply (parse_number_plain body _ Hnum).
Qed.

Lemma parse_literal_nonempty v : Float.parse_literal "" <> Some v.
Proof. discriminate. Qed.

(** [float] reads a literal as it stands. *)
Lemma of_string_literal s v :
  Float.parse_literal s = Some v -> Float.of_string s = Some v.
Proof.
  intros H. pose proof (parse_literal_plain s v H) as Hplain.
  unfold Float.of_string. destruct s as [|a t]; [exact H|].
  simpl in Hplain. apply andb_prop in Hplain. destruct Hplain as [Ha Ht].
  rewrite (lskip_plain_head a t Ha), rskip_plain; [exact H|].
  simpl. rewrite Ha, Ht. reflexivity.
Qed.

(** C5: a float literal with white space around it and a [$] before it
    (white space may also separate the two) is normalised to the float the
    literal denotes. *)
Theorem sanitize_amount_numeric_text
    (text ws1 ws2 ws3 : string) (dollar : bool) (v : spec_float) :
  all_space ws1 -> all_space ws2 -> all_space ws3 ->
  Float.parse_literal text = Some v ->
  sanitize_amount
    (VStr (ws1 ++ (if dollar then "$" else "") ++ ws2 ++ text ++ ws3))
  = VFloat v.
Proof.
  intros H1 H2 H3 Hv. pose proof (parse_literal_plain text v Hv) as Hplain.
  unfold sanitize_amount, py_str.
  assert (Hclean :
    Text.strip (Text.remove_char "$"
      (ws1 ++ (if dollar then "$" else "") ++ ws2 ++ text ++ ws3)) = text).
  { rewrite !remove_char_app.
    rewrite (remove_dollar_space ws1 H1), (remove_dollar_space ws2 H2),
      (remove_dollar_space ws3 H3), (remove_dollar_plain text Hplain).
    assert (Hd : Text.remove_char "$" (if dollar then "$" else "") = "")
      by (destruct dollar; reflexivity).
    rewrite Hd. change ("" ++ ws2 ++ text ++ ws3) with (ws2 ++ text ++ ws3).
    unfold Text.strip.
    rewrite (lstrip_space_app ws1 _ H1), (lstrip_space_app ws2 _ H2).
    destruct text as [|a t]; [discriminate Hv|].
    simpl in Hplain. apply andb_prop in Hplain. destruct Hplain as [Ha Ht].
    change (String a t ++ ws3) with (String a (t ++ ws3)).
    rewrite (lstrip_plain_head a _ Ha).
    change (String a (t ++ ws3)) with (String a t ++ ws3).
    rewrite (rstrip_app_space _ ws3 H3). apply rstrip_plain.
    simpl. rewrite Ha, Ht. reflexivity. }
  rewrite Hclean, (of_string_literal text v Hv). reflexivity.
Qed.

Lemma sanitize_amount_numeric_text_witness :
  all_space " " /\ all_space ""
  /\ Float.parse_literal "43.83" = Some (lit 43.83)
  /\ sanitize_amount (VStr " $43.83 ") = VFloat (lit 43.83).
Proof.
  split; [reflexivity|]. split; [reflexivity|]. split; [vm_compute; reflexivity|].
  apply (sanitize_amount_numeric_text "43.83" " " "" " " true (lit 43.83));
    vm_compute; reflexivity.
Defined.

Example sanitize_amount_plain_text :
  sanitize_amount (VStr "70.74") = VFloat (lit 70.74).
Proof. vm_compute. reflexivity. Qed.

(** ** Powers and ratios *)

Lemma pow_up_pos b z : 0 < b -> 0 < Float.pow_up b z.
Proof. intros Hb. unfold Float.pow_up. apply Z.pow_pos_nonneg; lia. Qed.

Lemma pow_down_pos b z : 0 < b -> 0 < Float.pow_down b z.
Proof. intros Hb. unfold Float.pow_down. apply Z.pow_pos_nonneg; lia. Qed.

(** [b ^ (x + y) = b ^ x * b ^ y], numerators against denominators. *)
Lemma pow_split b x y :
  0 < b ->
  Float.pow_up b (x + y) * (Float.pow_down b x * Float.pow_down b y)
  = Float.pow_down b (x + y) * (Float.pow_up b x * Float.pow_up b y).
Proof.
  intros Hb. unfold Float.pow_up, Float.pow_down.
  rewrite <- !Z.pow_add_r by lia. f_equal. lia.
Qed.

(** [b ^ x <= b ^ y] when [x <= y]. *)
Lemma pow_mono b x y :
  0 < b -> x <= y ->
  Float.pow_up b x * Float.pow_down b y <= Float.pow_up b y * Float.pow_down b x.
Proof.
  intros Hb Hxy. unfold Float.pow_up, Float.pow_down.
  rewrite <- !Z.pow_add_r by lia. apply Z.pow_le_mono_r; lia.
Qed.

Lemma pow_up_const b z : 0 <= z -> Float.pow_up b z = b ^ z.
Proof. intros Hz. unfold Float.pow_up. f_equal. lia. Qed.

Lemma pow_down_const b z : 0 <= z -> Float.pow_down b z = 1.
Proof.
  intros Hz. unfold Float.pow_down. replace (Z.max (- z) 0) with 0 by lia.
  reflexivity.
Qed.

Lemma pow_le_true b k n d :
  Float.pow_le b k n d = true <-> d * Float.pow_up b k <= n * Float.pow_down b k.
Proof. unfold Float.pow_le. apply Z.leb_le. Qed.

Lemma pow_le_false b k n d :
  Float.pow_le b k n d = false <-> n * Float.pow_down b k < d * Float.pow_up b k.
Proof. unfold Float.pow_le. apply Z.leb_gt. Qed.

(** Cancelling a positive factor. *)
Lemma mul_le_cancel c x y : 0 < c -> x * c <= y * c -> x <= y.
Proof. intros Hc H. nia. Qed.

Lemma mul_lt_cancel c x y : 0 < c -> x * c < y * c -> x < y.
Proof. intros Hc H. nia. Qed.

Lemma pow_le_mono b k k' n d :
  0 < b -> 0 < n -> 0 < d -> k' <= k ->
  Float.pow_le b k n d = true -> Float.pow_le b k' n d = true.
Proof.
  intros Hb Hn Hd Hk H. apply pow_le_true in H. apply pow_le_true.
  pose proof (pow_mono b k' k Hb Hk) as Hm.
  pose proof (pow_down_pos b k Hb) as H1.
  pose proof (pow_up_pos b k Hb) as H2.
  pose proof (pow_down_pos b k' Hb) as H3.
  pose proof (pow_up_pos b k' Hb) as H4.
  apply (mul_le_cancel (Float.pow_down b k)); [exact H1|].
  apply Z.le_trans with (d * (Float.pow_up b k * Float.pow_down b k')).
  - replace (d * Float.pow_up b k' * Float.pow_down b k)
      with (d * (Float.pow_up b k' * Float.pow_down b k)) by ring.
    apply Z.mul_le_mono_nonneg_l; lia.
  - replace (d * (Float.pow_up b k * Float.pow_down b k'))
      with (d * Float.pow_up b k * Float.pow_down b k') by ring.
    replace (n * Float.pow_down b k' * Float.pow_down b k)
      with (n * Float.pow_down b k * Float.pow_down b k') by ring.
    apply Z.mul_le_mono_nonneg_r; lia.
Qed.

(** [2 ^ Z.log2 n <= n < 2 ^ (Z.log2 n + 1)] gives the logarithm of a ratio
    up to one. *)
Lemma ratio_log2_spec n d :
  0 < n -> 0 < d ->
  Float.pow_le 2 (Float.ratio_log2 n d) n d = true
  /\ Float.pow_le 2 (Float.ratio_log2 n d + 1) n d = false.
Proof.
  intros Hn Hd. unfold Float.ratio_log2.
  set (a := Z.log2 n). set (b := Z.log2 d).
  destruct (Z.log2_spec n Hn) as [Ha1 Ha2]. fold a in Ha1, Ha2.
  destruct (Z.log2_spec d Hd) as [Hb1 Hb2]. fold b in Hb1, Hb2.
  assert (Ha0 : 0 <= a) by apply Z.log2_nonneg.
  assert (Hb0 : 0 <= b) by apply Z.log2_nonneg.
  destruct (Float.pow_le 2 (a - b) n d) eqn:Htest.
  - split; [exact Htest|]. apply pow_le_false.
    unfold Float.pow_up, Float.pow_down.
    apply Z.lt_le_trans with (2 ^ Z.succ a * 2 ^ Z.max (- (a - b + 1)) 0).
    + apply Z.mul_lt_mono_pos_r; [apply Z.pow_pos_nonneg; lia | exact Ha2].
    + apply Z.le_trans with (2 ^ b * 2 ^ Z.max (a - b + 1) 0).
      * rewrite <- !Z.pow_add_r by lia. apply Z.pow_le_mono_r; lia.
      * apply Z.mul_le_mono_nonneg_r; [apply Z.pow_nonneg; lia | exact Hb1].
  - split.
    + apply pow_le_true. unfold Float.pow_up, Float.pow_down.
      apply Z.le_trans with (2 ^ Z.succ b * 2 ^ Z.max (a - b - 1) 0).
      * apply Z.mul_le_mono_nonneg_r; [apply Z.pow_nonneg; lia | lia].
      * apply Z.le_trans with (2 ^ a * 2 ^ Z.max (- (a - b - 1)) 0).
        -- rewrite <- !Z.pow_add_r by lia. apply Z.pow_le_mono_r; lia.
        -- apply Z.mul_le_mono_nonneg_r; [apply Z.pow_nonneg; lia | exact Ha1].
    + replace (a - b - 1 + 1) with (a - b) by ring. exact Htest.
Qed.

Lemma ratio_log2_unique n d L :
  0 < n -> 0 < d ->
  Float.pow_le 2 L n d = true ->
  Float.pow_le 2 (L + 1) n d = false ->
  Float.ratio_log2 n d = L.
Proof.
  intros Hn Hd H1 H2.
  destruct (ratio_log2_spec n d Hn Hd) as [H3 H4].
  destruct (Z.lt_trichotomy (Float.ratio_log2 n d) L) as [Hlt | [Heq | Hgt]].
  - rewrite (pow_le_mono 2 L (Float.ratio_log2 n d + 1) n d) in H4;
      [discriminate | lia | exact Hn | exact Hd | lia | exact H1].
  - exact Heq.
  - rewrite (pow_le_mono 2 (Float.ratio_log2 n d) (L + 1) n d) in H2;
      [discriminate | lia | exact Hn | exact Hd | lia | exact H3].
Qed.

(** ** Rounding a ratio *)

(** A ratio that lies strictly within half a unit of [m1] units in the last
    place is rounded to [m1] units. *)
Lemma round_ratio_near neg n d m1 :
  0 < n -> 0 < d ->
  1 <= m1 <= 2 ^ 53 ->
  (2 * m1 - 1)
    * (d * Float.pow_up 2 (Z.max (Float.ratio_log2 n d - 52) Float.emin))
  < 2 * (n * Float.pow_down 2 (Z.max (Float.ratio_log2 n d - 52) Float.emin))
  < (2 * m1 + 1)
    * (d * Float.pow_up 2 (Z.max (Float.ratio_log2 n d - 52) Float.emin)) ->
  Float.round_ratio neg n d
  = let '(m, e) :=
      if m1 =? 2 ^ 53
      then (2 ^ 52, Z.max (Float.ratio_log2 n d - 52) Float.emin + 1)
      else (m1, Z.max (Float.ratio_log2 n d - 52) Float.emin) in
    match m with
    | Zpos p =>
        if e <=? Float.emax - Float.prec
        then S754_finite neg p e else S754_infinity neg
    | _ => S754_zero neg
    end.
Proof.
  intros Hn Hd Hm Hnear. unfold Float.round_ratio.
  set (e1 := Z.max (Float.ratio_log2 n d - 52) Float.emin) in *.
  set (N := n * Float.pow_down 2 e1) in *.
  set (D := d * Float.pow_up 2 e1) in *.
  assert (HD : 0 < D).
  { unfold D. apply Z.mul_pos_pos; [exact Hd | apply pow_up_pos; lia]. }
  pose proof (Z.div_mod N D ltac:(lia)) as Hdiv.
  pose proof (Z.mod_pos_bound N D HD) as Hrem.
  set (q := N / D) in *. set (r := N mod D) in *.
  assert (Hq : q = m1 \/ q = m1 - 1) by nia.
  assert (Hround :
    (if (D <? 2 * r) || ((D =? 2 * r) && Z.odd q) then q + 1 else q) = m1).
  { destruct Hq as [Hq | Hq].
    - assert (H2r : 2 * r < D) by nia.
      replace (D <? 2 * r) with false by (symmetry; apply Z.ltb_ge; lia).
      replace (D =? 2 * r) with false by (symmetry; apply Z.eqb_neq; lia).
      exact Hq.
    - assert (H2r : D < 2 * r) by nia.
      replace (D <? 2 * r) with true by (symmetry; apply Z.ltb_lt; lia).
      simpl. lia. }
  rewrite Hround. reflexivity.
Qed.

Lemma pow_le_scale b k c n d :
  0 < c -> Float.pow_le b k (c * n) (c * d) = Float.pow_le b k n d.
Proof.
  intros Hc. unfold Float.pow_le.
  destruct (d * Float.pow_up b k <=? n * Float.pow_down b k) eqn:H.
  - apply Z.leb_le in H. apply Z.leb_le. nia.
  - apply Z.leb_gt in H. apply Z.leb_gt. nia.
Qed.

Lemma ratio_log2_scale c n d :
  0 < c -> 0 < n -> 0 < d ->
  Float.ratio_log2 (c * n) (c * d) = Float.ratio_log2 n d.
Proof.
  intros Hc Hn Hd. destruct (ratio_log2_spec n d Hn Hd) as [H1 H2].
  apply ratio_log2_unique;
    [nia | nia
    | rewrite pow_le_scale by exact Hc; exact H1
    | rewrite pow_le_scale by exact Hc; exact H2].
Qed.

(** Rounding depends on the value of the ratio only. *)
Lemma round_ratio_scale neg c n d :
  0 < c -> 0 < n -> 0 < d ->
  Float.round_ratio neg (c * n) (c * d) = Float.round_ratio neg n d.
Proof.
  intros Hc Hn Hd. unfold Float.round_ratio.
  rewrite (ratio_log2_scale c n d Hc Hn Hd).
  set (e := Z.max (Float.ratio_log2 n d - 52) Float.emin).
  set (N := n * Float.pow_down 2 e). set (D := d * Float.pow_up 2 e).
  assert (HD : 0 < D).
  { unfold D. apply Z.mul_pos_pos; [exact Hd | apply pow_up_pos; lia]. }
  replace (c * n * Float.pow_down 2 e) with (c * N) by (unfold N; ring).
  replace (c * d * Float.pow_up 2 e) with (c * D) by (unfold D; ring).
  rewrite Z.div_mul_cancel_l by lia.
  rewrite Z.mul_mod_distr_l by lia.
  replace (c * D <? 2 * (c * (N mod D))) with (D <? 2 * (N mod D)).
  2: { destruct (D <? 2 * (N mod D)) eqn:H; symmetry.
       - apply Z.ltb_lt in H. apply Z.ltb_lt. nia.
       - apply Z.ltb_ge in H. apply Z.ltb_ge. nia. }
  replace (c * D =? 2 * (c * (N mod D))) with (D =? 2 * (N mod D)).
  2: { destruct (D =? 2 * (N mod D)) eqn:H; symmetry.
       - apply Z.eqb_eq in H. apply Z.eqb_eq. nia.
       - apply Z.eqb_neq in H. apply Z.eqb_neq. nia. }
  reflexivity.
Qed.

Lemma round_ratio_equiv neg n1 d1 n2 d2 :
  0 < n1 -> 0 < d1 -> 0 < n2 -> 0 < d2 ->
  n1 * d2 = n2 * d1 ->
  Float.round_ratio neg n1 d1 = Float.round_ratio neg n2 d2.
Proof.
  intros H1 H2 H3 H4 Heq.
  rewrite <- (round_ratio_scale neg d2 n1 d1) by assumption.
  rewrite <- (round_ratio_scale neg d1 n2 d2) by assumption.
  f_equal; lia.
Qed.

(** Two decimal numbers of the same value are read as the same float. *)
Lemma of_decimal_equiv neg D1 t1 D2 t2 :
  0 < D1 -> 0 < D2 ->
  D1 * Float.pow_up 10 t1 * Float.pow_down 10 t2
  = D2 * Float.pow_up 10 t2 * Float.pow_down 10 t1 ->
  Float.of_decimal neg D1 t1 = Float.of_decimal neg D2 t2.
Proof.
  intros H1 H2 Heq. unfold Float.of_decimal.
  replace (D1 <=? 0) with false by (symmetry; apply Z.leb_gt; lia).
  replace (D2 <=? 0) with false by (symmetry; apply Z.leb_gt; lia).
  pose proof (pow_up_pos 10 t1 ltac:(lia)).
  pose proof (pow_up_pos 10 t2 ltac:(lia)).
  pose proof (pow_down_pos 10 t1 ltac:(lia)).
  pose proof (pow_down_pos 10 t2 ltac:(lia)).
  apply round_ratio_equiv; nia.
Qed.

(** The sign is carried through unchanged. *)
Lemma round_ratio_sign neg n d m e :
  Float.round_ratio false n d = S754_finite false m e ->
  Float.round_ratio neg n d = S754_finite neg m e.
Proof.
  unfold Float.round_ratio.
  destruct (if _ =? 2 ^ 53 then _ else _) as [m' e'].
  destruct m' as [|p|p]; try discriminate.
  destruct (e' <=? Float.emax - Float.prec); [|discriminate].
  intros [= -> ->]. reflexivity.
Qed.

Lemma of_decimal_sign neg D t m e :
  Float.of_decimal false D t = S754_finite false m e ->
  Float.of_decimal neg D t = S754_finite neg m e.
Proof.
  unfold Float.of_decimal. destruct (D <=? 0); [discriminate|].
  apply round_ratio_sign.
Qed.

(** [2 ^ (e + j) <= n / d] read on the ratio scaled by [2 ^ (- e)]. *)
Lemma pow_le_rel e j n d :
  0 < n -> 0 < d ->
  Float.pow_le 2 (e + j) n d
  = (d * Float.pow_up 2 e * Float.pow_up 2 j
     <=? n * Float.pow_down 2 e * Float.pow_down 2 j).
Proof.
  intros Hn Hd. unfold Float.pow_le.
  pose proof (pow_split 2 e j ltac:(lia)) as Hs.
  pose proof (pow_up_pos 2 e ltac:(lia)) as HE.
  pose proof (pow_up_pos 2 j ltac:(lia)) as HJ.
  pose proof (pow_up_pos 2 (e + j) ltac:(lia)) as HU.
  pose proof (pow_down_pos 2 e ltac:(lia)) as HF.
  pose proof (pow_down_pos 2 j ltac:(lia)) as HK.
  pose proof (pow_down_pos 2 (e + j) ltac:(lia)) as HV.
  set (U := Float.pow_up 2 (e + j)) in *. set (V := Float.pow_down 2 (e + j)) in *.
  set (E := Float.pow_up 2 e) in *. set (F := Float.pow_down 2 e) in *.
  set (J := Float.pow_up 2 j) in *. set (K := Float.pow_down 2 j) in *.
  assert (Hiff : d * U <= n * V <-> d * E * J <= n * F * K).
  { split; intros Hle.
    - apply (mul_le_cancel V); [lia|].
      replace (d * E * J * V) with (d * (V * (E * J))) by ring.
      rewrite <- Hs.
      replace (d * (U * (F * K))) with (d * U * (F * K)) by ring.
      replace (n * F * K * V) with (n * V * (F * K)) by ring.
      apply Z.mul_le_mono_nonneg_r; nia.
    - apply (mul_le_cancel (F * K)); [nia|].
      replace (d * U * (F * K)) with (d * (U * (F * K))) by ring.
      rewrite Hs.
      replace (d * (V * (E * J))) with (d * E * J * V) by ring.
      replace (n * V * (F * K)) with (n * F * K * V) by ring.
      apply Z.mul_le_mono_nonneg_r; nia. }
  destruct (d * U <=? n * V) eqn:H1; symmetry.
  - apply Z.leb_le. apply Hiff. apply Z.leb_le. exact H1.
  - apply Z.leb_gt. apply Z.leb_gt in H1.
    destruct (Z.le_gt_cases (d * E * J) (n * F * K)) as [Hc | Hc]; [|exact Hc].
    apply Hiff in Hc. lia.
Qed.

(** The exponent chosen for a ratio below [2 ^ (e + 53)]. *)
Lemma ratio_log2_below e n d :
  0 < n -> 0 < d ->
  Float.pow_le 2 (e + 53) n d = false ->
  Float.ratio_log2 n d - 52 <= e.
Proof.
  intros Hn Hd Hlt. destruct (ratio_log2_spec n d Hn Hd) as [H1 _].
  destruct (Z.le_gt_cases (Float.ratio_log2 n d - 52) e) as [H | H]; [exact H|].
  rewrite (pow_le_mono 2 (Float.ratio_log2 n d) (e + 53) n d) in Hlt;
    [discriminate | lia | exact Hn | exact Hd | lia | exact H1].
Qed.

(** ** Reading back a decimal number near a float *)

Lemma pow2_53 : 2 ^ 53 = 9007199254740992.
Proof. reflexivity. Qed.

Lemma pow2_52 : 2 ^ 52 = 4503599627370496.
Proof. reflexivity. Qed.

Lemma pow10_16 : 10 ^ 16 = 10000000000000000.
Proof. reflexivity. Qed.

(** A decimal number [c * 10 ^ t] within half of [10 ^ t] of the float
    [m * 2 ^ e], where [10 ^ (t + 16)] is at most the float, is read back as
    that float.  With [a / b] for [10 ^ t / 2 ^ e], the decimal number is
    [c * a / b] units in the last place. *)
Lemma read_back_near (m : positive) (e c t : Z) :
  canonical m e ->
  0 < c ->
  2 * Z.abs (c * (Float.pow_down 2 e * Float.pow_up 10 t)
             - Zpos m * (Float.pow_up 2 e * Float.pow_down 10 t))
  <= Float.pow_down 2 e * Float.pow_up 10 t ->
  Float.pow_down 2 e * Float.pow_up 10 t * 10 ^ 16
  <= Zpos m * (Float.pow_up 2 e * Float.pow_down 10 t) ->
  Float.of_decimal false c t = S754_finite false m e.
Proof.
  intros Hcan Hc Hnear Hbig. unfold Float.of_decimal.
  replace (c <=? 0) with false by (symmetry; apply Z.leb_gt; lia).
  pose proof (pow_up_pos 10 t ltac:(lia)) as HP.
  pose proof (pow_down_pos 10 t ltac:(lia)) as HQ.
  pose proof (pow_up_pos 2 e ltac:(lia)) as HE.
  pose proof (pow_down_pos 2 e ltac:(lia)) as HF.
  set (n := c * Float.pow_up 10 t). set (d := Float.pow_down 10 t).
  assert (Hn : 0 < n) by (unfold n; nia).
  assert (Hd : 0 < d) by exact HQ.
  set (a := Float.pow_down 2 e * Float.pow_up 10 t) in *.
  set (b := Float.pow_up 2 e * Float.pow_down 10 t) in *.
  remember (n * Float.pow_down 2 e) as N eqn:HNdef.
  remember (d * Float.pow_up 2 e) as D eqn:HDdef.
  assert (HN : N = c * a) by (subst N; unfold n, a; ring).
  assert (HD : D = b) by (subst D; unfold d, b; ring).
  assert (Ha : 0 < a) by (unfold a; nia).
  assert (Hb : 0 < b) by (unfold b; nia).
  rewrite pow10_16 in Hbig.
  assert (Hm : 1 <= Zpos m < 2 ^ 53).
  { destruct Hcan as [[H _] | [H _]]; rewrite ?pow2_52, ?pow2_53 in *; lia. }
  rewrite pow2_53 in Hm.
  assert (Hmb : Zpos m * b < 9007199254740992 * b) by nia.
  assert (Hab : a < b) by lia.
  assert (Hlow : (2 * Zpos m - 1) * D < 2 * N) by lia.
  assert (Hhigh : 2 * N < (2 * Zpos m + 1) * D) by lia.
  assert (HD0 : 0 < D) by lia.
  assert (HmD : Zpos m * D <= 9007199254740991 * D) by nia.
  assert (Hcase :
    (Z.max (Float.ratio_log2 n d - 52) Float.emin = e)
    \/ (Zpos m = 2 ^ 52 /\ -1074 < e <= 971 /\ N < 2 ^ 52 * D)).
  { destruct Hcan as [[Hm52 He] | [Hm52 He]].
    - rewrite pow2_52 in *.
      destruct (Z.le_gt_cases (4503599627370496 * D) N) as [Hge | Hlt].
      + left. assert (HL : Float.ratio_log2 n d = e + 52).
        { apply ratio_log2_unique; try assumption.
          - rewrite (pow_le_rel e 52 n d Hn Hd).
            rewrite (pow_up_const 2 52), (pow_down_const 2 52) by lia.
            apply Z.leb_le. rewrite <- HNdef, <- HDdef. lia.
          - replace (e + 52 + 1) with (e + 53) by ring.
            rewrite (pow_le_rel e 53 n d Hn Hd).
            rewrite (pow_up_const 2 53), (pow_down_const 2 53) by lia.
            apply Z.leb_gt. rewrite <- HNdef, <- HDdef. rewrite pow2_53. lia. }
        rewrite HL. unfold Float.emin. lia.
      + destruct (Z.eq_dec e (-1074)) as [Hemin | Hemin].
        * left. assert (Hbelow : Float.ratio_log2 n d - 52 <= e).
          { apply ratio_log2_below; try assumption.
            rewrite (pow_le_rel e 53 n d Hn Hd).
            rewrite (pow_up_const 2 53), (pow_down_const 2 53) by lia.
            apply Z.leb_gt. rewrite <- HNdef, <- HDdef. rewrite pow2_53. lia. }
          unfold Float.emin. lia.
        * right. assert (Z.pos m * D < 4503599627370497 * D \/
                         4503599627370497 * D <= Z.pos m * D) as [Hx | Hx] by lia.
          -- split; [|split]; nia.
          -- lia.
    - left. assert (Hbelow : Float.ratio_log2 n d - 52 <= e).
      { apply ratio_log2_below; try assumption.
        rewrite (pow_le_rel e 53 n d Hn Hd).
        rewrite (pow_up_const 2 53), (pow_down_const 2 53) by lia.
        apply Z.leb_gt. rewrite <- HNdef, <- HDdef. rewrite pow2_53. lia. }
      unfold Float.emin. lia. }
  destruct Hcase as [He1 | (Hm52 & He & Hlt)].
  - pose proof (round_ratio_near false n d (Zpos m) Hn Hd) as Hr.
    rewrite He1, <- HNdef, <- HDdef in Hr. rewrite Hr.
    + replace (Zpos m =? 2 ^ 53) with false
        by (symmetry; apply Z.eqb_neq; rewrite pow2_53; lia).
      replace (e <=? Float.emax - Float.prec) with true; [reflexivity|].
      symmetry. apply Z.leb_le. unfold Float.emax, Float.prec.
      destruct Hcan as [[_ He] | [_ He]]; lia.
    + rewrite pow2_53. lia.
    + split; assumption.
  - assert (HL : Float.ratio_log2 n d = e + 51).
    { apply ratio_log2_unique; try assumption.
      - rewrite (pow_le_rel e 51 n d Hn Hd).
        rewrite (pow_up_const 2 51), (pow_down_const 2 51) by lia.
        apply Z.leb_le. rewrite <- HNdef, <- HDdef.
        change (2 ^ 51) with 2251799813685248. rewrite pow2_52 in *. lia.
      - replace (e + 51 + 1) with (e + 52) by ring.
        rewrite (pow_le_rel e 52 n d Hn Hd).
        rewrite (pow_up_const 2 52), (pow_down_const 2 52) by lia.
        apply Z.leb_gt. rewrite <- HNdef, <- HDdef. lia. }
    assert (He1 : Z.max (Float.ratio_log2 n d - 52) Float.emin = e - 1).
    { rewrite HL. unfold Float.emin. lia. }
    pose proof (pow_split 2 (e - 1) 1 ltac:(lia)) as Hs.
    replace (e - 1 + 1) with e in Hs by ring.
    rewrite (pow_up_const 2 1), (pow_down_const 2 1) in Hs by lia.
    change (2 ^ 1) with 2 in Hs.
    pose proof (pow_up_pos 2 (e - 1) ltac:(lia)) as HE'.
    pose proof (pow_down_pos 2 (e - 1) ltac:(lia)) as HF'.
    pose proof (round_ratio_near false n d (2 ^ 53) Hn Hd) as Hr.
    rewrite He1 in Hr. rewrite Hr.
    + replace (e - 1 + 1) with e by ring.
      change (2 ^ 53 =? 2 ^ 53) with true. cbv iota beta.
      change (2 ^ 52) with (Zpos 4503599627370496).
      rewrite pow2_52 in Hm52. injection Hm52 as ->.
      replace (e <=? Float.emax - Float.prec) with true; [reflexivity|].
      symmetry. apply Z.leb_le. unfold Float.emax, Float.prec. lia.
    + rewrite pow2_53. lia.
    + assert (H4low : (2 * 2 ^ 53 - 1) * D < 4 * N).
      { rewrite pow2_53. rewrite pow2_52 in Hm52. lia. }
      assert (H4high : 4 * N < (2 * 2 ^ 53 + 1) * D).
      { rewrite pow2_53. rewrite pow2_52 in Hlt. lia. }
      set (E' := Float.pow_up 2 (e - 1)) in *.
      set (F' := Float.pow_down 2 (e - 1)) in *.
      set (E := Float.pow_up 2 e) in *. set (F := Float.pow_down 2 e) in *.
      assert (HN' : n * F' * E = 2 * N * E').
      { rewrite HNdef. replace (n * F' * E) with (n * (E * (F' * 1))) by ring.
        rewrite Hs. ring. }
      assert (HD' : d * E' * E = D * E') by (rewrite HDdef; ring).
      split; apply (mul_lt_cancel E); try exact HE.
      * replace ((2 * 2 ^ 53 - 1) * (d * E') * E)
          with ((2 * 2 ^ 53 - 1) * (d * E' * E)) by ring.
        replace (2 * (n * F') * E) with (2 * (n * F' * E)) by ring.
        rewrite HN', HD'.
        replace ((2 * 2 ^ 53 - 1) * (D * E')) with ((2 * 2 ^ 53 - 1) * D * E')
          by ring.
        replace (2 * (2 * N * E')) with (4 * N * E') by ring.
        apply Z.mul_lt_mono_pos_r; assumption.
      * replace ((2 * 2 ^ 53 + 1) * (d * E') * E)
          with ((2 * 2 ^ 53 + 1) * (d * E' * E)) by ring.
        replace (2 * (n * F') * E) with (2 * (n * F' * E)) by ring.
        rewrite HN', HD'.
        replace ((2 * 2 ^ 53 + 1) * (D * E')) with ((2 * 2 ^ 53 + 1) * D * E')
          by ring.
        replace (2 * (2 * N * E')) with (4 * N * E') by ring.
        apply Z.mul_lt_mono_pos_r; assumption.
Qed.

(** ** The decimal point of a float *)

Lemma estimate_below_all : forallb estimate_below binary_logarithms = true.
Proof. vm_compute. reflexivity. Qed.

Lemma estimate_below_range L : -1074 <= L <= 1023 -> estimate_below L = true.
Proof.
  intros HL. pose proof estimate_below_all as Hall.
  rewrite forallb_forall in Hall. apply Hall.
  unfold binary_logarithms. apply in_map_iff.
  exists (Z.to_nat (L + 1074)). split; [lia|].
  apply in_seq. lia.
Qed.

(** The value of a finite float as a ratio, and its binary logarithm. *)
Lemma finite_pow_le (m : positive) e j :
  Float.pow_le 2 (e + j) (Zpos m * Float.pow_up 2 e) (Float.pow_down 2 e)
  = (Float.pow_up 2 j <=? Zpos m * Float.pow_down 2 j).
Proof.
  pose proof (pow_up_pos 2 e ltac:(lia)) as HE.
  pose proof (pow_down_pos 2 e ltac:(lia)) as HF.
  pose proof (pow_up_pos 2 j ltac:(lia)) as HJ.
  pose proof (pow_down_pos 2 j ltac:(lia)) as HK.
  rewrite pow_le_rel by nia.
  set (E := Float.pow_up 2 e) in *. set (F := Float.pow_down 2 e) in *.
  set (J := Float.pow_up 2 j) in *. set (K := Float.pow_down 2 j) in *.
  assert (HEF : 0 < E * F) by nia.
  destruct (J <=? Zpos m * K) eqn:H.
  - apply Z.leb_le in H. apply Z.leb_le.
    replace (F * E * J) with (J * (E * F)) by ring.
    replace (Zpos m * E * F * K) with (Zpos m * K * (E * F)) by ring.
    apply Z.mul_le_mono_nonneg_r; lia.
  - apply Z.leb_gt in H. apply Z.leb_gt.
    replace (F * E * J) with (J * (E * F)) by ring.
    replace (Zpos m * E * F * K) with (Zpos m * K * (E * F)) by ring.
    apply Z.mul_lt_mono_pos_r; lia.
Qed.

Lemma finite_log2_range (m : positive) e :
  canonical m e ->
  -1074 <= Float.ratio_log2 (Zpos m * Float.pow_up 2 e) (Float.pow_down 2 e)
        <= 1023.
Proof.
  intros Hcan.
  pose proof (pow_up_pos 2 e ltac:(lia)) as HE.
  pose proof (pow_down_pos 2 e ltac:(lia)) as HF.
  set (n := Zpos m * Float.pow_up 2 e). set (d := Float.pow_down 2 e).
  assert (Hn : 0 < n) by (unfold n; nia).
  assert (Hd : 0 < d) by exact HF.
  destruct (ratio_log2_spec n d Hn Hd) as [H1 H2].
  assert (Hm : Zpos m < 2 ^ 53 /\ -1074 <= e <= 971).
  { destruct Hcan as [[H He] | [H He]]; rewrite ?pow2_52, ?pow2_53 in *; lia. }
  destruct Hm as [Hm He].
  assert (Hlow : Float.pow_le 2 e n d = true).
  { replace e with (e + 0) at 1 by ring. unfold n, d. rewrite finite_pow_le.
    apply Z.leb_le. rewrite (pow_up_const 2 0), (pow_down_const 2 0) by lia.
    change (2 ^ 0) with 1. lia. }
  assert (Hhigh : Float.pow_le 2 (e + 53) n d = false).
  { unfold n, d. rewrite finite_pow_le. apply Z.leb_gt.
    rewrite (pow_up_const 2 53), (pow_down_const 2 53) by lia. lia. }
  split.
  - destruct (Z.le_gt_cases e (Float.ratio_log2 n d)) as [H | H]; [lia|].
    rewrite (pow_le_mono 2 e (Float.ratio_log2 n d + 1) n d) in H2;
      [discriminate | lia | exact Hn | exact Hd | lia | exact Hlow].
  - destruct (Z.le_gt_cases (Float.ratio_log2 n d) (e + 52)) as [H | H]; [lia|].
    rewrite (pow_le_mono 2 (Float.ratio_log2 n d) (e + 53) n d) in Hhigh;
      [discriminate | lia | exact Hn | exact Hd | lia | exact H1].
Qed.

(** [10 ^ (k - 1) <= m * 2 ^ e] for the decimal point [k] of a finite
    float. *)
Lemma ratio_decpt_lower (m : positive) e :
  canonical m e ->
  Float.pow_le 10
    (Float.ratio_decpt (Zpos m * Float.pow_up 2 e) (Float.pow_down 2 e) - 1)
    (Zpos m * Float.pow_up 2 e) (Float.pow_down 2 e) = true.
Proof.
  intros Hcan. pose proof (finite_log2_range m e Hcan) as HL.
  pose proof (pow_up_pos 2 e ltac:(lia)) as HE.
  pose proof (pow_down_pos 2 e ltac:(lia)) as HF.
  set (n := Zpos m * Float.pow_up 2 e) in *. set (d := Float.pow_down 2 e) in *.
  assert (Hn : 0 < n) by (unfold n; nia).
  assert (Hd : 0 < d) by exact HF.
  unfold Float.ratio_decpt.
  set (L := Float.ratio_log2 n d) in *. set (est := Float.decpt_estimate L).
  destruct (Float.pow_le 10 (est + 1) n d) eqn:H1;
    [replace (est + 2 - 1) with (est + 1) by ring; exact H1|].
  destruct (Float.pow_le 10 est n d) eqn:H2;
    [replace (est + 1 - 1) with est by ring; exact H2|].
  pose proof (estimate_below_range L HL) as Hest.
  unfold estimate_below in Hest. fold est in Hest. apply Z.leb_le in Hest.
  destruct (ratio_log2_spec n d Hn Hd) as [Hlog _]. fold L in Hlog.
  apply pow_le_true in Hlog. apply pow_le_true.
  pose proof (pow_up_pos 10 (est - 1) ltac:(lia)) as HU.
  pose proof (pow_down_pos 10 (est - 1) ltac:(lia)) as HV.
  pose proof (pow_up_pos 2 L ltac:(lia)) as HJ.
  pose proof (pow_down_pos 2 L ltac:(lia)) as HK.
  set (U := Float.pow_up 10 (est - 1)) in *.
  set (V := Float.pow_down 10 (est - 1)) in *.
  set (J := Float.pow_up 2 L) in *. set (K := Float.pow_down 2 L) in *.
  apply (mul_le_cancel K); [exact HK|].
  apply Z.le_trans with (d * (J * V)).
  - replace (d * U * K) with (d * (U * K)) by ring.
    apply Z.mul_le_mono_nonneg_l; lia.
  - replace (d * (J * V)) with (d * J * V) by ring.
    replace (n * V * K) with (n * K * V) by ring.
    apply Z.mul_le_mono_nonneg_r; lia.
Qed.

(** ** The shortest digits read back *)

Lemma float_eqb_refl f : Float.eqb f f = true.
Proof.
  destruct f as [s|s| |s m e]; simpl.
  - apply eqb_reflx.
  - apply eqb_reflx.
  - reflexivity.
  - rewrite eqb_reflx, Pos.eqb_refl, Z.eqb_refl. reflexivity.
Qed.

Lemma float_eqb_eq f g : Float.eqb f g = true -> f = g.
Proof.
  destruct f as [s|s| |s m e], g as [s'|s'| |s' m' e']; simpl;
    try discriminate; try reflexivity.
  - intros H. apply eqb_prop in H. congruence.
  - intros H. apply eqb_prop in H. congruence.
  - intros H. apply andb_prop in H. destruct H as [H He].
    apply andb_prop in H. destruct H as [Hs Hm].
    apply eqb_prop in Hs. apply Pos.eqb_eq in Hm. apply Z.eqb_eq in He.
    congruence.
Qed.

(** The first candidate is within half a unit of the ratio and not below
    its whole part. *)
Lemma candidates_head n d k p :
  0 < n -> 0 < d ->
  exists c rest,
    Float.candidates n d k p = (c, k - p) :: rest
    /\ 2 * Z.abs (c * (d * Float.pow_up 10 (k - p))
                  - n * Float.pow_down 10 (k - p))
       <= d * Float.pow_up 10 (k - p)
    /\ n * Float.pow_down 10 (k - p) / (d * Float.pow_up 10 (k - p)) <= c.
Proof.
  intros Hn Hd. unfold Float.candidates.
  pose proof (pow_up_pos 10 (k - p) ltac:(lia)) as HP.
  pose proof (pow_down_pos 10 (k - p) ltac:(lia)) as HQ.
  set (N := n * Float.pow_down 10 (k - p)).
  set (D := d * Float.pow_up 10 (k - p)).
  assert (HD : 0 < D) by (unfold D; nia).
  pose proof (Z.div_mod N D ltac:(lia)) as Hdiv.
  pose proof (Z.mod_pos_bound N D HD) as Hrem.
  set (lo := N / D) in *. set (r := N mod D) in *.
  destruct (r =? 0) eqn:Hr0.
  - apply Z.eqb_eq in Hr0. exists lo, []. split; [reflexivity|]. split; nia.
  - apply Z.eqb_neq in Hr0.
    destruct ((D <? 2 * r) || ((D =? 2 * r) && Z.odd lo)) eqn:Hup.
    + exists (lo + 1), [(lo, k - p)]. split; [reflexivity|].
      assert (H2r : D <= 2 * r).
      { apply orb_prop in Hup. destruct Hup as [H | H].
        - apply Z.ltb_lt in H. lia.
        - apply andb_prop in H. destruct H as [H _]. apply Z.eqb_eq in H. lia. }
      split; nia.
    + exists lo, [(lo + 1, k - p)]. split; [reflexivity|].
      apply orb_false_elim in Hup. destruct Hup as [H _].
      apply Z.ltb_ge in H. split; nia.
Qed.

(** Seventeen digits are enough: the nearest number of 17 digits is read
    back as the float. *)
Lemma read_back_17 (m : positive) e :
  canonical m e ->
  Float.reads_back (S754_finite false m e)
    (hd (0, 0)
       (Float.candidates (Zpos m * Float.pow_up 2 e) (Float.pow_down 2 e)
          (Float.ratio_decpt (Zpos m * Float.pow_up 2 e) (Float.pow_down 2 e))
          17))
  = true.
Proof.
  intros Hcan.
  pose proof (ratio_decpt_lower m e Hcan) as Hlow.
  pose proof (pow_up_pos 2 e ltac:(lia)) as HE.
  pose proof (pow_down_pos 2 e ltac:(lia)) as HF.
  set (n := Zpos m * Float.pow_up 2 e) in *. set (d := Float.pow_down 2 e) in *.
  set (k := Float.ratio_decpt n d) in *.
  assert (Hn : 0 < n) by (unfold n; nia).
  assert (Hd : 0 < d) by exact HF.
  destruct (candidates_head n d k 17 Hn Hd) as (c & rest & Hc & Hnear & Hfloor).
  rewrite Hc. simpl hd. unfold Float.reads_back. simpl fst. simpl snd.
  set (t := k - 17) in *.
  pose proof (pow_up_pos 10 t ltac:(lia)) as HP.
  pose proof (pow_down_pos 10 t ltac:(lia)) as HQ.
  (* 10 ^ (t + 16) <= m * 2 ^ e *)
  apply pow_le_true in Hlow. replace (k - 1) with (t + 16) in Hlow by (unfold t; ring).
  pose proof (pow_split 10 t 16 ltac:(lia)) as Hs.
  rewrite (pow_up_const 10 16), (pow_down_const 10 16) in Hs by lia.
  pose proof (pow_up_pos 10 (t + 16) ltac:(lia)) as HU.
  pose proof (pow_down_pos 10 (t + 16) ltac:(lia)) as HV.
  assert (Hbig : d * Float.pow_up 10 t * 10 ^ 16 <= n * Float.pow_down 10 t).
  { set (U := Float.pow_up 10 (t + 16)) in *.
    set (V := Float.pow_down 10 (t + 16)) in *.
    set (P := Float.pow_up 10 t) in *. set (Q := Float.pow_down 10 t) in *.
    apply (mul_le_cancel V); [exact HV|].
    replace (d * P * 10 ^ 16 * V) with (d * (V * (P * 10 ^ 16))) by ring.
    rewrite <- Hs.
    replace (d * (U * (Q * 1))) with (d * U * Q) by ring.
    replace (n * Q * V) with (n * V * Q) by ring.
    apply Z.mul_le_mono_nonneg_r; lia. }
  assert (Hc0 : 0 < c).
  { assert (10 ^ 16 <= n * Float.pow_down 10 t / (d * Float.pow_up 10 t)).
    { apply Z.div_le_lower_bound; [nia|]. lia. }
    rewrite pow10_16 in *. lia. }
  rewrite (read_back_near m e c t Hcan Hc0).
  - apply float_eqb_refl.
  - replace (Float.pow_down 2 e * Float.pow_up 10 t)
      with (d * Float.pow_up 10 t) by reflexivity.
    replace (Zpos m * (Float.pow_up 2 e * Float.pow_down 10 t))
      with (n * Float.pow_down 10 t) by (unfold n; ring).
    exact Hnear.
  - replace (Float.pow_down 2 e * Float.pow_up 10 t)
      with (d * Float.pow_up 10 t) by reflexivity.
    replace (Zpos m * (Float.pow_up 2 e * Float.pow_down 10 t))
      with (n * Float.pow_down 10 t) by (unfold n; ring).
    exact Hbig.
Qed.

Lemma shortest_from_reads_back fuel :
  forall p f n d k,
    Float.reads_back f (hd (0, 0) (Float.candidates n d k 17)) = true ->
    Float.reads_back f (Float.shortest_from fuel p f n d k) = true.
Proof.
  induction fuel as [|fuel IH]; intros p f n d k H17; simpl; [exact H17|].
  destruct (find (Float.reads_back f) (Float.candidates n d k p)) as [c|] eqn:Hfind.
  - apply find_some in Hfind. apply Hfind.
  - apply IH. exact H17.
Qed.

(** ** Decimal digits *)

Lemma fold_digits init ds :
  fold_left (fun acc d => 10 * acc + d) ds init
  = init * 10 ^ Z.of_nat (List.length ds) + Text.digits_value ds.
Proof.
  revert init. unfold Text.digits_value.
  induction ds as [|a ds IH]; intros init.
  - simpl. lia.
  - cbn [fold_left List.length]. rewrite (IH (10 * init + a)), (IH (10 * 0 + a)).
    rewrite Nat2Z.inj_succ, Z.pow_succ_r by lia. ring.
Qed.

Lemma digits_value_cons a ds :
  Text.digits_value (a :: ds)
  = a * 10 ^ Z.of_nat (List.length ds) + Text.digits_value ds.
Proof.
  unfold Text.digits_value at 1. cbn [fold_left]. rewrite fold_digits. ring.
Qed.

Lemma digits_value_app a b :
  Text.digits_value (a ++ b)%list
  = Text.digits_value a * 10 ^ Z.of_nat (List.length b) + Text.digits_value b.
Proof.
  unfold Text.digits_value at 1. rewrite fold_left_app.
  fold (Text.digits_value a). apply fold_digits.
Qed.

Lemma digits_value_nonneg ds : Forall is_decimal ds -> 0 <= Text.digits_value ds.
Proof.
  induction 1 as [|a ds Ha _ IH]; [reflexivity|].
  rewrite digits_value_cons. unfold is_decimal in Ha.
  assert (0 <= 10 ^ Z.of_nat (List.length ds)) by (apply Z.pow_nonneg; lia).
  nia.
Qed.

Lemma decimal_cases d :
  is_decimal d ->
  d = 0 \/ d = 1 \/ d = 2 \/ d = 3 \/ d = 4 \/ d = 5 \/ d = 6 \/ d = 7
  \/ d = 8 \/ d = 9.
Proof. unfold is_decimal. lia. Qed.

Ltac each_decimal H :=
  apply decimal_cases in H;
  repeat (destruct H as [H | H]); subst.

Lemma digit_of_char d : is_decimal d -> Text.digit_of (Float.digit_char d) = Some d.
Proof. intros H. each_decimal H; reflexivity. Qed.

Lemma is_digit_char d : is_decimal d -> Text.is_digit (Float.digit_char d) = true.
Proof. intros H. each_decimal H; reflexivity. Qed.

Lemma digit_char_not_underscore d :
  is_decimal d -> Ascii.eqb (Float.digit_char d) "_" = false.
Proof. intros H. each_decimal H; reflexivity. Qed.

Lemma digit_of_none c : Text.is_digit c = false -> Text.digit_of c = None.
Proof. unfold Text.digit_of. intros ->. reflexivity. Qed.

Lemma digit_string_app a b :
  Float.digit_string (a ++ b)%list = Float.digit_string a ++ Float.digit_string b.
Proof. induction a as [|x a IH]; simpl; [reflexivity | rewrite IH; reflexivity]. Qed.

Lemma string_app_nil s : s ++ "" = s.
Proof.
  induction s as [|a s IH]; [reflexivity|].
  change (String a (s ++ "") = String a s). rewrite IH. reflexivity.
Qed.

Lemma string_app_assoc (s t u : string) : (s ++ t) ++ u = s ++ (t ++ u).
Proof.
  induction s as [|a s IH]; [reflexivity|].
  change (String a ((s ++ t) ++ u) = String a (s ++ (t ++ u))).
  rewrite IH. reflexivity.
Qed.

Lemma zeros_digit_string k : Float.zeros k = Float.digit_string (repeat 0 k).
Proof. induction k as [|k IH]; simpl; [reflexivity | rewrite IH; reflexivity]. Qed.

Lemma repeat_zero_decimal k : Forall is_decimal (repeat 0 k).
Proof. induction k; simpl; constructor; [unfold is_decimal; lia | assumption]. Qed.

Lemma digits_value_zeros k : Text.digits_value (repeat 0 k) = 0.
Proof.
  induction k as [|k IH]; [reflexivity|].
  cbn [repeat]. rewrite digits_value_cons, IH. lia.
Qed.

(** [take_digits] reads a run of digits up to a text at which it stops. *)
Lemma take_digits_step c d t :
  Text.digit_of c = Some d ->
  match t with
  | String c1 _ => Ascii.eqb c1 "_" = false
  | EmptyString => True
  end ->
  Float.take_digits (String c t)
  = (d :: fst (Float.take_digits t), snd (Float.take_digits t)).
Proof.
  intros Hd Ht. cbn [Float.take_digits]. rewrite Hd.
  destruct t as [|c1 u]; [reflexivity|]. rewrite Ht.
  destruct (Float.take_digits (String c1 u)). reflexivity.
Qed.

Lemma take_digits_stops r : stops r = true -> Float.take_digits r = ([], r).
Proof.
  destruct r as [|c u]; [reflexivity|]. simpl. intros H.
  apply andb_prop in H. destruct H as [H _]. apply negb_true_iff in H.
  rewrite (digit_of_none c H). reflexivity.
Qed.

Lemma take_digits_digit_string ds r :
  Forall is_decimal ds -> stops r = true ->
  Float.take_digits (Float.digit_string ds ++ r) = (ds, r).
Proof.
  intros Hds Hr. induction Hds as [|d ds Hd Hds IH].
  - apply take_digits_stops. exact Hr.
  - cbn [Float.digit_string]. change (String ?c ?s ++ r) with (String c (s ++ r)).
    rewrite (take_digits_step _ d _ (digit_of_char d Hd)).
    + rewrite IH. reflexivity.
    + destruct Hds as [|d' ds' Hd' _].
      * simpl. destruct r as [|c1 u]; [exact I|].
        simpl in Hr. apply andb_prop in Hr. destruct Hr as [_ Hr].
        apply negb_true_iff in Hr. exact Hr.
      * simpl. apply digit_char_not_underscore. exact Hd'.
Qed.

(** The digits of a natural number. *)
Lemma digits_of_fuel_spec fuel :
  forall n acc,
    0 <= n < 2 ^ Z.of_nat fuel ->
    Forall is_decimal acc ->
    Forall is_decimal (Float.digits_of_fuel fuel n acc)
    /\ Text.digits_value (Float.digits_of_fuel fuel n acc)
       = n * 10 ^ Z.of_nat (List.length acc) + Text.digits_value acc.
Proof.
  induction fuel as [|fuel IH]; intros n acc Hn Hacc.
  - simpl in *. split; [exact Hacc|]. assert (n = 0) by lia. subst n. lia.
  - cbn [Float.digits_of_fuel]. destruct (n <? 10) eqn:Hlt.
    + apply Z.ltb_lt in Hlt. split.
      * constructor; [unfold is_decimal; lia | exact Hacc].
      * apply digits_value_cons.
    + apply Z.ltb_ge in Hlt.
      rewrite Nat2Z.inj_succ, Z.pow_succ_r in Hn by lia.
      pose proof (Z.div_mod n 10 ltac:(lia)) as Hdiv.
      pose proof (Z.mod_pos_bound n 10 ltac:(lia)) as Hrem.
      destruct (IH (n / 10) (n mod 10 :: acc)) as [H1 H2].
      * split; [apply Z.div_pos; lia|].
        apply Z.div_lt_upper_bound; lia.
      * constructor; [unfold is_decimal; lia | exact Hacc].
      * split; [exact H1|]. rewrite H2, digits_value_cons.
        cbn [List.length]. rewrite Nat2Z.inj_succ, Z.pow_succ_r by lia.
        set (w := 10 ^ Z.of_nat (List.length acc)). nia.
Qed.

Lemma digits_of_fuel_suffix fuel :
  forall n acc, exists pre, Float.digits_of_fuel fuel n acc = (pre ++ acc)%list.
Proof.
  induction fuel as [|fuel IH]; intros n acc; simpl.
  - exists []. reflexivity.
  - destruct (n <? 10).
    + exists [n]. reflexivity.
    + destruct (IH (n / 10) (n mod 10 :: acc)) as [pre Hpre].
      exists (pre ++ [n mod 10])%list. rewrite Hpre, <- app_assoc. reflexivity.
Qed.

Lemma digits_of_spec n :
  0 <= n ->
  Forall is_decimal (Float.digits_of n)
  /\ Text.digits_value (Float.digits_of n) = n
  /\ Float.digits_of n <> [].
Proof.
  intros Hn. unfold Float.digits_of.
  destruct (digits_of_fuel_spec (S (Z.to_nat (Z.log2 n))) n []) as [H1 H2].
  - split; [exact Hn|]. rewrite Nat2Z.inj_succ, Z2Nat.id by apply Z.log2_nonneg.
    destruct (Z.eq_dec n 0) as [-> | Hne]; [reflexivity|].
    apply Z.log2_spec. lia.
  - constructor.
  - split; [exact H1|]. split; [rewrite H2; change (n * 1 + 0 = n); lia|].
    cbn [Float.digits_of_fuel]. destruct (n <? 10); [discriminate|].
    destruct (digits_of_fuel_suffix (Z.to_nat (Z.log2 n)) (n / 10) [n mod 10])
      as [pre ->].
    destruct pre; discriminate.
Qed.

(** Dropping the zeros at the end divides by a power of ten. *)
Lemma strip_zeros_rev_spec l :
  exists k, l = (repeat 0 k ++ Float.strip_zeros_rev l)%list.
Proof.
  induction l as [|a l [k IH]]; [exists O; reflexivity|].
  cbn [Float.strip_zeros_rev]. destruct a as [|p|p].
  - exists (S k). cbn [repeat]. rewrite <- app_comm_cons, <- IH. reflexivity.
  - exists O. reflexivity.
  - exists O. reflexivity.
Qed.

Lemma rev_repeat_zero k : rev (repeat 0 k) = repeat 0 k.
Proof.
  induction k as [|k IH]; [reflexivity|].
  cbn [repeat rev]. rewrite IH. clear IH.
  induction k as [|k IH]; [reflexivity|].
  cbn [repeat app]. rewrite IH. reflexivity.
Qed.

Lemma strip_trailing_zeros_spec ds :
  exists k, ds = (Float.strip_trailing_zeros ds ++ repeat 0 k)%list.
Proof.
  unfold Float.strip_trailing_zeros.
  destruct (strip_zeros_rev_spec (rev ds)) as [k Hk].
  exists k. rewrite <- (rev_involutive ds) at 1. rewrite Hk at 1.
  rewrite rev_app_distr, rev_repeat_zero. reflexivity.
Qed.

(** ** Reading what [repr] writes *)

Lemma parse_exponent_string z :
  Float.parse_exponent (String "e" (Float.exponent_string z)) = Some z.
Proof.
  unfold Float.parse_exponent, Float.exponent_string.
  change (Ascii.eqb (Text.lower "e") "e") with true. cbv iota.
  destruct (digits_of_spec (Z.abs z) (Z.abs_nonneg z)) as (Hdec & Hval & Hne).
  set (ds := Float.digits_of (Z.abs z)) in *.
  set (ds' := match ds with [_] => 0 :: ds | _ => ds end).
  assert (Hds' : Forall is_decimal ds' /\ Text.digits_value ds' = Z.abs z
                 /\ ds' <> []).
  { unfold ds'. destruct ds as [|d1 [|d2 rest]]; [contradiction | |auto].
    split; [|split; [|discriminate]].
    - constructor; [unfold is_decimal; lia | exact Hdec].
    - rewrite digits_value_cons, Hval. lia. }
  destruct Hds' as (Hdec' & Hval' & Hne'). clearbody ds'.
  assert (Hsign :
    Float.take_sign ((if z <? 0 then "-" else "+") ++ Float.digit_string ds')
    = (z <? 0, Float.digit_string ds')).
  { destruct (z <? 0); reflexivity. }
  rewrite Hsign.
  rewrite <- (string_app_nil (Float.digit_string ds')).
  rewrite (take_digits_digit_string ds' "" Hdec' Logic.eq_refl).
  destruct ds' as [|d rest]; [contradiction|].
  rewrite Hval'. f_equal. destruct (z <? 0) eqn:Hz.
  - apply Z.ltb_lt in Hz. lia.
  - apply Z.ltb_ge in Hz. lia.
Qed.

Lemma parse_number_plain_form s ip r1 :
  Float.take_digits s = (ip, r1) ->
  match r1 with
  | String c _ => Ascii.eqb c "." = false
  | EmptyString => True
  end ->
  Float.parse_number s
  = match ip with
    | [] => None
    | _ =>
        match Float.parse_exponent r1 with
        | Some e => Some (Text.digits_value ip, e)
        | None => None
        end
    end.
Proof.
  intros Hip Hr1. unfold Float.parse_number. rewrite Hip.
  assert (Hfp :
    match r1 with
    | String c t => if Ascii.eqb c "." then Float.take_digits t else ([], r1)
    | EmptyString => ([], r1)
    end = ([], r1)).
  { destruct r1 as [|c t]; [reflexivity|]. rewrite Hr1. reflexivity. }
  rewrite Hfp, app_nil_r. destruct ip as [|d ip]; [reflexivity|].
  destruct (Float.parse_exponent r1) as [e|]; [|reflexivity].
  cbn [List.length Z.of_nat]. rewrite Z.sub_0_r. reflexivity.
Qed.

Lemma parse_number_dotted_form s ip t fp r2 :
  Float.take_digits s = (ip, String "." t) ->
  Float.take_digits t = (fp, r2) ->
  Float.parse_number s
  = match (ip ++ fp)%list with
    | [] => None
    | ds =>
        match Float.parse_exponent r2 with
        | Some e => Some (Text.digits_value ds, e - Z.of_nat (List.length fp))
        | None => None
        end
    end.
Proof.
  intros Hip Hfp. unfold Float.parse_number. rewrite Hip.
  change (Ascii.eqb "." ".") with true. cbv iota. rewrite Hfp. reflexivity.
Qed.

(** The text [format_repr] writes for the digits [ds] and the decimal point
    [decpt] is read as a number of the value
    [digits_value ds * 10 ^ (decpt - length ds)]. *)
Lemma parse_number_format ds decpt :
  Forall is_decimal ds -> ds <> [] ->
  exists D' e',
    Float.parse_number (Float.format_repr ds decpt) = Some (D', e')
    /\ D' * Float.pow_up 10 e'
          * Float.pow_down 10 (decpt - Z.of_nat (List.length ds))
       = Text.digits_value ds
         * Float.pow_up 10 (decpt - Z.of_nat (List.length ds))
         * Float.pow_down 10 e'.
Proof.
  intros Hdec Hne. unfold Float.format_repr.
  destruct ((decpt <=? -4) || (16 <? decpt)) eqn:Hsci.
  - (* scientific form *)
    destruct ds as [|d1 rest]; [contradiction|].
    inversion Hdec as [|? ? Hd1 Hrest]; subst.
    exists (Text.digits_value (d1 :: rest)),
      (decpt - Z.of_nat (List.length (d1 :: rest))).
    split; [|reflexivity].
    set (tail := String "e" (Float.exponent_string (decpt - 1))).
    destruct rest as [|d2 rest'].
    + change (String (Float.digit_char d1) "" ++ tail)
        with (Float.digit_string [d1] ++ tail).
      rewrite (parse_number_plain_form _ [d1] tail).
      * unfold tail. rewrite parse_exponent_string.
        apply f_equal. apply f_equal2; [reflexivity | cbn [List.length]; lia].
      * apply take_digits_digit_string; [constructor; auto | reflexivity].
      * reflexivity.
    + set (rest := d2 :: rest') in *.
      change (String (Float.digit_char d1) (String "." (Float.digit_string rest))
              ++ tail)
        with (Float.digit_string [d1]
              ++ String "." (Float.digit_string rest ++ tail)).
      rewrite (parse_number_dotted_form _ [d1] (Float.digit_string rest ++ tail)
                 rest tail).
      * unfold tail. rewrite parse_exponent_string.
        apply f_equal. apply f_equal2; [reflexivity | cbn [List.length]; lia].
      * apply take_digits_digit_string; [constructor; auto | reflexivity].
      * apply take_digits_digit_string; [exact Hrest | reflexivity].
  - apply orb_false_elim in Hsci. destruct Hsci as [Hlo Hhi].
    apply Z.leb_gt in Hlo. apply Z.ltb_ge in Hhi.
    destruct (decpt <=? 0) eqn:Hneg.
    + (* 0.000ddd *)
      apply Z.leb_le in Hneg.
      exists (Text.digits_value ds), (decpt - Z.of_nat (List.length ds)).
      split; [|reflexivity].
      set (k := Z.to_nat (- decpt)).
      change ("0." ++ Float.zeros k ++ Float.digit_string ds)
        with (Float.digit_string [0]
              ++ String "." (Float.zeros k ++ Float.digit_string ds)).
      rewrite zeros_digit_string, <- digit_string_app.
      rewrite (parse_number_dotted_form _ [0]
                 (Float.digit_string (repeat 0 k ++ ds)) (repeat 0 k ++ ds) "").
      * cbn [app]. change (Float.parse_exponent "") with (Some 0).
        rewrite digits_value_cons, digits_value_app, digits_value_zeros.
        rewrite length_app, repeat_length.
        apply f_equal. apply f_equal2; [lia | unfold k; lia].
      * apply take_digits_digit_string;
          [constructor; [unfold is_decimal; lia | constructor] | reflexivity].
      * rewrite <- (string_app_nil (Float.digit_string _)).
        apply take_digits_digit_string; [|reflexivity].
        apply Forall_app. split; [apply repeat_zero_decimal | exact Hdec].
    + apply Z.leb_gt in Hneg.
      destruct (Z.of_nat (List.length ds) <=? decpt) eqn:Hlong.
      * (* ddd000.0 *)
        apply Z.leb_le in Hlong.
        set (k := (Z.to_nat decpt - List.length ds)%nat).
        exists (Text.digits_value ((ds ++ repeat 0 k) ++ [0])), (-1).
        split.
        -- rewrite zeros_digit_string.
           rewrite <- string_app_assoc, <- digit_string_app.
           rewrite (parse_number_dotted_form _ (ds ++ repeat 0 k) "0" [0] "").
           ++ change (Float.parse_exponent "") with (Some 0).
              destruct ((ds ++ repeat 0 k) ++ [0])%list eqn:Hl; [|reflexivity].
              apply app_eq_nil in Hl. destruct Hl as [_ Hl]. discriminate Hl.
           ++ apply take_digits_digit_string; [|reflexivity].
              apply Forall_app. split; [exact Hdec | apply repeat_zero_decimal].
           ++ reflexivity.
        -- rewrite !digits_value_app, digits_value_zeros, repeat_length.
           replace (decpt - Z.of_nat (List.length ds)) with (Z.of_nat k)
             by (unfold k; lia).
           rewrite (pow_up_const 10 (Z.of_nat k)), (pow_down_const 10 (Z.of_nat k))
             by lia.
           change (Float.pow_up 10 (-1)) with 1.
           change (Float.pow_down 10 (-1)) with 10.
           change (Text.digits_value [0]) with 0.
           change (Z.of_nat (List.length [0])) with 1.
           ring.
      * (* dd.ddd *)
        apply Z.leb_gt in Hlong.
        exists (Text.digits_value ds), (decpt - Z.of_nat (List.length ds)).
        split; [|reflexivity].
        set (j := Z.to_nat decpt).
        pose proof (firstn_skipn j ds) as Hsplit.
        assert (Hparts : Forall is_decimal (firstn j ds)
                         /\ Forall is_decimal (skipn j ds)).
        { apply Forall_app. rewrite Hsplit. exact Hdec. }
        destruct Hparts as [Hfirst Hskip].
        rewrite (parse_number_dotted_form _ (firstn j ds)
                   (Float.digit_string (skipn j ds)) (skipn j ds) "").
        -- rewrite Hsplit. change (Float.parse_exponent "") with (Some 0).
           destruct ds as [|d1 rest]; [contradiction|].
           rewrite length_skipn.
           apply f_equal. apply f_equal2; [reflexivity | unfold j; lia].
        -- apply take_digits_digit_string; [exact Hfirst | reflexivity].
        -- rewrite <- (string_app_nil (Float.digit_string _)).
           apply take_digits_digit_string; [exact Hskip | reflexivity].
Qed.

(** What [format_repr] writes starts with a digit. *)
Lemma format_repr_head ds decpt :
  Forall is_decimal ds -> ds <> [] ->
  exists c t, Float.format_repr ds decpt = String c t /\ Text.is_digit c = true.
Proof.
  intros Hdec Hne. unfold Float.format_repr.
  destruct ds as [|d1 rest]; [contradiction|].
  inversion Hdec as [|? ? Hd1 Hrest]; subst.
  destruct ((decpt <=? -4) || (16 <? decpt)).
  - eexists _, _. split; [reflexivity|]. apply is_digit_char. exact Hd1.
  - destruct (decpt <=? 0) eqn:Hneg.
    + eexists _, _. split; reflexivity.
    + apply Z.leb_gt in Hneg.
      destruct (Z.of_nat (List.length (d1 :: rest)) <=? decpt).
      * eexists _, _. split; [reflexivity|]. apply is_digit_char. exact Hd1.
      * destruct (Z.to_nat decpt) as [|j] eqn:Hj; [lia|].
        eexists _, _. split; [reflexivity|]. apply is_digit_char. exact Hd1.
Qed.

Lemma digit_head c :
  Text.is_digit c = true ->
  Ascii.eqb c "-" = false /\ Ascii.eqb c "+" = false
  /\ Ascii.eqb (Text.lower c) "i" = false
  /\ Ascii.eqb (Text.lower c) "n" = false.
Proof.
  each_char c; vm_compute; intros H;
    first [discriminate H | repeat split; reflexivity].
Qed.

(** A number that starts with a digit is read as it stands, with or
    without a minus sign. *)
Lemma parse_literal_number c t D' e' :
  Text.is_digit c = true ->
  Float.parse_number (String c t) = Some (D', e') ->
  Float.parse_literal (String c t) = Some (Float.of_decimal false D' e')
  /\ Float.parse_literal (String "-" (String c t))
     = Some (Float.of_decimal true D' e').
Proof.
  intros Hc Hnum. destruct (digit_head c Hc) as (Hm & Hp & Hi & Hn).
  assert (Hword :
    String.eqb (Text.lower_string (String c t)) "inf"
    || String.eqb (Text.lower_string (String c t)) "infinity" = false
    /\ String.eqb (Text.lower_string (String c t)) "nan" = false).
  { cbn [Text.lower_string String.eqb]. rewrite Hi, Hn. split; reflexivity. }
  destruct Hword as [Hinf Hnan].
  split; unfold Float.parse_literal.
  - assert (Hsign : Float.take_sign (String c t) = (false, String c t)).
    { unfold Float.take_sign. rewrite Hm, Hp. reflexivity. }
    rewrite Hsign, Hinf, Hnan, Hnum. reflexivity.
  - change (Float.take_sign (String "-" (String c t))) with (true, String c t).
    cbv iota beta. rewrite Hinf, Hnan, Hnum. reflexivity.
Qed.

(** The float reader gives back every finite float from its [repr]. *)
Lemma repr_finite_reads_back neg (m : positive) e :
  canonical m e ->
  Float.parse_literal (Float.repr (S754_finite neg m e))
  = Some (S754_finite neg m e).
Proof.
  intros Hcan. unfold Float.repr.
  set (n := Zpos m * Float.pow_up 2 e). set (d := Float.pow_down 2 e).
  set (k := Float.ratio_decpt n d).
  pose proof (shortest_from_reads_back 17 1 (S754_finite false m e) n d k
                (read_back_17 m e Hcan)) as Hback.
  destruct (Float.shortest_from 17 1 (S754_finite false m e) n d k) as [D t].
  unfold Float.reads_back in Hback. simpl fst in Hback. simpl snd in Hback.
  apply float_eqb_eq in Hback.
  assert (HD : 0 < D).
  { destruct (Z.le_gt_cases D 0) as [H | H]; [|lia].
    unfold Float.of_decimal in Hback. apply Z.leb_le in H. rewrite H in Hback.
    discriminate Hback. }
  destruct (digits_of_spec D ltac:(lia)) as (Hdec & Hval & _).
  destruct (strip_trailing_zeros_spec (Float.digits_of D)) as [z Hz].
  set (full := Float.digits_of D) in *.
  set (ds := Float.strip_trailing_zeros full) in *.
  assert (Hds : Forall is_decimal ds).
  { rewrite Hz in Hdec. apply Forall_app in Hdec. apply Hdec. }
  assert (Hvalue : D = Text.digits_value ds * 10 ^ Z.of_nat z).
  { rewrite <- Hval, Hz, digits_value_app, digits_value_zeros, repeat_length.
    ring. }
  assert (Hne : ds <> []).
  { intros Hnil. rewrite Hnil in Hvalue. change (Text.digits_value []) with 0 in Hvalue.
    lia. }
  assert (Hlen : Z.of_nat (List.length full)
                 = Z.of_nat (List.length ds) + Z.of_nat z).
  { rewrite Hz at 1. rewrite length_app, repeat_length. lia. }
  set (decpt := t + Z.of_nat (List.length full)).
  destruct (parse_number_format ds decpt Hds Hne) as (D' & e' & Hparse & Heq).
  replace (decpt - Z.of_nat (List.length ds)) with (t + Z.of_nat z) in Heq
    by (unfold decpt; lia).
  destruct (format_repr_head ds decpt Hds Hne) as (c & rest & Hform & Hc).
  rewrite Hform in *.
  destruct (parse_literal_number c rest D' e' Hc Hparse) as [Hpos Hneg].
  (* the number read has the value of the digits found *)
  pose proof (pow_split 10 t (Z.of_nat z) ltac:(lia)) as Hs.
  rewrite (pow_up_const 10 (Z.of_nat z)), (pow_down_const 10 (Z.of_nat z)) in Hs
    by lia.
  pose proof (pow_up_pos 10 t ltac:(lia)) as HP.
  pose proof (pow_down_pos 10 t ltac:(lia)) as HQ.
  pose proof (pow_up_pos 10 e' ltac:(lia)) as HP'.
  pose proof (pow_down_pos 10 e' ltac:(lia)) as HQ'.
  pose proof (pow_up_pos 10 (t + Z.of_nat z) ltac:(lia)) as HU.
  pose proof (pow_down_pos 10 (t + Z.of_nat z) ltac:(lia)) as HV.
  assert (Hw : 0 < 10 ^ Z.of_nat z) by (apply Z.pow_pos_nonneg; lia).
  set (w := 10 ^ Z.of_nat z) in *.
  set (P := Float.pow_up 10 t) in *. set (Q := Float.pow_down 10 t) in *.
  set (P' := Float.pow_up 10 e') in *. set (Q' := Float.pow_down 10 e') in *.
  set (U := Float.pow_up 10 (t + Z.of_nat z)) in *.
  set (V := Float.pow_down 10 (t + Z.of_nat z)) in *.
  set (v := Text.digits_value ds) in *.
  assert (Hv : 0 < v) by nia.
  assert (HD' : 0 < D') by nia.
  assert (Hsame : D' * P' * Q = D * P * Q').
  { apply (Z.mul_cancel_r _ _ V); [lia|].
    replace (D' * P' * Q * V) with (D' * P' * V * Q) by ring.
    rewrite Heq, Hvalue.
    replace (v * U * Q' * Q) with (v * Q' * (U * (Q * 1))) by ring.
    rewrite Hs. ring. }
  assert (Hread : Float.of_decimal neg D' e' = S754_finite neg m e).
  { rewrite (of_decimal_equiv neg D' e' D t HD' HD Hsame).
    apply of_decimal_sign. exact Hback. }
  destruct neg; [rewrite Hneg | rewrite Hpos]; rewrite Hread; reflexivity.
Qed.

Lemma repr_reads_back f :
  binary64 f -> Float.parse_literal (Float.repr f) = Some f.
Proof.
  destruct f as [[]|[]| |neg m e]; intros Hf;
    [reflexivity | reflexivity | reflexivity | reflexivity | reflexivity |].
  apply repr_finite_reads_back. exact Hf.
Qed.

(** ** The floats the reader produces *)

Lemma round_ratio_binary64 neg n d :
  0 < n -> 0 < d -> binary64 (Float.round_ratio neg n d).
Proof.
  intros Hn Hd. unfold Float.round_ratio.
  destruct (ratio_log2_spec n d Hn Hd) as [Hlog1 Hlog2].
  set (L := Float.ratio_log2 n d) in *.
  set (e := Z.max (L - 52) Float.emin).
  assert (He : -1074 <= e) by (unfold e, Float.emin; lia).
  remember (n * Float.pow_down 2 e) as N eqn:HN.
  remember (d * Float.pow_up 2 e) as D eqn:HD.
  pose proof (pow_up_pos 2 e ltac:(lia)) as HE.
  pose proof (pow_down_pos 2 e ltac:(lia)) as HF.
  assert (HD0 : 0 < D) by (subst D; nia).
  assert (HN0 : 0 < N) by (subst N; nia).
  assert (Htop : N < 9007199254740992 * D).
  { assert (H : Float.pow_le 2 (e + 53) n d = false).
    { destruct (Float.pow_le 2 (e + 53) n d) eqn:H; [|reflexivity].
      rewrite (pow_le_mono 2 (e + 53) (L + 1) n d) in Hlog2;
        [discriminate | lia | exact Hn | exact Hd | unfold e; lia | exact H]. }
    rewrite (pow_le_rel e 53 n d Hn Hd) in H. apply Z.leb_gt in H.
    rewrite (pow_up_const 2 53), (pow_down_const 2 53), pow2_53 in H by lia.
    rewrite <- HN, <- HD in H. lia. }
  assert (Hbottom :
    (e = L - 52 /\ 4503599627370496 * D <= N)
    \/ (e = -1074 /\ N < 4503599627370496 * D)).
  { destruct (Z.le_gt_cases Float.emin (L - 52)) as [Hnorm | Hsub].
    - left. assert (He' : e = L - 52) by (unfold e; lia). split; [exact He'|].
      assert (H : Float.pow_le 2 (e + 52) n d = true).
      { replace (e + 52) with L by lia. exact Hlog1. }
      rewrite (pow_le_rel e 52 n d Hn Hd) in H. apply Z.leb_le in H.
      rewrite (pow_up_const 2 52), (pow_down_const 2 52), pow2_52 in H by lia.
      rewrite <- HN, <- HD in H. lia.
    - right. unfold Float.emin in Hsub.
      assert (He' : e = -1074) by (unfold e, Float.emin; lia). split; [exact He'|].
      assert (H : Float.pow_le 2 (e + 52) n d = false).
      { destruct (Float.pow_le 2 (e + 52) n d) eqn:H; [|reflexivity].
        rewrite (pow_le_mono 2 (e + 52) (L + 1) n d) in Hlog2;
          [discriminate | lia | exact Hn | exact Hd | lia | exact H]. }
      rewrite (pow_le_rel e 52 n d Hn Hd) in H. apply Z.leb_gt in H.
      rewrite (pow_up_const 2 52), (pow_down_const 2 52), pow2_52 in H by lia.
      rewrite <- HN, <- HD in H. lia. }
  pose proof (Z.div_mod N D ltac:(lia)) as Hdiv.
  pose proof (Z.mod_pos_bound N D HD0) as Hrem.
  set (q := N / D) in *. set (r := N mod D) in *.
  assert (Hq : 0 <= q <= 9007199254740991) by nia.
  set (m := if (D <? 2 * r) || ((D =? 2 * r) && Z.odd q) then q + 1 else q).
  assert (Hm : q <= m <= q + 1).
  { unfold m. destruct ((D <? 2 * r) || ((D =? 2 * r) && Z.odd q)); lia. }
  rewrite pow2_53, pow2_52. clearbody m.
  destruct (m =? 9007199254740992) eqn:Hm53.
  - apply Z.eqb_eq in Hm53.
    destruct (e + 1 <=? Float.emax - Float.prec) eqn:Hfit; [|exact I].
    apply Z.leb_le in Hfit. unfold Float.emax, Float.prec in Hfit.
    simpl. left. rewrite pow2_52, pow2_53. lia.
  - apply Z.eqb_neq in Hm53. destruct m as [|p|p]; [exact I | | exact I].
    destruct (e <=? Float.emax - Float.prec) eqn:Hfit; [|exact I].
    apply Z.leb_le in Hfit. unfold Float.emax, Float.prec in Hfit.
    simpl. unfold canonical. rewrite pow2_52, pow2_53.
    destruct Hbottom as [[_ Hb] | [He' Hb]].
    + left. assert (4503599627370496 <= q) by nia. lia.
    + assert (q < 4503599627370496) by nia.
      destruct (Z.eq_dec (Zpos p) 4503599627370496); [left | right]; lia.
Qed.

Lemma parse_literal_binary64 s f : Float.parse_literal s = Some f -> binary64 f.
Proof.
  unfold Float.parse_literal. destruct (Float.take_sign s) as [neg body].
  destruct (_ || _); [intros [= <-]; exact I|].
  destruct (String.eqb _ "nan"); [intros [= <-]; exact I|].
  destruct (Float.parse_number body) as [[ds e10]|]; [|discriminate].
  intros [= <-]. unfold Float.of_decimal.
  destruct (ds <=? 0) eqn:Hds; [exact I|]. apply Z.leb_gt in Hds.
  pose proof (pow_up_pos 10 e10 ltac:(lia)).
  apply round_ratio_binary64; [nia | apply pow_down_pos; lia].
Qed.

Lemma sanitize_amount_binary64 x f : sanitize_amount x = VFloat f -> binary64 f.
Proof.
  unfold sanitize_amount. destruct x; try discriminate;
    match goal with
    | |- context [Float.of_string ?s] =>
        destruct (Float.of_string s) as [g|] eqn:Hg; [|discriminate]
    end;
    intros [= <-]; unfold Float.of_string in Hg;
    apply (parse_literal_binary64 _ _ Hg).
Qed.

Lemma strip_plain s : Text.string_forall plain s = true -> Text.strip s = s.
Proof.
  intros Hplain. unfold Text.strip. destruct s as [|a t]; [reflexivity|].
  pose proof Hplain as Hall. simpl in Hplain.
  apply andb_prop in Hplain. destruct Hplain as [Ha _].
  rewrite (lstrip_plain_head a t Ha). apply rstrip_plain. exact Hall.
Qed.

(** A float is normalised to itself. *)
Lemma sanitize_amount_float f :
  binary64 f -> sanitize_amount (VFloat f) = VFloat f.
Proof.
  intros Hf. pose proof (repr_reads_back f Hf) as Hread.
  pose proof (parse_literal_plain _ _ Hread) as Hplain.
  unfold sanitize_amount. change (py_str (VFloat f)) with (Float.repr f).
  rewrite (remove_dollar_plain _ Hplain), (strip_plain _ Hplain).
  rewrite (of_string_literal _ _ Hread). reflexivity.
Qed.

(** C8: normalisation is idempotent on its numeric results: a float that
    [sanitize_amount] returns is normalised to itself. *)
Theorem sanitize_amount_idempotent (x : value) (f : spec_float) :
  sanitize_amount x = VFloat f ->
  sanitize_amount (sanitize_amount x) = sanitize_amount x.
Proof.
  intros Hx. rewrite Hx. apply sanitize_amount_float.
  apply (sanitize_amount_binary64 x f Hx).
Qed.

Lemma sanitize_amount_idempotent_witness :
  sanitize_amount (VStr " $43.83 ") = VFloat (lit 43.83)
  /\ sanitize_amount (sanitize_amount (VStr " $43.83 "))
     = sanitize_amount (VStr " $43.83 ").
Proof.
  split; [vm_compute; reflexivity|].
  apply (sanitize_amount_idempotent (VStr " $43.83 ") (lit 43.83)).
  vm_compute. reflexivity.
Defined.

(** Normalisation of [None] gives [None], so idempotence holds on every
    input. *)
Lemma sanitize_amount_twice (x : value) :
  sanitize_amount (sanitize_amount x) = sanitize_amount x.
Proof.
  destruct (sanitize_amount_cases x) as [H | [f H]]; rewrite H.
  - reflexivity.
  - apply sanitize_amount_float. apply (sanitize_amount_binary64 x f H).
Qed.

(** Integers and floats written by [str] are read back by [float]. *)
Example sanitize_amount_of_float :
  sanitize_amount (VFloat (lit 43.83)) = VFloat (lit 43.83).
Proof. vm_compute. reflexivity. Qed.

Example sanitize_amount_of_int : sanitize_amount (VInt 5) = VFloat (lit 5.0).
Proof. vm_compute. reflexivity. Qed.

(** ** Lists and objects as amounts *)

Lemma rstrip_head a t :
  Text.is_space a = false -> exists w, Text.rstrip (String a t) = String a w.
Proof.
  intros Ha. simpl. destruct (Text.rstrip t) as [|b r].
  - rewrite Ha. exists "". reflexivity.
  - exists (String b r). reflexivity.
Qed.

Lemma rskip_head a t :
  Float.is_blank a = false -> exists w, Float.rskip (String a t) = String a w.
Proof.
  intros Ha. simpl. destruct (Float.rskip t) as [|b r].
  - rewrite Ha. exists "". reflexivity.
  - exists (String b r). reflexivity.
Qed.

(** A text that starts with a bracket or a brace is not a float. *)
Lemma of_string_bracket c t :
  c = "["%char \/ c = "{"%char ->
  Float.of_string (Text.strip (Text.remove_char "$" (String c t))) = None.
Proof.
  intros Hc.
  assert (Hfacts :
    Ascii.eqb c "$" = false /\ Text.is_space c = false
    /\ Float.is_blank c = false /\ Ascii.eqb c "-" = false
    /\ Ascii.eqb c "+" = false /\ Ascii.eqb (Text.lower c) "i" = false
    /\ Ascii.eqb (Text.lower c) "n" = false /\ Text.digit_of c = None
    /\ Ascii.eqb c "." = false).
  { destruct Hc as [-> | ->]; repeat split; reflexivity. }
  destruct Hfacts as (Hd & Hs & Hb & Hm & Hp & Hi & Hn & Hdig & Hdot).
  cbn [Text.remove_char]. rewrite Hd. unfold Text.strip.
  cbn [Text.lstrip]. rewrite Hs.
  destruct (rstrip_head c (Text.remove_char "$" t) Hs) as [w ->].
  unfold Float.of_string. cbn [Float.lskip]. rewrite Hb.
  destruct (rskip_head c w Hb) as [w' ->].
  unfold Float.parse_literal, Float.take_sign. rewrite Hm, Hp.
  cbn [Text.lower_string String.eqb]. rewrite Hi, Hn. cbn [andb orb].
  unfold Float.parse_number. cbn [Float.take_digits]. rewrite Hdig, Hdot.
  reflexivity.
Qed.

(** A list or an object is normalised to [None]. *)
Lemma sanitize_amount_container :
  (forall items, sanitize_amount (VList items) = VNone)
  /\ (forall fields, sanitize_amount (VDict fields) = VNone).
Proof.
  split; intros x; unfold sanitize_amount, py_str; cbn [py_repr].
  - change ("[" ++ ?s) with (String "[" s).
    rewrite of_string_bracket by (left; reflexivity). reflexivity.
  - change ("{" ++ ?s) with (String "{" s).
    rewrite of_string_bracket by (right; reflexivity). reflexivity.
Qed.

(** ** What a decimal literal denotes *)

(** The text [ddd.ddd] is a float literal: it denotes the binary64 number
    nearest to the decimal number its digits spell. *)
Lemma parse_literal_decimal ip fp :
  Forall is_decimal ip -> Forall is_decimal fp -> ip <> [] ->
  Float.parse_literal (Float.digit_string ip ++ String "." (Float.digit_string fp))
  = Some (Float.of_decimal false (Text.digits_value (ip ++ fp))
            (- Z.of_nat (List.length fp))).
Proof.
  intros Hip Hfp Hne.
  assert (Hnum :
    Float.parse_number
      (Float.digit_string ip ++ String "." (Float.digit_string fp))
    = Some (Text.digits_value (ip ++ fp), - Z.of_nat (List.length fp))).
  { rewrite (parse_number_dotted_form _ ip (Float.digit_string fp) fp "").
    - change (Float.parse_exponent "") with (Some 0).
      destruct (ip ++ fp)%list eqn:Hl; [|reflexivity].
      apply app_eq_nil in Hl. destruct Hl as [Hl _]. contradiction.
    - apply take_digits_digit_string; [exact Hip | reflexivity].
    - rewrite <- (string_app_nil (Float.digit_string fp)).
      apply take_digits_digit_string; [exact Hfp | reflexivity]. }
  destruct ip as [|d ip']; [contradiction|].
  inversion Hip as [|? ? Hd _]; subst.
  cbn [Float.digit_string] in *.
  change (String ?c ?s ++ ?r) with (String c (s ++ r)) in *.
  apply (parse_literal_number _ _ _ _ (is_digit_char d Hd) Hnum).
Qed.

Example literal_43_83 :
  Float.parse_literal "43.83" = Some (Float.of_decimal false 4383 (-2))
  /\ Float.of_decimal false 4383 (-2) = lit 43.83.
Proof. split; vm_compute; reflexivity. Qed.

(** ** The finite floats are those of the Standard Library *)

Lemma digits2_pos_spec m :
  2 ^ (Zpos (digits2_pos m) - 1) <= Zpos m < 2 ^ Zpos (digits2_pos m).
Proof.
  induction m as [p IH | p IH |]; cbn [digits2_pos].
  - rewrite Pos2Z.inj_succ.
    replace (Z.succ (Zpos (digits2_pos p)) - 1) with (Z.succ (Zpos (digits2_pos p) - 1))
      by lia.
    rewrite !Z.pow_succ_r by lia. lia.
  - rewrite Pos2Z.inj_succ.
    replace (Z.succ (Zpos (digits2_pos p)) - 1) with (Z.succ (Zpos (digits2_pos p) - 1))
      by lia.
    rewrite !Z.pow_succ_r by lia. lia.
  - simpl. lia.
Qed.

(** [canonical] is [bounded] of the Standard Library at the binary64
    format. *)
Lemma canonical_bounded m e :
  canonical m e <-> bounded Float.prec Float.emax m e = true.
Proof.
  unfold canonical, bounded, canonical_mantissa, fexp, SpecFloat.emin,
    Float.prec, Float.emax.
  pose proof (digits2_pos_spec m) as [Hlow Hhigh].
  set (g := Zpos (digits2_pos m)) in *.
  assert (Hg : 0 < g) by (unfold g; lia).
  rewrite pow2_52, pow2_53.
  assert (H53 : g <= 52 \/ g = 53 \/ 54 <= g) by lia.
  assert (Hsmall : g <= 52 -> Zpos m < 4503599627370496).
  { intros H. apply Z.lt_le_trans with (2 ^ g); [exact Hhigh|].
    rewrite <- pow2_52. apply Z.pow_le_mono_r; lia. }
  assert (Hbig : 54 <= g -> 9007199254740992 <= Zpos m).
  { intros H. apply Z.le_trans with (2 ^ (g - 1)); [|exact Hlow].
    rewrite <- pow2_53. apply Z.pow_le_mono_r; lia. }
  assert (Hmid : g = 53 -> 4503599627370496 <= Zpos m < 9007199254740992).
  { intros H. rewrite H in Hlow, Hhigh. change (53 - 1) with 52 in Hlow.
    rewrite pow2_52 in Hlow. rewrite pow2_53 in Hhigh. lia. }
  rewrite andb_true_iff, Z.eqb_eq, Z.leb_le. lia.
Qed.

Lemma binary64_valid f :
  binary64 f <-> valid_binary Float.prec Float.emax f = true.
Proof.
  destruct f as [s|s| |s m e]; simpl; try (split; reflexivity || exact (fun _ => I)).
  apply canonical_bounded.
Qed.

(** ** [encode_file] *)

Lemma byte_value_range b : 0 <= Base64.byte_value b < 256.
Proof.
  unfold Base64.byte_value. pose proof (Byte.to_N_bounded b). lia.
Qed.

Lemma byte_of_value b : Base64.byte_of (Base64.byte_value b) = b.
Proof.
  unfold Base64.byte_of, Base64.byte_value. rewrite N2Z.id.
  rewrite <- ascii_of_byte_via_N. apply byte_of_ascii_of_byte.
Qed.

Lemma byte_value_of n : 0 <= n < 256 -> Base64.byte_value (Base64.byte_of n) = n.
Proof.
  intros Hn. unfold Base64.byte_of, Base64.byte_value.
  pose proof (byte_of_ascii_via_N (ascii_of_N (Z.to_N n))) as H.
  symmetry in H. apply Byte.to_of_N in H. rewrite H.
  rewrite N_ascii_embedding by lia. lia.
Qed.

Lemma byte_value_code b : Text.code (ascii_of_byte b) = Base64.byte_value b.
Proof.
  unfold Text.code, Base64.byte_value. rewrite ascii_of_byte_via_N.
  rewrite N_ascii_embedding; [reflexivity|].
  pose proof (Byte.to_N_bounded b). lia.
Qed.

(** Bits that do not overlap add up. *)
Lemma lor_shiftl_low a b k :
  0 <= k -> 0 <= b < 2 ^ k -> Z.lor (Z.shiftl a k) b = a * 2 ^ k + b.
Proof.
  intros Hk Hb. rewrite <- Z.shiftl_mul_pow2 by exact Hk.
  rewrite <- Z.add_lor_land.
  assert (Hland : Z.land (Z.shiftl a k) b = 0).
  { apply Z.bits_inj'. intros i Hi. rewrite Z.land_spec, Z.bits_0.
    destruct (Z.lt_ge_cases i k) as [Hlt | Hge].
    - rewrite Z.shiftl_spec_low by exact Hlt. reflexivity.
    - destruct (Z.eq_dec b 0) as [-> | Hb0];
        [rewrite Z.bits_0; apply andb_false_r|].
      rewrite (Z.bits_above_log2 b i); [apply andb_false_r | lia |].
      apply Z.lt_le_trans with k; [|exact Hge].
      apply Z.log2_lt_pow2; lia. }
  rewrite Hland. lia.
Qed.

Lemma sextet_spec n k :
  0 <= k -> Base64.sextet n k = Base64.alphabet ((n / 2 ^ k) mod 64).
Proof.
  intros Hk. unfold Base64.sextet. rewrite Z.shiftr_div_pow2 by exact Hk.
  change 63 with (Z.ones 6). rewrite Z.land_ones by lia. reflexivity.
Qed.

Lemma octet_spec n k :
  0 <= k -> octet n k = Base64.byte_of ((n / 2 ^ k) mod 256).
Proof.
  intros Hk. unfold octet. rewrite Z.shiftr_div_pow2 by exact Hk.
  change 255 with (Z.ones 8). rewrite Z.land_ones by lia. reflexivity.
Qed.

Lemma below_64 (p : Z -> bool) :
  forallb p (map Z.of_nat (seq 0 64)) = true ->
  forall n, 0 <= n < 64 -> p n = true.
Proof.
  intros H n Hn. rewrite forallb_forall in H. apply H.
  apply in_map_iff. exists (Z.to_nat n). split; [lia|].
  apply in_seq. lia.
Qed.

Lemma alphabet_value s :
  0 <= s < 64 -> base64_value (Base64.alphabet s) = Some s.
Proof.
  intros Hs.
  apply (below_64 (fun s =>
    match base64_value (Base64.alphabet s) with
    | Some t => t =? s
    | None => false
    end)) in Hs; [|vm_compute; reflexivity].
  destruct (base64_value (Base64.alphabet s)) as [t|]; [|discriminate].
  apply Z.eqb_eq in Hs. congruence.
Qed.

Lemma alphabet_not_pad s : 0 <= s < 64 -> is_pad (Base64.alphabet s) = false.
Proof.
  intros Hs.
  apply (below_64 (fun s => negb (is_pad (Base64.alphabet s)))) in Hs;
    [|vm_compute; reflexivity].
  apply negb_true_iff in Hs. exact Hs.
Qed.

Lemma alphabet_char s :
  0 <= s < 64 ->
  Base64.byte_value (Base64.alphabet s) < 128
  /\ is_base64_char (ascii_of_byte (Base64.alphabet s)) = true
  /\ Ascii.eqb (ascii_of_byte (Base64.alphabet s)) "=" = false.
Proof.
  intros Hs.
  apply (below_64 (fun s =>
    (Base64.byte_value (Base64.alphabet s) <? 128)
    && is_base64_char (ascii_of_byte (Base64.alphabet s))
    && negb (Ascii.eqb (ascii_of_byte (Base64.alphabet s)) "="))) in Hs;
    [|vm_compute; reflexivity].
  apply andb_prop in Hs. destruct Hs as [Hs H3].
  apply andb_prop in Hs. destruct Hs as [H1 H2].
  apply Z.ltb_lt in H1. apply negb_true_iff in H3. auto.
Qed.

Lemma list_ind3 {A : Type} (P : list A -> Prop) :
  P [] ->
  (forall a, P [a]) ->
  (forall a b, P [a; b]) ->
  (forall a b c l, P l -> P (a :: b :: c :: l)) ->
  forall l, P l.
Proof.
  intros H0 H1 H2 H3.
  assert (H : forall l, P l /\ (forall a, P (a :: l)) /\ (forall a b, P (a :: b :: l))).
  { induction l as [|x l (IH0 & IH1 & IH2)]; [auto|].
    split; [apply IH1|]. split; [intros a; apply IH2|].
    intros a b. apply H3. exact IH0. }
  intros l. apply H.
Qed.

(** The 24-bit number of three bytes and its four sextets. *)
Lemma triple_number x y z :
  0 <= x < 256 -> 0 <= y < 256 -> 0 <= z < 256 ->
  Z.lor (Z.lor (Z.shiftl x 16) (Z.shiftl y 8)) z = x * 65536 + y * 256 + z.
Proof.
  intros Hx Hy Hz.
  rewrite (Z.shiftl_mul_pow2 y 8) by lia.
  rewrite (lor_shiftl_low x (y * 2 ^ 8) 16) by lia.
  replace (x * 2 ^ 16 + y * 2 ^ 8) with (Z.shiftl (x * 256 + y) 8)
    by (rewrite Z.shiftl_mul_pow2 by lia; lia).
  rewrite (lor_shiftl_low (x * 256 + y) z 8) by lia. lia.
Qed.

Lemma pair_number x y :
  0 <= x < 256 -> 0 <= y < 256 ->
  Z.lor (Z.shiftl x 16) (Z.shiftl y 8) = x * 65536 + y * 256.
Proof.
  intros Hx Hy.
  rewrite (Z.shiftl_mul_pow2 y 8) by lia.
  rewrite (lor_shiftl_low x (y * 2 ^ 8) 16) by lia. lia.
Qed.

Lemma sextets_number s0 s1 s2 s3 :
  0 <= s0 < 64 -> 0 <= s1 < 64 -> 0 <= s2 < 64 -> 0 <= s3 < 64 ->
  Z.lor (Z.shiftl s0 18) (Z.shiftl s1 12) = s0 * 262144 + s1 * 4096
  /\ Z.lor (Z.lor (Z.shiftl s0 18) (Z.shiftl s1 12)) (Z.shiftl s2 6)
     = s0 * 262144 + s1 * 4096 + s2 * 64
  /\ Z.lor (Z.lor (Z.lor (Z.shiftl s0 18) (Z.shiftl s1 12)) (Z.shiftl s2 6)) s3
     = s0 * 262144 + s1 * 4096 + s2 * 64 + s3.
Proof.
  intros H0 H1 H2 H3.
  assert (E1 : Z.lor (Z.shiftl s0 18) (Z.shiftl s1 12) = s0 * 262144 + s1 * 4096).
  { rewrite (Z.shiftl_mul_pow2 s1 12) by lia.
    rewrite (lor_shiftl_low s0 (s1 * 2 ^ 12) 18) by lia. lia. }
  assert (E2 : Z.lor (s0 * 262144 + s1 * 4096) (Z.shiftl s2 6)
               = s0 * 262144 + s1 * 4096 + s2 * 64).
  { rewrite (Z.shiftl_mul_pow2 s2 6) by lia.
    replace (s0 * 262144 + s1 * 4096) with (Z.shiftl (s0 * 64 + s1) 12)
      by (rewrite Z.shiftl_mul_pow2 by lia; lia).
    rewrite (lor_shiftl_low (s0 * 64 + s1) (s2 * 2 ^ 6) 12) by lia.
    rewrite Z.shiftl_mul_pow2 by lia. lia. }
  assert (E3 : Z.lor (s0 * 262144 + s1 * 4096 + s2 * 64) s3
               = s0 * 262144 + s1 * 4096 + s2 * 64 + s3).
  { replace (s0 * 262144 + s1 * 4096 + s2 * 64)
      with (Z.shiftl (s0 * 4096 + s1 * 64 + s2) 6)
      by (rewrite Z.shiftl_mul_pow2 by lia; lia).
    rewrite (lor_shiftl_low (s0 * 4096 + s1 * 64 + s2) s3 6) by lia.
    rewrite Z.shiftl_mul_pow2 by lia. lia. }
  rewrite E1, E2, E3. auto.
Qed.

Lemma mod64_range n : 0 <= n mod 64 < 64.
Proof. apply Z.mod_pos_bound. lia. Qed.

(** Reading the encoding of bytes gives the bytes back. *)
Lemma base64_decode_encode data :
  base64_decode (Base64.b64encode data) = Some data.
Proof.
  induction data as [| b0 | b0 b1 | b0 b1 b2 rest IH] using list_ind3.
  - reflexivity.
  - cbn [Base64.b64encode base64_decode].
    pose proof (byte_value_range b0) as H0.
    set (x := Base64.byte_value b0) in *.
    rewrite Z.shiftl_mul_pow2 by lia.
    rewrite !sextet_spec by lia.
    rewrite !alphabet_value by apply mod64_range.
    change (is_pad Base64.pad) with true. cbn [andb].
    destruct (sextets_number ((x * 2 ^ 16 / 2 ^ 18) mod 64)
                ((x * 2 ^ 16 / 2 ^ 12) mod 64) 0 0) as (E1 & _ & _);
      try apply mod64_range; try lia.
    rewrite E1, octet_spec by lia.
    replace (((x * 2 ^ 16 / 2 ^ 18) mod 64 * 262144
              + (x * 2 ^ 16 / 2 ^ 12) mod 64 * 4096) / 2 ^ 16 mod 256) with x.
    + unfold x. rewrite byte_of_value. reflexivity.
    + change (2 ^ 16) with 65536. change (2 ^ 18) with 262144.
      change (2 ^ 12) with 4096. Z.div_mod_to_equations. lia.
  - cbn [Base64.b64encode base64_decode].
    pose proof (byte_value_range b0) as H0.
    pose proof (byte_value_range b1) as H1.
    set (x := Base64.byte_value b0) in *.
    set (y := Base64.byte_value b1) in *.
    rewrite pair_number by lia.
    rewrite !sextet_spec by lia.
    rewrite !alphabet_value by apply mod64_range.
    rewrite (alphabet_not_pad _ (mod64_range _)). cbn [andb].
    change (is_pad Base64.pad) with true. cbv iota.
    set (n := x * 65536 + y * 256).
    destruct (sextets_number ((n / 2 ^ 18) mod 64) ((n / 2 ^ 12) mod 64)
                ((n / 2 ^ 6) mod 64) 0) as (_ & E2 & _);
      try apply mod64_range; try lia.
    rewrite E2, !octet_spec by lia.
    assert (En : (n / 2 ^ 18) mod 64 * 262144 + (n / 2 ^ 12) mod 64 * 4096
                 + (n / 2 ^ 6) mod 64 * 64 = n).
    { unfold n. change (2 ^ 18) with 262144. change (2 ^ 12) with 4096.
      change (2 ^ 6) with 64. Z.div_mod_to_equations. lia. }
    rewrite En.
    replace ((n / 2 ^ 16) mod 256) with x
      by (unfold n; change (2 ^ 16) with 65536; Z.div_mod_to_equations; lia).
    replace ((n / 2 ^ 8) mod 256) with y
      by (unfold n; change (2 ^ 8) with 256; Z.div_mod_to_equations; lia).
    unfold x, y. rewrite !byte_of_value. reflexivity.
  - cbn [Base64.b64encode base64_decode].
    pose proof (byte_value_range b0) as H0.
    pose proof (byte_value_range b1) as H1.
    pose proof (byte_value_range b2) as H2.
    set (x := Base64.byte_value b0) in *.
    set (y := Base64.byte_value b1) in *.
    set (z := Base64.byte_value b2) in *.
    rewrite triple_number by lia.
    rewrite !sextet_spec by lia.
    rewrite !alphabet_value by apply mod64_range.
    rewrite !(alphabet_not_pad _ (mod64_range _)). cbn [andb]. cbv iota.
    set (n := x * 65536 + y * 256 + z).
    destruct (sextets_number ((n / 2 ^ 18) mod 64) ((n / 2 ^ 12) mod 64)
                ((n / 2 ^ 6) mod 64) ((n / 2 ^ 0) mod 64)) as (_ & _ & E3);
      try apply mod64_range.
    rewrite E3, !octet_spec by lia.
    assert (En : (n / 2 ^ 18) mod 64 * 262144 + (n / 2 ^ 12) mod 64 * 4096
                 + (n / 2 ^ 6) mod 64 * 64 + (n / 2 ^ 0) mod 64 = n).
    { unfold n. change (2 ^ 18) with 262144. change (2 ^ 12) with 4096.
      change (2 ^ 6) with 64. change (2 ^ 0) with 1.
      Z.div_mod_to_equations. lia. }
    rewrite En, IH. cbn [option_map].
    replace ((n / 2 ^ 16) mod 256) with x
      by (unfold n; change (2 ^ 16) with 65536; Z.div_mod_to_equations; lia).
    replace ((n / 2 ^ 8) mod 256) with y
      by (unfold n; change (2 ^ 8) with 256; Z.div_mod_to_equations; lia).
    replace ((n / 2 ^ 0) mod 256) with z
      by (unfold n; change (2 ^ 0) with 1; Z.div_mod_to_equations; lia).
    unfold x, y, z. rewrite !byte_of_value. reflexivity.
Qed.

Lemma b64encode_length data :
  List.length (Base64.b64encode data)
  = (4 * ((List.length data + 2) / 3))%nat.
Proof.
  induction data as [| b0 | b0 b1 | b0 b1 b2 rest IH] using list_ind3;
    try reflexivity.
  cbn [Base64.b64encode List.length]. rewrite IH.
  replace (S (S (S (List.length rest))) + 2)%nat
    with ((List.length rest + 2) + 1 * 3)%nat by lia.
  rewrite Nat.div_add by lia. lia.
Qed.

Lemma sextet_char n k :
  0 <= k ->
  Base64.byte_value (Base64.sextet n k) < 128
  /\ is_base64_char (ascii_of_byte (Base64.sextet n k)) = true
  /\ Ascii.eqb (ascii_of_byte (Base64.sextet n k)) "=" = false.
Proof.
  intros Hk. rewrite sextet_spec by exact Hk.
  apply alphabet_char. apply mod64_range.
Qed.

Lemma sextet_alphabet_char n k :
  0 <= k -> is_alphabet_char (ascii_of_byte (Base64.sextet n k)) = true.
Proof.
  intros Hk. destruct (sextet_char n k Hk) as (_ & H1 & H2).
  unfold is_alphabet_char. rewrite H1, H2. reflexivity.
Qed.

Lemma sextet_below_128 n k : 0 <= k -> Base64.byte_value (Base64.sextet n k) < 128.
Proof. intros Hk. apply (sextet_char n k Hk). Qed.

Lemma b64encode_ascii data :
  Forall (fun b => Base64.byte_value b < 128) (Base64.b64encode data).
Proof.
  assert (Hpad : Base64.byte_value Base64.pad < 128) by (vm_compute; reflexivity).
  induction data as [| b0 | b0 b1 | b0 b1 b2 rest IH] using list_ind3;
    cbn [Base64.b64encode].
  - apply List.Forall_nil.
  - apply List.Forall_cons; [apply sextet_below_128; lia|].
    apply List.Forall_cons; [apply sextet_below_128; lia|].
    apply List.Forall_cons; [exact Hpad|].
    apply List.Forall_cons; [exact Hpad|]. apply List.Forall_nil.
  - apply List.Forall_cons; [apply sextet_below_128; lia|].
    apply List.Forall_cons; [apply sextet_below_128; lia|].
    apply List.Forall_cons; [apply sextet_below_128; lia|].
    apply List.Forall_cons; [exact Hpad|]. apply List.Forall_nil.
  - apply List.Forall_cons; [apply sextet_below_128; lia|].
    apply List.Forall_cons; [apply sextet_below_128; lia|].
    apply List.Forall_cons; [apply sextet_below_128; lia|].
    apply List.Forall_cons; [apply sextet_below_128; lia|]. exact IH.
Qed.

Lemma decode_utf8_ascii data :
  Forall (fun b => Base64.byte_value b < 128) data ->
  decode_utf8 data = Some (bytes_text data).
Proof.
  induction 1 as [|b rest Hb _ IH]; [reflexivity|].
  cbn [decode_utf8]. apply Z.ltb_lt in Hb. rewrite Hb, IH. reflexivity.
Qed.

Lemma ascii_bytes_text data : ascii_bytes (bytes_text data) = data.
Proof.
  unfold ascii_bytes, bytes_text. rewrite list_ascii_of_string_of_list_ascii.
  rewrite map_map. rewrite <- (map_id data) at 2.
  apply map_ext. intros b. apply byte_of_ascii_of_byte.
Qed.

Lemma bytes_text_length data :
  String.length (bytes_text data) = List.length data.
Proof.
  unfold bytes_text. induction data as [|b rest IH]; simpl; [reflexivity|].
  rewrite IH. reflexivity.
Qed.

Lemma bytes_text_app a b : bytes_text (a ++ b) = bytes_text a ++ bytes_text b.
Proof.
  unfold bytes_text. induction a as [|x a IH]; simpl; [reflexivity|].
  rewrite IH. reflexivity.
Qed.

Lemma encode_file_text read_bytes path data :
  read_bytes path = Some data ->
  encode_file read_bytes path = Some (bytes_text (Base64.b64encode data)).
Proof.
  intros H. unfold encode_file. rewrite H.
  apply decode_utf8_ascii, b64encode_ascii.
Qed.

Lemma encode_file_inv read_bytes path text :
  encode_file read_bytes path = Some text ->
  exists data,
    read_bytes path = Some data /\ text = bytes_text (Base64.b64encode data).
Proof.
  intros H. destruct (read_bytes path) as [data|] eqn:Hread.
  - exists data. split; [reflexivity|].
    rewrite (encode_file_text read_bytes path data Hread) in H. congruence.
  - unfold encode_file in H. rewrite Hread in H. discriminate H.
Qed.

(** The encoding is a text of the alphabet followed by the padding. *)
Lemma b64encode_shape data :
  exists body,
    bytes_text (Base64.b64encode data) = body ++ padding (List.length data)
    /\ Text.string_forall is_alphabet_char body = true.
Proof.
  induction data as [| b0 | b0 b1 | b0 b1 b2 rest (body & Hbody & Hall)]
    using list_ind3.
  - exists "". split; reflexivity.
  - cbn [Base64.b64encode].
    set (n := Z.shiftl (Base64.byte_value b0) 16).
    exists (bytes_text [Base64.sextet n 18; Base64.sextet n 12]). split.
    + reflexivity.
    + unfold bytes_text.
      cbn [map string_of_list_ascii Text.string_forall].
      rewrite !sextet_alphabet_char by lia. reflexivity.
  - cbn [Base64.b64encode].
    set (n := Z.lor _ _).
    exists (bytes_text [Base64.sextet n 18; Base64.sextet n 12; Base64.sextet n 6]).
    split.
    + reflexivity.
    + unfold bytes_text.
      cbn [map string_of_list_ascii Text.string_forall].
      rewrite !sextet_alphabet_char by lia. reflexivity.
  - cbn [Base64.b64encode].
    set (n := Z.lor _ _).
    exists (bytes_text [Base64.sextet n 18; Base64.sextet n 12;
                        Base64.sextet n 6; Base64.sextet n 0] ++ body).
    split.
    + change (Base64.sextet n 18 :: Base64.sextet n 12 :: Base64.sextet n 6
              :: Base64.sextet n 0 :: Base64.b64encode rest)
        with ([Base64.sextet n 18; Base64.sextet n 12; Base64.sextet n 6;
               Base64.sextet n 0] ++ Base64.b64encode rest)%list.
      rewrite bytes_text_app, Hbody, string_app_assoc.
      f_equal. unfold padding. cbn [List.length].
      replace (S (S (S (List.length rest)))) with (List.length rest + 1 * 3)%nat
        by lia.
      rewrite Nat.Div0.mod_add. reflexivity.
    + rewrite string_forall_app, Hall. unfold bytes_text.
      cbn [map string_of_list_ascii Text.string_forall].
      rewrite !sextet_alphabet_char by lia. reflexivity.
Qed.

Lemma alphabet_char_base64 s :
  Text.string_forall is_alphabet_char s = true ->
  Text.string_forall is_base64_char s = true.
Proof.
  induction s as [|a s IH]; simpl; [reflexivity|].
  intros H. apply andb_prop in H. destruct H as [Ha Hs].
  unfold is_alphabet_char in Ha. apply andb_prop in Ha. destruct Ha as [Ha _].
  rewrite Ha, (IH Hs). reflexivity.
Qed.

(** X1: [encode_file] fails exactly when the file cannot be read; on a
    readable file the result is a text of four characters for every three
    bytes of the file, rounded up, so the empty text for an empty file. *)
Theorem encode_file_length (read_bytes : string -> option (list Byte.byte))
    (path : string) :
  (encode_file read_bytes path = None <-> read_bytes path = None)
  /\ (forall data,
        read_bytes path = Some data ->
        exists text,
          encode_file read_bytes path = Some text
          /\ String.length text = (4 * ((List.length data + 2) / 3))%nat).
Proof.
  split.
  - split; intros H.
    + destruct (read_bytes path) as [data|] eqn:Hread; [|reflexivity].
      rewrite (encode_file_text read_bytes path data Hread) in H. discriminate H.
    + unfold encode_file. rewrite H. reflexivity.
  - intros data Hread. exists (bytes_text (Base64.b64encode data)).
    split; [apply encode_file_text; exact Hread|].
    rewrite bytes_text_length. apply b64encode_length.
Qed.

(** X2: the text [encode_file] returns is made of letters, digits, [+] and
    [/], followed by [==] when the file size leaves a remainder of one byte
    modulo three, by [=] for a remainder of two, and by nothing otherwise: no
    line break or other character ever appears in it. *)
Theorem encode_file_alphabet (read_bytes : string -> option (list Byte.byte))
    (path text : string) :
  encode_file read_bytes path = Some text ->
  Text.string_forall is_base64_char text = true
  /\ exists data body,
       read_bytes path = Some data
       /\ text = body ++ padding (List.length data)
       /\ Text.string_forall is_alphabet_char body = true.
Proof.
  intros H. destruct (encode_file_inv read_bytes path text H) as (data & Hread & ->).
  destruct (b64encode_shape data) as (body & Hbody & Hall).
  split.
  - rewrite Hbody, string_forall_app, (alphabet_char_base64 body Hall).
    unfold padding. destruct (List.length data mod 3)%nat as [|[|k]]; reflexivity.
  - exists data, body. auto.
Qed.

Lemma encode_file_alphabet_witness :
  encode_file (fun _ => Some [Byte.x4d; Byte.x61]) "receipt.jpg" = Some "TWE="
  /\ Text.string_forall is_base64_char "TWE=" = true.
Proof.
  assert (H : encode_file (fun _ => Some [Byte.x4d; Byte.x61]) "receipt.jpg"
              = Some "TWE=") by reflexivity.
  split; [exact H|].
  exact (proj1 (encode_file_alphabet (fun _ => Some [Byte.x4d; Byte.x61])
                  "receipt.jpg" "TWE=" H)).
Defined.

(** X3: the bytes of the file are recovered from the text [encode_file]
    returns by reading its characters as base64, so two files with the same
    text have the same bytes. *)
Theorem encode_file_round_trip (read_bytes : string -> option (list Byte.byte))
    (path text : string) :
  encode_file read_bytes path = Some text ->
  read_bytes path = base64_decode (ascii_bytes text)
  /\ forall other,
       encode_file read_bytes other = Some text ->
       read_bytes other = read_bytes path.
Proof.
  intros H. destruct (encode_file_inv read_bytes path text H) as (data & Hread & ->).
  assert (Hdec : base64_decode (ascii_bytes (bytes_text (Base64.b64encode data)))
                 = Some data)
    by (rewrite ascii_bytes_text; apply base64_decode_encode).
  split; [rewrite Hread, Hdec; reflexivity|].
  intros other Hother.
  destruct (encode_file_inv read_bytes other _ Hother) as (data' & Hread' & Heq).
  rewrite Hread, Hread'. f_equal.
  apply (f_equal ascii_bytes) in Heq. rewrite !ascii_bytes_text in Heq.
  apply (f_equal base64_decode) in Heq.
  rewrite !base64_decode_encode in Heq. congruence.
Qed.

Lemma encode_file_round_trip_witness :
  encode_file (fun _ => Some [Byte.x4d; Byte.x61]) "receipt.jpg" = Some "TWE="
  /\ Some [Byte.x4d; Byte.x61] = base64_decode (ascii_bytes "TWE=").
Proof.
  assert (H : encode_file (fun _ => Some [Byte.x4d; Byte.x61]) "receipt.jpg"
              = Some "TWE=") by reflexivity.
  split; [exact H|].
  exact (proj1 (encode_file_round_trip (fun _ => Some [Byte.x4d; Byte.x61])
                  "receipt.jpg" "TWE=" H)).
Defined.

(** ** [list_files] *)

Lemma ends_with_sep_app_sep a : Posixpath.ends_with_sep (a ++ "/") = true.
Proof.
  induction a as [|c a IH]; [reflexivity|].
  change (String c a ++ "/") with (String c (a ++ "/")).
  cbn [Posixpath.ends_with_sep]. rewrite IH.
  destruct (a ++ "/") eqn:Ha; [|reflexivity].
  destruct a; discriminate Ha.
Qed.

Lemma join_relative a b :
  Posixpath.starts_with_sep b = false ->
  Posixpath.join a b = directory_prefix a ++ b.
Proof.
  intros Hb. unfold Posixpath.join, directory_prefix. rewrite Hb.
  destruct (String.eqb a "" || Posixpath.ends_with_sep a); [reflexivity|].
  rewrite string_app_assoc. reflexivity.
Qed.

Lemma join_trailing_sep a b :
  a <> "" -> Posixpath.ends_with_sep a = false ->
  Posixpath.join (a ++ "/") b = Posixpath.join a b.
Proof.
  intros Ha Hsep. unfold Posixpath.join.
  destruct (Posixpath.starts_with_sep b); [reflexivity|].
  rewrite ends_with_sep_app_sep, orb_true_r, Hsep, orb_false_r.
  apply String.eqb_neq in Ha. rewrite Ha.
  apply string_app_assoc.
Qed.

Lemma string_app_inv_head a b c : (a ++ b = a ++ c)%string -> b = c.
Proof.
  induction a as [|x a IH]; [auto|].
  intros H. change (String x (a ++ b) = String x (a ++ c)) in H.
  injection H as H. auto.
Qed.

Lemma flat_map_yield {A B : Type} (keep : A -> bool) (f : A -> B) (xs : list A) :
  flat_map (fun x => if keep x then [f x] else []) xs
  = map f (List.filter keep xs).
Proof.
  induction xs as [|x xs IH]; simpl; [reflexivity|].
  destruct (keep x); simpl; rewrite IH; reflexivity.
Qed.

Lemma list_files_filter listdir isfile dirpath names :
  listdir dirpath = Some names ->
  list_files listdir isfile dirpath
  = Some (map (fun name => (name, Posixpath.join dirpath name))
            (List.filter (fun name => isfile (Posixpath.join dirpath name)) names)).
Proof.
  intros H. unfold list_files. rewrite H. f_equal.
  apply (flat_map_yield (fun name => isfile (Posixpath.join dirpath name))
           (fun name => (name, Posixpath.join dirpath name))).
Qed.

Lemma NoDup_filter_list {A : Type} (keep : A -> bool) (xs : list A) :
  List.NoDup xs -> List.NoDup (List.filter keep xs).
Proof.
  induction 1 as [|x xs Hx _ IH]; simpl; [constructor|].
  destruct (keep x); [|exact IH].
  constructor; [|exact IH].
  intros Hin. apply List.filter_In in Hin. apply Hx, Hin.
Qed.

Lemma NoDup_map_injective {A B : Type} (f : A -> B) (xs : list A) :
  (forall x y, In x xs -> In y xs -> f x = f y -> x = y) ->
  List.NoDup xs -> List.NoDup (map f xs).
Proof.
  intros Hinj Hnd. induction Hnd as [|x xs Hx _ IH]; simpl; [constructor|].
  constructor.
  - intros Hin. apply List.in_map_iff in Hin. destruct Hin as (y & Hy & Hin).
    assert (y = x) by (apply Hinj; [right; exact Hin | left; reflexivity | exact Hy]).
    subst y. exact (Hx Hin).
  - apply IH. intros y z Hy Hz. apply Hinj; right; assumption.
Qed.

(** X4: [list_files] fails exactly when the directory cannot be listed.
    Otherwise it yields, in the order of the listing, one pair for each entry
    that is a regular file and none for any other entry; the path of a pair
    is [os.path.join(dirpath, name)], which for the relative names a listing
    holds is the directory, a separator unless the directory already ends
    with one, and the name; and distinct entries give distinct names and
    distinct paths. *)
Theorem list_files_yields (listdir : string -> option (list string))
    (isfile : string -> bool) (dirpath : string) :
  (list_files listdir isfile dirpath = None <-> listdir dirpath = None)
  /\ forall names,
       listdir dirpath = Some names ->
       exists files,
         list_files listdir isfile dirpath = Some files
         /\ map fst files
            = List.filter (fun name => isfile (Posixpath.join dirpath name)) names
         /\ (forall name path,
               In (name, path) files <->
               In name names /\ path = Posixpath.join dirpath name
               /\ isfile path = true)
         /\ (Forall (fun name => Posixpath.starts_with_sep name = false) names ->
             map snd files
             = map (fun name => directory_prefix dirpath ++ name) (map fst files))
         /\ (List.NoDup names -> List.NoDup (map fst files))
         /\ (List.NoDup names ->
             Forall (fun name => Posixpath.starts_with_sep name = false) names ->
             List.NoDup (map snd files)).
Proof.
  split.
  - unfold list_files. destruct (listdir dirpath); split; intros H;
      first [discriminate H | reflexivity].
  - intros names Hnames.
    set (keep := fun name => isfile (Posixpath.join dirpath name)).
    exists (map (fun name => (name, Posixpath.join dirpath name))
              (List.filter keep names)).
    assert (Hfst : map fst (map (fun name => (name, Posixpath.join dirpath name))
                              (List.filter keep names)) = List.filter keep names).
    { rewrite map_map. simpl. apply map_id. }
    assert (Hsnd : Forall (fun name => Posixpath.starts_with_sep name = false) names ->
      map snd (map (fun name => (name, Posixpath.join dirpath name))
                 (List.filter keep names))
      = map (fun name => directory_prefix dirpath ++ name) (List.filter keep names)).
    { intros Hrel. rewrite map_map. simpl. apply map_ext_in. intros name Hin.
      apply List.filter_In in Hin. destruct Hin as [Hin _].
      apply join_relative. rewrite List.Forall_forall in Hrel. apply Hrel, Hin. }
    split; [apply list_files_filter; exact Hnames|].
    split; [exact Hfst|]. split; [|split; [|split]].
    + intros name path. rewrite List.in_map_iff. split.
      * intros (n & Heq & Hin). injection Heq as <- <-.
        apply List.filter_In in Hin. destruct Hin as [Hin Hk]. auto.
      * intros (Hin & -> & Hk). exists name. split; [reflexivity|].
        apply List.filter_In. auto.
    + intros Hrel. rewrite Hfst. apply Hsnd, Hrel.
    + intros Hnd. rewrite Hfst. apply NoDup_filter_list, Hnd.
    + intros Hnd Hrel. rewrite (Hsnd Hrel).
      apply NoDup_map_injective; [|apply NoDup_filter_list, Hnd].
      intros x y _ _ Heq. exact (string_app_inv_head _ _ _ Heq).
Qed.

(** X5: a separator at the end of the directory makes no difference:
    when the listing of [dirpath/] is that of [dirpath], the same names are
    yielded with the same paths. *)
Theorem list_files_trailing_separator (listdir : string -> option (list string))
    (isfile : string -> bool) (dirpath : string) :
  dirpath <> "" ->
  Posixpath.ends_with_sep dirpath = false ->
  listdir (dirpath ++ "/") = listdir dirpath ->
  list_files listdir isfile (dirpath ++ "/") = list_files listdir isfile dirpath.
Proof.
  intros Hne Hsep Hlist. unfold list_files. rewrite Hlist.
  destruct (listdir dirpath) as [names|]; [|reflexivity].
  f_equal. apply flat_map_ext. intros name.
  rewrite (join_trailing_sep dirpath name Hne Hsep). reflexivity.
Qed.

Lemma list_files_trailing_separator_witness :
  list_files (fun _ => Some ["a.jpg"; "sub"; "b.png"])
    (fun path => negb (String.eqb path "receipts/sub")) "receipts/"
  = list_files (fun _ => Some ["a.jpg"; "sub"; "b.png"])
      (fun path => negb (String.eqb path "receipts/sub")) "receipts".
Proof.
  apply (list_files_trailing_separator (fun _ => Some ["a.jpg"; "sub"; "b.png"])
           (fun path => negb (String.eqb path "receipts/sub")) "receipts");
    [discriminate | reflexivity | reflexivity].
Defined.

(** ** [process_directory] over the files of a directory *)

Lemma collection_set_fresh (results : collection) name data :
  ~ In name (map fst results) ->
  collection_set results name data = (results ++ [(name, data)])%list.
Proof.
  induction results as [|[k v] rest IH]; simpl; [reflexivity|].
  intros Hnot. destruct (String.eqb k name) eqn:Hk.
  - apply String.eqb_eq in Hk. exfalso. apply Hnot. left. exact Hk.
  - rewrite IH; [reflexivity|]. intros Hin. apply Hnot. right. exact Hin.
Qed.

Lemma process_directory_fold list_files encode_file extract_receipt_info dirpath :
  process_directory list_files encode_file extract_receipt_info dirpath
  = fold_left
      (fun (results : collection) (file : string * string) =>
         collection_set results (fst file)
           (stored_record encode_file extract_receipt_info (snd file)))
      (list_files dirpath) [].
Proof.
  unfold process_directory. generalize (@nil (string * receipt)).
  induction (list_files dirpath) as [|[name path] rest IH]; intros acc;
    [reflexivity|].
  simpl. apply IH.
Qed.

(** X6: when the files listed have distinct names, the collection holds
    exactly one record per file, in the order of the listing, under the file's
    name: what the extraction returned for the encoding of that file, with
    the amount normalised. *)
Theorem process_directory_records
    (list_files : string -> list (string * string))
    (encode_file : string -> string)
    (extract_receipt_info : string -> receipt) (dirpath : string) :
  List.NoDup (map fst (list_files dirpath)) ->
  process_directory list_files encode_file extract_receipt_info dirpath
  = map (fun file =>
           (fst file, stored_record encode_file extract_receipt_info (snd file)))
      (list_files dirpath).
Proof.
  intros Hnd. rewrite process_directory_fold.
  set (record := fun file : string * string =>
         (fst file, stored_record encode_file extract_receipt_info (snd file))).
  assert (Hgen : forall files (acc : collection),
    List.NoDup (map fst acc ++ map fst files) ->
    fold_left
      (fun (results : collection) (file : string * string) =>
         collection_set results (fst file)
           (stored_record encode_file extract_receipt_info (snd file)))
      files acc
    = (acc ++ map record files)%list).
  { induction files as [|file rest IH]; intros acc Hacc; simpl.
    - rewrite app_nil_r. reflexivity.
    - rewrite collection_set_fresh.
      + rewrite IH.
        * rewrite <- app_assoc. reflexivity.
        * rewrite map_app. simpl. rewrite <- app_assoc. exact Hacc.
      + simpl in Hacc. apply List.NoDup_remove_2 in Hacc.
        intros Hin. apply Hacc. apply in_or_app. left. exact Hin. }
  apply (Hgen (list_files dirpath) []). exact Hnd.
Qed.

Lemma process_directory_records_witness :
  List.NoDup (map fst [("a.jpg", "receipts/a.jpg"); ("b.png", "receipts/b.png")])
  /\ process_directory
       (fun _ => [("a.jpg", "receipts/a.jpg"); ("b.png", "receipts/b.png")])
       (fun path => path) (fun image => <["amount" := VStr "$5"]> ∅) "receipts"
     = [ ("a.jpg", <["amount" := VFloat (lit 5.0)]> ∅);
         ("b.png", <["amount" := VFloat (lit 5.0)]> ∅) ].
Proof.
  assert (Hnd : List.NoDup
    (map fst [("a.jpg", "receipts/a.jpg"); ("b.png", "receipts/b.png")])).
  { simpl. constructor; [intros [H | []]; discriminate H|].
    constructor; [intros []|]. constructor. }
  split; [exact Hnd|].
  rewrite (process_directory_records
             (fun _ => [("a.jpg", "receipts/a.jpg"); ("b.png", "receipts/b.png")])
             (fun path => path) (fun image => <["amount" := VStr "$5"]> ∅)
             "receipts" Hnd).
  vm_compute. reflexivity.
Defined.

(** ** [parse_date] *)

Lemma in_range_code lo hi c :
  Strptime.in_range lo hi c = true -> lo <= Text.code c <= hi.
Proof. unfold Strptime.in_range. intros H. apply andb_prop in H. lia. Qed.

Lemma is_digit_code c : Text.is_digit c = true -> 48 <= Text.code c <= 57.
Proof. unfold Text.is_digit. intros H. apply andb_prop in H. lia. Qed.

Lemma month_alternatives_range s m r :
  In (m, r) (Strptime.month_alternatives s) -> 1 <= m <= 12.
Proof.
  unfold Strptime.month_alternatives. intros H.
  apply in_app_or in H. destruct H as [H | H]; [|apply in_app_or in H; destruct H as [H | H]].
  - destruct s as [|a t]; [destruct H|].
    destruct t as [|b t]; [each_char a; destruct H|].
    each_char a; try destruct H.
    destruct (Strptime.in_range 48 50 b) eqn:Hb; [|destruct H].
    apply in_range_code in Hb. destruct H as [H | []].
    injection H as <- _. unfold Strptime.digit. lia.
  - destruct s as [|a t]; [destruct H|].
    destruct t as [|b t]; [each_char a; destruct H|].
    each_char a; try destruct H.
    destruct (Strptime.in_range 49 57 b) eqn:Hb; [|destruct H].
    apply in_range_code in Hb. destruct H as [H | []].
    injection H as <- _. unfold Strptime.digit. lia.
  - destruct s as [|a t]; [destruct H|].
    destruct (Strptime.in_range 49 57 a) eqn:Ha; [|destruct H].
    apply in_range_code in Ha. destruct H as [H | []].
    injection H as <- _. unfold Strptime.digit. lia.
Qed.

Lemma day_alternatives_range s d r :
  In (d, r) (Strptime.day_alternatives s) -> 1 <= d <= 31.
Proof.
  unfold Strptime.day_alternatives. intros H.
  repeat (apply in_app_or in H; destruct H as [H | H]).
  - destruct s as [|a t]; [destruct H|].
    destruct t as [|b t]; [each_char a; destruct H|].
    each_char a; try destruct H.
    destruct (Strptime.in_range 48 49 b) eqn:Hb; [|destruct H].
    apply in_range_code in Hb. destruct H as [H | []].
    injection H as <- _. unfold Strptime.digit. lia.
  - destruct s as [|a [|b t]]; try destruct H.
    destruct (Strptime.in_range 49 50 a && Text.is_digit b) eqn:Hab; [|destruct H].
    apply andb_prop in Hab. destruct Hab as [Ha Hb].
    apply in_range_code in Ha. apply is_digit_code in Hb.
    destruct H as [H | []]. injection H as <- _. unfold Strptime.digit. lia.
  - destruct s as [|a t]; [destruct H|].
    destruct t as [|b t]; [each_char a; destruct H|].
    each_char a; try destruct H.
    destruct (Strptime.in_range 49 57 b) eqn:Hb; [|destruct H].
    apply in_range_code in Hb. destruct H as [H | []].
    injection H as <- _. unfold Strptime.digit. lia.
  - destruct s as [|a t]; [destruct H|].
    destruct (Strptime.in_range 49 57 a) eqn:Ha; [|destruct H].
    apply in_range_code in Ha. destruct H as [H | []].
    injection H as <- _. unfold Strptime.digit. lia.
  - destruct s as [|a t]; [destruct H|].
    destruct t as [|b t]; [each_char a; destruct H|].
    each_char a; try destruct H.
    destruct (Strptime.in_range 49 57 b) eqn:Hb; [|destruct H].
    apply in_range_code in Hb. destruct H as [H | []].
    injection H as <- _. unfold Strptime.digit. lia.
Qed.

Lemma find_In {A : Type} (p : A -> bool) (xs : list A) x :
  find p xs = Some x -> In x xs.
Proof. intros H. apply find_some in H. apply H. Qed.

Lemma strptime_valid s d : Strptime.strptime s = Some d -> valid_date d.
Proof.
  unfold Strptime.strptime.
  destruct s as [|y1 [|y2 [|y3 [|y4 [|dash r]]]]]; try discriminate.
  destruct (Ascii.eqb dash "-") eqn:Hdash;
    [apply Ascii.eqb_eq in Hdash; subst dash
    |each_char dash; first [discriminate Hdash | discriminate]].
  destruct (Text.is_digit y1 && Text.is_digit y2 && Text.is_digit y3
            && Text.is_digit y4) eqn:Hy; [|discriminate].
  apply andb_prop in Hy. destruct Hy as [Hy H4].
  apply andb_prop in Hy. destruct Hy as [Hy H3].
  apply andb_prop in Hy. destruct Hy as [H1 H2].
  apply is_digit_code in H1, H2, H3, H4.
  destruct (find Strptime.starts_with_dash (Strptime.month_alternatives r))
    as [[m r1]|] eqn:Hm; [|discriminate].
  apply find_In in Hm. apply month_alternatives_range in Hm.
  destruct r1 as [|c r2]; [discriminate|].
  destruct (Strptime.day_alternatives r2) as [|[dd rest] others] eqn:Hd;
    [discriminate|].
  assert (Hday : 1 <= dd <= 31).
  { apply (day_alternatives_range r2 dd rest). rewrite Hd. left. reflexivity. }
  destruct rest; [|discriminate].
  match goal with
  | |- context [(1 <=? ?y) && _] => set (yy := y)
  end.
  destruct ((1 <=? yy) && (dd <=? Strptime.days_in_month yy m)) eqn:Hok;
    [|discriminate].
  intros H. injection H as <-. apply andb_prop in Hok. destruct Hok as [Hy1 Hd1].
  unfold valid_date. simpl. unfold yy, Strptime.digit in *. lia.
Qed.

Lemma strptime_digit_char k : is_decimal k -> Strptime.digit (Float.digit_char k) = k.
Proof. intros H. each_decimal H; reflexivity. Qed.

Lemma strptime_year a b c e r :
  is_decimal a -> is_decimal b -> is_decimal c -> is_decimal e ->
  Strptime.strptime
    (String (Float.digit_char a) (String (Float.digit_char b)
       (String (Float.digit_char c) (String (Float.digit_char e) (String "-" r)))))
  = let y := 1000 * a + 100 * b + 10 * c + e in
    match find Strptime.starts_with_dash (Strptime.month_alternatives r) with
    | Some (m, String _ r') =>
        match Strptime.day_alternatives r' with
        | (d, EmptyString) :: _ =>
            if (1 <=? y) && (d <=? Strptime.days_in_month y m)
            then Some (mkdate y m d) else None
        | _ => None
        end
    | _ => None
    end.
Proof.
  intros Ha Hb Hc He. cbn [Strptime.strptime].
  rewrite !is_digit_char, !strptime_digit_char by assumption. reflexivity.
Qed.

Lemma month_cases m :
  1 <= m <= 12 ->
  m = 1 \/ m = 2 \/ m = 3 \/ m = 4 \/ m = 5 \/ m = 6 \/ m = 7 \/ m = 8
  \/ m = 9 \/ m = 10 \/ m = 11 \/ m = 12.
Proof. lia. Qed.

Lemma day_cases d :
  1 <= d <= 31 ->
  d = 1 \/ d = 2 \/ d = 3 \/ d = 4 \/ d = 5 \/ d = 6 \/ d = 7 \/ d = 8
  \/ d = 9 \/ d = 10 \/ d = 11 \/ d = 12 \/ d = 13 \/ d = 14 \/ d = 15
  \/ d = 16 \/ d = 17 \/ d = 18 \/ d = 19 \/ d = 20 \/ d = 21 \/ d = 22
  \/ d = 23 \/ d = 24 \/ d = 25 \/ d = 26 \/ d = 27 \/ d = 28 \/ d = 29
  \/ d = 30 \/ d = 31.
Proof. lia. Qed.

Lemma month_text m rest :
  1 <= m <= 12 ->
  find Strptime.starts_with_dash
    (Strptime.month_alternatives (two_digits m ++ String "-" rest))
  = Some (m, String "-" rest)
  /\ find Strptime.starts_with_dash
       (Strptime.month_alternatives (short_digits m ++ String "-" rest))
     = Some (m, String "-" rest).
Proof.
  intros H. apply month_cases in H.
  repeat (destruct H as [H | H]); subst m; split; reflexivity.
Qed.

Lemma day_text d :
  1 <= d <= 31 ->
  (exists others, Strptime.day_alternatives (two_digits d) = (d, "") :: others)
  /\ exists others, Strptime.day_alternatives (short_digits d) = (d, "") :: others.
Proof.
  intros H. apply day_cases in H.
  repeat (destruct H as [H | H]); subst d; split; eexists; reflexivity.
Qed.

Lemma days_in_month_le y m : Strptime.days_in_month y m <= 31.
Proof.
  unfold Strptime.days_in_month.
  destruct (m =? 2); [destruct (Strptime.is_leap y); lia|].
  destruct ((m =? 4) || (m =? 6) || (m =? 9) || (m =? 11)); lia.
Qed.

Lemma year_digits y :
  1 <= y <= 9999 ->
  is_decimal (y / 1000) /\ is_decimal (y / 100 mod 10)
  /\ is_decimal (y / 10 mod 10) /\ is_decimal (y mod 10)
  /\ 1000 * (y / 1000) + 100 * (y / 100 mod 10) + 10 * (y / 10 mod 10) + y mod 10
     = y.
Proof. unfold is_decimal. intros H. Z.div_mod_to_equations. lia. Qed.

Lemma strptime_text y m d month_part day_part :
  valid_date (mkdate y m d) ->
  (forall rest,
     find Strptime.starts_with_dash
       (Strptime.month_alternatives (month_part ++ String "-" rest))
     = Some (m, String "-" rest)) ->
  (exists others, Strptime.day_alternatives day_part = (d, "") :: others) ->
  Strptime.strptime (four_digits y ++ "-" ++ month_part ++ "-" ++ day_part)
  = Some (mkdate y m d).
Proof.
  intros (Hy & Hm & Hd) Hmonth [others Hday]. simpl in Hy, Hm, Hd.
  destruct (year_digits y Hy) as (Ha & Hb & Hc & He & Hsum).
  unfold four_digits.
  change (String ?a (String ?b (String ?c (String ?e "")))
          ++ "-" ++ month_part ++ "-" ++ day_part)
    with (String a (String b (String c (String e
            (String "-" (month_part ++ String "-" day_part)))))).
  rewrite strptime_year by assumption. cbv zeta.
  rewrite Hmonth, Hday, Hsum.
  replace (1 <=? y) with true by (symmetry; apply Z.leb_le; lia).
  replace (d <=? Strptime.days_in_month y m) with true
    by (symmetry; apply Z.leb_le; lia).
  reflexivity.
Qed.

(** X7: [parse_date] returns dates of the calendar only: a year from 1
    to 9999, a month from 1 to 12 and a day that exists in that month; and it
    returns nothing for an argument that is not text. *)
Theorem parse_date_valid (date_str : value) (d : date) :
  parse_date date_str = Some d ->
  valid_date d /\ exists s, date_str = VStr s.
Proof.
  destruct date_str as [|b|n|f|s|items|fields]; try discriminate.
  intros H. split; [exact (strptime_valid s d H) | exists s; reflexivity].
Qed.

Lemma parse_date_valid_witness :
  parse_date (VStr "2024-02-29") = Some (mkdate 2024 2 29)
  /\ valid_date (mkdate 2024 2 29).
Proof.
  assert (H : parse_date (VStr "2024-02-29") = Some (mkdate 2024 2 29))
    by reflexivity.
  split; [exact H|].
  exact (proj1 (parse_date_valid (VStr "2024-02-29") (mkdate 2024 2 29) H)).
Defined.

(** X8: every date of the calendar is read back from its text
    [YYYY-MM-DD], and also from the text that writes the month and the day
    without a leading zero, such as [2024-2-1]. *)
Theorem parse_date_round_trip (d : date) :
  valid_date d ->
  parse_date (VStr (isoformat d)) = Some d
  /\ parse_date (VStr (short_format d)) = Some d.
Proof.
  destruct d as [y m dd]. intros Hvalid.
  pose proof Hvalid as (Hy & Hm & Hd). simpl in Hy, Hm, Hd.
  assert (Hday : 1 <= dd <= 31)
    by (pose proof (days_in_month_le y m); lia).
  unfold parse_date, isoformat, short_format. simpl year. simpl month. simpl day.
  split; apply strptime_text; try exact Hvalid.
  - intros rest. apply (month_text m rest Hm).
  - apply (day_text dd Hday).
  - intros rest. apply (month_text m rest Hm).
  - apply (day_text dd Hday).
Qed.

Lemma parse_date_round_trip_witness :
  valid_date (mkdate 2024 2 1)
  /\ parse_date (VStr "2024-02-01") = Some (mkdate 2024 2 1)
  /\ parse_date (VStr "2024-2-1") = Some (mkdate 2024 2 1).
Proof.
  assert (H : valid_date (mkdate 2024 2 1))
    by (unfold valid_date; simpl; change (Strptime.days_in_month 2024 2) with 29; lia).
  split; [exact H|].
  exact (parse_date_round_trip (mkdate 2024 2 1) H).
Defined.

(** ** More on [calculate_expenses] *)

Lemma date_ltb_trans a b c :
  date_ltb a b = true -> date_ltb b c = true -> date_ltb a c = true.
Proof.
  destruct a as [y m d], b as [y' m' d'], c as [y'' m'' d''].
  unfold date_ltb. simpl. intros H1 H2.
  destruct (Z.ltb_spec y y'), (Z.ltb_spec y' y''), (Z.ltb_spec y y'');
    destruct (Z.eqb_spec y y'), (Z.eqb_spec y' y''), (Z.eqb_spec y y'');
    try lia; try reflexivity; simpl in *; try discriminate;
    destruct (Z.ltb_spec m m'), (Z.ltb_spec m' m''), (Z.ltb_spec m m'');
    destruct (Z.eqb_spec m m'), (Z.eqb_spec m' m''), (Z.eqb_spec m m'');
    try lia; try reflexivity; simpl in *; try discriminate;
    destruct (Z.ltb_spec d d'), (Z.ltb_spec d' d''), (Z.ltb_spec d d'');
    try lia; try reflexivity; try discriminate.
Qed.

Lemma inverted_range_excludes start end_ d :
  date_ltb end_ start = true ->
  date_ltb d start || date_ltb end_ d = true.
Proof.
  intros Hinv. destruct (date_ltb d start) eqn:H1; [reflexivity|].
  destruct (date_ltb end_ d) eqn:H2; [reflexivity|]. exfalso.
  apply date_ltb_total in H1, H2.
  destruct H1 as [H1 | <-].
  - destruct H2 as [H2 | <-].
    + pose proof (date_ltb_trans _ _ _ Hinv (date_ltb_trans _ _ _ H1 H2)) as H.
      rewrite date_ltb_irrefl in H. discriminate H.
    + pose proof (date_ltb_trans _ _ _ Hinv H1) as H.
      rewrite date_ltb_irrefl in H. discriminate H.
  - destruct H2 as [H2 | <-].
    + pose proof (date_ltb_trans _ _ _ Hinv H2) as H.
      rewrite date_ltb_irrefl in H. discriminate H.
    + rewrite date_ltb_irrefl in Hinv. discriminate Hinv.
Qed.

Lemma for_each_all_skip {A B : Type} (body : B -> A -> result B) xs acc :
  (forall acc x, In x xs -> body acc x = Ok acc) ->
  for_each body xs acc = Ok acc.
Proof.
  induction xs as [|x xs IH]; intros Hskip; simpl; [reflexivity|].
  rewrite (Hskip acc x (or_introl Logic.eq_refl)).
  apply IH. intros acc' y Hy. apply Hskip. right. exact Hy.
Qed.

(** X9: a range whose end is before its start holds no day: the total
    is [0.0] whatever the collection holds, and no exception is raised. *)
Theorem calculate_expenses_inverted_range
    (data : collection) (start_date end_date : value) (start end_ : date) :
  parse_date start_date = Some start ->
  parse_date end_date = Some end_ ->
  date_ltb end_ start = true ->
  calculate_expenses data start_date end_date = Ok Float.zero.
Proof.
  intros Hs He Hinv. unfold calculate_expenses. rewrite Hs, He.
  apply for_each_all_skip. intros total r _. unfold calculate_expenses_body.
  destruct (parse_date (dict_get r "date")) as [d|]; [|reflexivity].
  rewrite (inverted_range_excludes start end_ d Hinv). reflexivity.
Qed.

Lemma calculate_expenses_inverted_range_witness :
  parse_date (VStr "2024-03-01") = Some (mkdate 2024 3 1)
  /\ parse_date (VStr "2024-02-01") = Some (mkdate 2024 2 1)
  /\ date_ltb (mkdate 2024 2 1) (mkdate 2024 3 1) = true
  /\ calculate_expenses example_collection (VStr "2024-03-01") (VStr "2024-02-01")
     = Ok Float.zero.
Proof.
  split; [reflexivity|]. split; [reflexivity|]. split; [reflexivity|].
  apply (calculate_expenses_inverted_range example_collection
           (VStr "2024-03-01") (VStr "2024-02-01")
           (mkdate 2024 3 1) (mkdate 2024 2 1)); reflexivity.
Defined.

Lemma aggregate_by_category_body_date totals r v :
  aggregate_by_category_body totals (<["date" := v]> r)
  = aggregate_by_category_body totals r.
Proof.
  unfold aggregate_by_category_body, dict_get, dict_get_default.
  rewrite !lookup_insert_ne by discriminate. reflexivity.
Qed.

Lemma for_each_change_middle {A B : Type} (body : B -> A -> result B) xs x y ys acc :
  (forall acc, body acc x = body acc y) ->
  for_each body (xs ++ x :: ys) acc = for_each body (xs ++ y :: ys) acc.
Proof.
  intros Heq. rewrite !for_each_app. simpl.
  destruct (for_each body xs acc); [|reflexivity].
  rewrite Heq. reflexivity.
Qed.

(** X10: a record whose date is absent, not text or not a date of the
    form [YYYY-MM-DD] is left out of every range total; the category totals
    do not look at dates at all, so setting the date field of a record, to
    any value, leaves them as they are. *)
Theorem unreadable_date_excluded
    (before after : collection) (name : string) (r : receipt)
    (start_date end_date : value) :
  parse_date (dict_get r "date") = None ->
  calculate_expenses (before ++ (name, r) :: after)%list start_date end_date
  = calculate_expenses (before ++ after)%list start_date end_date
  /\ forall v,
       aggregate_by_category (before ++ (name, <["date" := v]> r) :: after)%list
       = aggregate_by_category (before ++ (name, r) :: after)%list.
Proof.
  intros Hdate. split.
  - unfold calculate_expenses.
    destruct (parse_date start_date) as [start|]; [|reflexivity].
    destruct (parse_date end_date) as [end_|]; [|reflexivity].
    rewrite !values_app. simpl. apply for_each_skip_middle.
    intros total. unfold calculate_expenses_body. rewrite Hdate. reflexivity.
  - intros v. unfold aggregate_by_category. rewrite !values_app. simpl.
    apply for_each_change_middle. intros totals.
    apply aggregate_by_category_body_date.
Qed.

Lemma unreadable_date_excluded_witness :
  parse_date (dict_get (receipt_of (VStr "02/15/2024") (VFloat (lit 5.0)) (VStr "Meals"))
                "date") = None
  /\ calculate_expenses
       [ ("a", receipt_of (VStr "2024-02-01") (VFloat (lit 10.0)) (VStr "Meals"));
         ("b", receipt_of (VStr "02/15/2024") (VFloat (lit 5.0)) (VStr "Meals")) ]
       (VStr "2024-02-01") (VStr "2024-02-28")
     = calculate_expenses
         [ ("a", receipt_of (VStr "2024-02-01") (VFloat (lit 10.0)) (VStr "Meals")) ]
         (VStr "2024-02-01") (VStr "2024-02-28").
Proof.
  assert (H : parse_date
    (dict_get (receipt_of (VStr "02/15/2024") (VFloat (lit 5.0)) (VStr "Meals"))
       "date") = None) by reflexivity.
  split; [exact H|].
  exact (proj1 (unreadable_date_excluded
    [("a", receipt_of (VStr "2024-02-01") (VFloat (lit 10.0)) (VStr "Meals"))]
    [] "b" (receipt_of (VStr "02/15/2024") (VFloat (lit 5.0)) (VStr "Meals"))
    (VStr "2024-02-01") (VStr "2024-02-28") H)).
Defined.

(** ** Exceptions of the aggregation operations *)

Lemma float_add_number total amount :
  isinstance_int_float amount = true ->
  (exists f, float_add total amount = Ok f)
  \/ float_add total amount = Raise OverflowError.
Proof.
  destruct amount as [|b|n|f|s|items|fields]; try discriminate; intros _; simpl.
  - left. eauto.
  - unfold Float.of_int. destruct (n =? 0); [left; simpl; eauto|].
    destruct (Float.round_ratio (n <? 0) (Z.abs n) 1); simpl; eauto.
  - left. eauto.
Qed.

Lemma for_each_overflow {A B : Type} (body : B -> A -> result B) xs :
  (forall acc x, (exists acc', body acc x = Ok acc')
                 \/ body acc x = Raise OverflowError) ->
  forall acc,
    (exists acc', for_each body xs acc = Ok acc')
    \/ for_each body xs acc = Raise OverflowError.
Proof.
  intros Hbody. induction xs as [|x xs IH]; intros acc; simpl; [left; eauto|].
  destruct (Hbody acc x) as [[acc' ->] | ->]; [apply IH | right; reflexivity].
Qed.

Lemma for_each_returns {A B : Type} (body : B -> A -> result B) xs :
  (forall acc x, In x xs -> exists acc', body acc x = Ok acc') ->
  forall acc, exists acc', for_each body xs acc = Ok acc'.
Proof.
  induction xs as [|x xs IH]; intros Hbody acc; simpl; [eauto|].
  destruct (Hbody acc x (or_introl Logic.eq_refl)) as [acc' ->].
  apply IH. intros acc'' y Hy. apply Hbody. right. exact Hy.
Qed.

Lemma calculate_expenses_body_cases start end_ total r :
  (exists total', calculate_expenses_body start end_ total r = Ok total')
  \/ calculate_expenses_body start end_ total r = Raise OverflowError.
Proof.
  unfold calculate_expenses_body.
  destruct (parse_date (dict_get r "date")) as [d|]; [|left; eauto].
  destruct (date_ltb d start || date_ltb end_ d); [left; eauto|].
  fold (skips_amount (dict_get r "amount")). rewrite skips_amount_isinstance.
  destruct (isinstance_int_float (dict_get r "amount")) eqn:Hnum;
    [|left; simpl; eauto].
  simpl. apply float_add_number. exact Hnum.
Qed.

Lemma calculate_expenses_body_float start end_ total r :
  (dict_get r "amount" = VNone \/ exists f, dict_get r "amount" = VFloat f) ->
  exists total', calculate_expenses_body start end_ total r = Ok total'.
Proof.
  intros Hamount. unfold calculate_expenses_body.
  destruct (parse_date (dict_get r "date")) as [d|]; [|eauto].
  destruct (date_ltb d start || date_ltb end_ d); [eauto|].
  destruct Hamount as [-> | [f ->]]; simpl; eauto.
Qed.

Lemma process_directory_normalised
    list_files encode_file extract_receipt_info dirpath :
  normalised (process_directory list_files encode_file extract_receipt_info dirpath).
Proof.
  unfold normalised. apply List.Forall_forall. intros [name r] Hin.
  apply process_directory_In in Hin. destruct Hin as (path & _ & ->). simpl.
  unfold dict_get at 1 3. rewrite !lookup_insert_eq. simpl.
  destruct (sanitize_amount_cases
              (dict_get (extract_receipt_info (encode_file path)) "amount"))
    as [H | [f H]]; rewrite H; eauto.
Qed.

Lemma calculate_expenses_normalised data start_date end_date :
  normalised data ->
  exists total, calculate_expenses data start_date end_date = Ok total.
Proof.
  intros Hnorm. unfold calculate_expenses.
  destruct (parse_date start_date) as [start|]; [|eauto].
  destruct (parse_date end_date) as [end_|]; [|eauto].
  apply for_each_returns. intros total r Hin.
  apply calculate_expenses_body_float.
  unfold values in Hin. apply List.in_map_iff in Hin.
  destruct Hin as ([name r'] & <- & Hin).
  unfold normalised in Hnorm. rewrite List.Forall_forall in Hnorm.
  apply (Hnorm (name, r') Hin).
Qed.

(** X11: [calculate_expenses] returns a float or raises [OverflowError]
    (an [int] amount too large for a float) and nothing else; on a collection
    whose amounts are all [None] or a float it always returns, and the
    collections [process_directory] builds are such collections. *)
Theorem calculate_expenses_returns :
  (forall data start_date end_date,
     (exists total, calculate_expenses data start_date end_date = Ok total)
     \/ calculate_expenses data start_date end_date = Raise OverflowError)
  /\ (forall data start_date end_date,
        normalised data ->
        exists total, calculate_expenses data start_date end_date = Ok total)
  /\ (forall list_files encode_file extract_receipt_info dirpath,
        normalised
          (process_directory list_files encode_file extract_receipt_info dirpath)).
Proof.
  split; [|split].
  - intros data start_date end_date. unfold calculate_expenses.
    destruct (parse_date start_date) as [start|]; [|left; eauto].
    destruct (parse_date end_date) as [end_|]; [|left; eauto].
    apply for_each_overflow. intros total r.
    apply calculate_expenses_body_cases.
  - intros data start_date end_date. apply calculate_expenses_normalised.
  - exact process_directory_normalised.
Qed.

(** ** More on [aggregate_by_category] *)

Lemma aggregate_by_category_body_float totals r f :
  dict_get r "amount" = VFloat f ->
  hashable (category_of r) = true ->
  exists totals', aggregate_by_category_body totals r = Ok totals'.
Proof.
  intros Hf Hkey. rewrite aggregate_by_category_body_number;
    [|rewrite Hf; reflexivity | exact Hkey].
  unfold bucket_add. rewrite Hf. simpl. eauto.
Qed.

Lemma aggregate_by_category_body_cases totals r :
  (exists totals', aggregate_by_category_body totals r = Ok totals')
  \/ aggregate_by_category_body totals r = Raise TypeError
  \/ aggregate_by_category_body totals r = Raise OverflowError.
Proof.
  destruct (isinstance_int_float (dict_get r "amount")) eqn:Hnum.
  - destruct (hashable (category_of r)) eqn:Hkey.
    + rewrite (aggregate_by_category_body_number totals r Hnum Hkey).
      unfold bucket_add.
      destruct (float_add_number
                  (default Float.zero
                     (totals_get totals (dict_get_default r "category" (VStr "Other"))))
                  (dict_get r "amount") Hnum) as [[f ->] | ->]; simpl; eauto.
    + right. left. apply aggregate_by_category_body_unhashable; assumption.
  - left. exists totals. apply aggregate_by_category_body_skip.
    rewrite skips_amount_isinstance, Hnum. reflexivity.
Qed.

Lemma for_each_aggregate_cases xs :
  forall totals,
    (exists totals', for_each aggregate_by_category_body xs totals = Ok totals')
    \/ for_each aggregate_by_category_body xs totals = Raise TypeError
    \/ for_each aggregate_by_category_body xs totals = Raise OverflowError.
Proof.
  induction xs as [|r xs IH]; intros totals; simpl; [left; eauto|].
  destruct (aggregate_by_category_body_cases totals r) as [[t ->] | [-> | ->]];
    auto.
Qed.

Lemma for_each_aggregate_normalised (data : collection) :
  normalised data ->
  forall totals,
    if existsb unhashable_category (values data)
    then for_each aggregate_by_category_body (values data) totals = Raise TypeError
    else exists totals',
           for_each aggregate_by_category_body (values data) totals = Ok totals'.
Proof.
  induction 1 as [|[name r] rest Hr _ IH]; intros totals; simpl; [eauto|].
  simpl in Hr. unfold unhashable_category at 1.
  destruct Hr as [Hnone | [f Hf]].
  - rewrite Hnone. simpl. rewrite aggregate_by_category_body_skip
      by (rewrite Hnone; reflexivity).
    apply IH.
  - rewrite Hf. simpl. destruct (hashable (category_of r)) eqn:Hkey; simpl.
    + destruct (aggregate_by_category_body_float totals r f Hf Hkey) as [t ->].
      apply IH.
    + rewrite aggregate_by_category_body_unhashable;
        [reflexivity | rewrite Hf; reflexivity | exact Hkey].
Qed.

(** X12: [aggregate_by_category] returns the totals or raises
    [TypeError] or [OverflowError], never [KeyError]; on a collection whose
    amounts are all [None] or a float, as [process_directory] builds them, it
    raises exactly when some record with a float for amount has a list or an
    object for category, and what it raises then is [TypeError]. *)
Theorem aggregate_by_category_raises :
  (forall data,
     (exists totals, aggregate_by_category data = Ok totals)
     \/ aggregate_by_category data = Raise TypeError
     \/ aggregate_by_category data = Raise OverflowError)
  /\ (forall data,
        normalised data ->
        if existsb unhashable_category (values data)
        then aggregate_by_category data = Raise TypeError
        else exists totals, aggregate_by_category data = Ok totals)
  /\ (forall list_files encode_file extract_receipt_info dirpath,
        normalised
          (process_directory list_files encode_file extract_receipt_info dirpath)).
Proof.
  split; [|split].
  - intros data. apply for_each_aggregate_cases.
  - intros data Hnorm. apply (for_each_aggregate_normalised data Hnorm).
  - exact process_directory_normalised.
Qed.

Lemma key_eqb_str_left k s : key_eqb (VStr s) k = true -> k = VStr s.
Proof.
  destruct k as [|b|n|f|t|items|fields]; simpl; try discriminate.
  intros H. apply String.eqb_eq in H. congruence.
Qed.

Lemma sum_amounts_snoc rs r :
  sum_amounts (rs ++ [r])
  = let* total := sum_amounts rs in float_add total (dict_get r "amount").
Proof.
  unfold sum_amounts. rewrite for_each_app. simpl.
  destruct (for_each _ rs Float.zero) as [t|e]; simpl; [|reflexivity].
  destruct (float_add t (dict_get r "amount")); reflexivity.
Qed.

Lemma filter_snoc {A : Type} (keep : A -> bool) xs x :
  List.filter keep (xs ++ [x])
  = (List.filter keep xs ++ (if keep x then [x] else []))%list.
Proof. rewrite List.filter_app. reflexivity. Qed.

(** X13: in the totals [aggregate_by_category] returns, a text category
    is a key exactly when some record with a number for amount is filed under
    it (a record without a category counts for ["Other"]), and its total is
    the sum of the amounts of those records, added to [0.0] one after the
    other in the order of the collection. *)
Theorem aggregate_by_category_buckets
    (data : collection) (totals : totals_dict) (c : string) :
  aggregate_by_category data = Ok totals ->
  let filed := List.filter (in_category c) (values data) in
  (filed = [] /\ totals_get totals (VStr c) = None)
  \/ (filed <> []
      /\ exists total,
           sum_amounts filed = Ok total
           /\ totals_get totals (VStr c) = Some total).
Proof.
  revert totals. induction data as [|[name r] data IH] using rev_ind;
    intros totals Hagg.
  - injection Hagg as <-. left. split; reflexivity.
  - rewrite aggregate_by_category_snoc in Hagg.
    destruct (aggregate_by_category data) as [totals0|] eqn:Hprev;
      [|discriminate Hagg].
    simpl in Hagg. specialize (IH totals0 Logic.eq_refl).
    cbv zeta in *. rewrite values_app.
    change (values [(name, r)]) with [r]. rewrite filter_snoc.
    destruct (in_category c r) eqn:Hin.
    + unfold in_category in Hin. apply andb_prop in Hin.
      destruct Hin as [Hnum Hc]. apply key_eqb_str in Hc.
      assert (Hkey : hashable (category_of r) = true)
        by (rewrite Hc; reflexivity).
      rewrite (aggregate_by_category_body_number totals0 r Hnum Hkey) in Hagg.
      fold (category_of r) in Hagg. rewrite Hc in Hagg.
      unfold bucket_add in Hagg.
      right. split; [intros Hnil; apply app_eq_nil in Hnil;
                     destruct Hnil as [_ Hnil]; discriminate Hnil|].
      rewrite sum_amounts_snoc.
      destruct IH as [[Hnil Hget] | [_ (total0 & Hsum & Hget)]].
      * rewrite Hnil. rewrite Hget in Hagg. simpl in Hagg |- *.
        destruct (float_add Float.zero (dict_get r "amount")) as [v|e] eqn:Hadd;
          [|discriminate Hagg].
        simpl in Hagg. injection Hagg as <-. exists v.
        split; [reflexivity|]. apply totals_get_set_same. reflexivity.
      * rewrite Hsum. rewrite Hget in Hagg. simpl in Hagg |- *.
        destruct (float_add total0 (dict_get r "amount")) as [v|e] eqn:Hadd;
          [|discriminate Hagg].
        simpl in Hagg. injection Hagg as <-. exists v.
        split; [reflexivity|]. apply totals_get_set_same. reflexivity.
    + rewrite app_nil_r.
      destruct (isinstance_int_float (dict_get r "amount")) eqn:Hnum.
      * destruct (hashable (category_of r)) eqn:Hkey;
          [|rewrite aggregate_by_category_body_unhashable in Hagg by assumption;
            discriminate Hagg].
        rewrite (aggregate_by_category_body_number totals0 r Hnum Hkey) in Hagg.
        fold (category_of r) in Hagg. unfold bucket_add in Hagg.
        destruct (float_add _ (dict_get r "amount")) as [v|e];
          [|discriminate Hagg].
        simpl in Hagg. injection Hagg as <-.
        rewrite totals_get_set_other; [exact IH | exact Hkey |].
        intros k Hk. destruct (key_eqb k (VStr c)) eqn:Hkc; [|reflexivity].
        apply key_eqb_str in Hkc. subst k. apply key_eqb_str_left in Hk.
        unfold in_category in Hin. rewrite Hnum, Hk in Hin. simpl in Hin.
        rewrite String.eqb_refl in Hin. discriminate Hin.
      * rewrite aggregate_by_category_body_skip in Hagg
          by (rewrite skips_amount_isinstance, Hnum; reflexivity).
        injection Hagg as <-. exact IH.
Qed.

Lemma aggregate_by_category_buckets_witness :
  aggregate_by_category example_collection = Ok [(VStr "Meals", lit 15.0)]
  /\ ((List.filter (in_category "Meals") (values example_collection) = []
       /\ totals_get [(VStr "Meals", lit 15.0)] (VStr "Meals") = None)
      \/ (List.filter (in_category "Meals") (values example_collection) <> []
          /\ exists total,
               sum_amounts (List.filter (in_category "Meals") (values example_collection))
               = Ok total
               /\ totals_get [(VStr "Meals", lit 15.0)] (VStr "Meals") = Some total)).
Proof.
  assert (H : aggregate_by_category example_collection
              = Ok [(VStr "Meals", lit 15.0)]) by (vm_compute; reflexivity).
  split; [exact H|].
  exact (aggregate_by_category_buckets example_collection
           [(VStr "Meals", lit 15.0)] "Meals" H).
Defined.

(** ** The characters [sanitize_amount] accepts *)

Lemma string_forall_impl (p q : ascii -> bool) s :
  (forall c, p c = true -> q c = true) ->
  Text.string_forall p s = true -> Text.string_forall q s = true.
Proof.
  intros Himpl. induction s as [|a s IH]; simpl; [reflexivity|].
  intros H. apply andb_prop in H. destruct H as [Ha Hs].
  rewrite (Himpl a Ha), (IH Hs). reflexivity.
Qed.

Lemma numeric_lower c : numeric_char (Text.lower c) = numeric_char c.
Proof. each_char c; reflexivity. Qed.

Lemma numeric_digit c d : Text.digit_of c = Some d -> numeric_char c = true.
Proof. each_char c; vm_compute; intros H; first [reflexivity | discriminate H]. Qed.

Lemma string_forall_numeric_lower s :
  Text.string_forall numeric_char (Text.lower_string s)
  = Text.string_forall numeric_char s.
Proof.
  induction s as [|a s IH]; simpl; [reflexivity|].
  rewrite numeric_lower, IH. reflexivity.
Qed.

Lemma take_digits_numeric n :
  forall s ds r,
    (String.length s <= n)%nat ->
    Float.take_digits s = (ds, r) ->
    exists pre, s = pre ++ r /\ Text.string_forall numeric_char pre = true.
Proof.
  induction n as [|n IH]; intros s ds r Hlen H.
  - destruct s; [|simpl in Hlen; lia].
    injection H as <- <-. exists "". auto.
  - destruct s as [|c t]; [injection H as <- <-; exists ""; auto|].
    cbn [Float.take_digits] in H. simpl in Hlen.
    destruct (Text.digit_of c) as [d|] eqn:Hd;
      [|injection H as <- <-; exists ""; auto].
    pose proof (numeric_digit c d Hd) as Hc.
    destruct t as [|c1 u];
      [injection H as <- <-; exists (String c ""); simpl; rewrite Hc; auto|].
    destruct (Ascii.eqb c1 "_") eqn:Hu.
    + apply Ascii.eqb_eq in Hu. subst c1.
      destruct u as [|c2 u'];
        [injection H as <- <-; exists (String c ""); simpl; rewrite Hc; auto|].
      destruct (Text.is_digit c2);
        [|injection H as <- <-; exists (String c ""); simpl; rewrite Hc; auto].
      destruct (Float.take_digits (String c2 u')) as [ds' r'] eqn:Hrec.
      injection H as <- <-.
      destruct (IH (String c2 u') ds' r') as (pre & Hpre & Hnum);
        [simpl in *; lia | exact Hrec |].
      exists (String c (String "_" pre)). simpl. rewrite Hpre, Hc, Hnum. auto.
    + destruct (Float.take_digits (String c1 u)) as [ds' r'] eqn:Hrec.
      injection H as <- <-.
      destruct (IH (String c1 u) ds' r') as (pre & Hpre & Hnum);
        [simpl in *; lia | exact Hrec |].
      exists (String c pre). simpl. rewrite Hpre, Hc, Hnum. auto.
Qed.

Lemma take_digits_rest_numeric s ds r :
  Float.take_digits s = (ds, r) ->
  Text.string_forall numeric_char r = true ->
  Text.string_forall numeric_char s = true.
Proof.
  intros H Hr.
  destruct (take_digits_numeric (String.length s) s ds r (Nat.le_refl _) H)
    as (pre & -> & Hpre).
  rewrite string_forall_app, Hpre, Hr. reflexivity.
Qed.

Lemma take_sign_numeric s neg body :
  Float.take_sign s = (neg, body) ->
  Text.string_forall numeric_char body = true ->
  Text.string_forall numeric_char s = true.
Proof.
  unfold Float.take_sign. destruct s as [|c t]; [intros [= <- <-]; auto|].
  destruct (Ascii.eqb c "-") eqn:Hm.
  - apply Ascii.eqb_eq in Hm. subst c. intros [= <- <-] H. simpl. exact H.
  - destruct (Ascii.eqb c "+") eqn:Hp.
    + apply Ascii.eqb_eq in Hp. subst c. intros [= <- <-] H. simpl. exact H.
    + intros [= <- <-] H. exact H.
Qed.

Lemma parse_exponent_numeric s e :
  Float.parse_exponent s = Some e -> Text.string_forall numeric_char s = true.
Proof.
  unfold Float.parse_exponent. destruct s as [|c t]; [reflexivity|].
  destruct (Ascii.eqb (Text.lower c) "e") eqn:He; [|discriminate].
  apply Ascii.eqb_eq in He.
  destruct (Float.take_sign t) as [neg u] eqn:Hsign.
  destruct (Float.take_digits u) as [ds r] eqn:Hdig.
  destruct ds as [|d ds]; [discriminate|].
  destruct r; [|discriminate].
  intros _. simpl. rewrite <- numeric_lower, He. simpl.
  apply (take_sign_numeric t neg u Hsign).
  apply (take_digits_rest_numeric u (d :: ds) "" Hdig). reflexivity.
Qed.

Lemma parse_number_numeric s x :
  Float.parse_number s = Some x -> Text.string_forall numeric_char s = true.
Proof.
  unfold Float.parse_number.
  destruct (Float.take_digits s) as [ip r1] eqn:Hip.
  destruct r1 as [|c t].
  - intros _. apply (take_digits_rest_numeric s ip "" Hip). reflexivity.
  - destruct (Ascii.eqb c ".") eqn:Hdot.
    + apply Ascii.eqb_eq in Hdot. subst c.
      destruct (Float.take_digits t) as [fp r2] eqn:Hfp.
      destruct (ip ++ fp)%list; [discriminate|].
      destruct (Float.parse_exponent r2) as [e|] eqn:He; [|discriminate].
      intros _. apply (take_digits_rest_numeric s ip _ Hip). simpl.
      apply (take_digits_rest_numeric t fp r2 Hfp).
      apply (parse_exponent_numeric r2 e He).
    + destruct (ip ++ [])%list; [discriminate|].
      destruct (Float.parse_exponent (String c t)) as [e|] eqn:He; [|discriminate].
      intros _. apply (take_digits_rest_numeric s ip _ Hip).
      apply (parse_exponent_numeric _ e He).
Qed.

Lemma parse_literal_numeric s v :
  Float.parse_literal s = Some v -> Text.string_forall numeric_char s = true.
Proof.
  unfold Float.parse_literal.
  destruct (Float.take_sign s) as [neg body] eqn:Hsign.
  intros H. apply (take_sign_numeric s neg body Hsign).
  destruct (String.eqb (Text.lower_string body) "inf"
            || String.eqb (Text.lower_string body) "infinity") eqn:Hinf.
  - rewrite <- string_forall_numeric_lower.
    apply orb_prop in Hinf. destruct Hinf as [Hi | Hi];
      apply String.eqb_eq in Hi; rewrite Hi; reflexivity.
  - destruct (String.eqb (Text.lower_string body) "nan") eqn:Hnan.
    + rewrite <- string_forall_numeric_lower.
      apply String.eqb_eq in Hnan. rewrite Hnan. reflexivity.
    + destruct (Float.parse_number body) as [[ds e10]|] eqn:Hnum; [|discriminate].
      apply (parse_number_numeric body _ Hnum).
Qed.

Lemma blank_space c : Float.is_blank c = true -> Text.is_space c = true.
Proof. each_char c; vm_compute; intros H; first [reflexivity | discriminate H]. Qed.

Lemma lskip_decompose s :
  exists ws, all_space ws /\ s = ws ++ Float.lskip s.
Proof.
  induction s as [|a s (ws & Hws & IH)]; [exists ""; split; reflexivity|].
  simpl. destruct (Float.is_blank a) eqn:Ha.
  - exists (String a ws). split.
    + unfold all_space in *. simpl. rewrite (blank_space a Ha), Hws. reflexivity.
    + change (String a s = String a (ws ++ Float.lskip s)). rewrite <- IH.
      reflexivity.
  - exists "". split; reflexivity.
Qed.

Lemma rskip_decompose s :
  exists ws, all_space ws /\ s = Float.rskip s ++ ws.
Proof.
  induction s as [|a s (ws & Hws & IH)]; [exists ""; split; reflexivity|].
  simpl. destruct (Float.rskip s) as [|b r] eqn:Hr.
  - destruct (Float.is_blank a) eqn:Ha.
    + exists (String a ws). split.
      * unfold all_space in *. simpl. rewrite (blank_space a Ha), Hws. reflexivity.
      * rewrite IH. reflexivity.
    + exists ws. split; [exact Hws|]. rewrite IH. reflexivity.
  - exists ws. split; [exact Hws|]. rewrite IH at 1. reflexivity.
Qed.

Lemma space_amount_char ws :
  all_space ws -> Text.string_forall amount_char ws = true.
Proof.
  apply string_forall_impl. intros c Hc. unfold amount_char.
  rewrite Hc. apply orb_true_r.
Qed.

Lemma numeric_amount_char s :
  Text.string_forall numeric_char s = true ->
  Text.string_forall amount_char s = true.
Proof.
  apply string_forall_impl. intros c Hc. unfold amount_char.
  rewrite Hc. reflexivity.
Qed.

Lemma of_string_chars s v :
  Float.of_string s = Some v -> Text.string_forall amount_char s = true.
Proof.
  unfold Float.of_string. intros H. apply parse_literal_numeric in H.
  destruct (lskip_decompose s) as (ws1 & H1 & Hl).
  destruct (rskip_decompose (Float.lskip s)) as (ws2 & H2 & Hr).
  rewrite Hl, Hr, !string_forall_app.
  rewrite (space_amount_char ws1 H1), (space_amount_char ws2 H2),
    (numeric_amount_char _ H).
  reflexivity.
Qed.

Lemma remove_dollar_chars s :
  Text.string_forall amount_char (Text.remove_char "$" s) = true ->
  Text.string_forall amount_char s = true.
Proof.
  induction s as [|a s IH]; simpl; [reflexivity|].
  destruct (Ascii.eqb a "$") eqn:Ha.
  - intros H. rewrite (IH H). apply Ascii.eqb_eq in Ha. subst a. reflexivity.
  - simpl. intros H. apply andb_prop in H. destruct H as [H1 H2].
    rewrite H1, (IH H2). reflexivity.
Qed.

Lemma sanitize_amount_text_chars s f :
  sanitize_amount (VStr s) = VFloat f ->
  Text.string_forall amount_char s = true.
Proof.
  unfold sanitize_amount, py_str.
  destruct (Float.of_string (Text.strip (Text.remove_char "$" s))) as [v|] eqn:Hv;
    [|discriminate].
  intros _. apply of_string_chars in Hv. apply remove_dollar_chars.
  destruct (strip_decompose (Text.remove_char "$" s)) as (ws1 & ws2 & H1 & H2 & Hs).
  rewrite Hs, !string_forall_app.
  rewrite (space_amount_char ws1 H1), (space_amount_char ws2 H2), Hv.
  reflexivity.
Qed.

Lemma string_exists_forall p s :
  Text.string_exists (fun c => negb (p c)) s = negb (Text.string_forall p s).
Proof.
  induction s as [|a s IH]; simpl; [reflexivity|].
  rewrite IH, negb_andb. reflexivity.
Qed.

(** X14: a text amount is normalised to a float only if all of its
    characters are characters of float literals, [$] or white space: a text
    that holds any other character, such as the comma of a thousands
    separator, another currency sign or a unit, is normalised to [None]. *)
Theorem sanitize_amount_foreign_character (s : string) :
  Text.string_exists (fun c => negb (amount_char c)) s = true ->
  sanitize_amount (VStr s) = VNone.
Proof.
  intros H. rewrite string_exists_forall in H. apply negb_true_iff in H.
  destruct (sanitize_amount_cases (VStr s)) as [Hnone | [f Hf]]; [exact Hnone|].
  apply sanitize_amount_text_chars in Hf. congruence.
Qed.

Lemma sanitize_amount_foreign_character_witness :
  Text.string_exists (fun c => negb (amount_char c)) "$1,234.56" = true
  /\ sanitize_amount (VStr "$1,234.56") = VNone.
Proof.
  assert (H : Text.string_exists (fun c => negb (amount_char c)) "$1,234.56" = true)
    by reflexivity.
  split; [exact H|].
  exact (sanitize_amount_foreign_character "$1,234.56" H).
Defined.

(** ** Integer amounts *)

Lemma round_ratio_infinity neg n d s :
  Float.round_ratio neg n d = S754_infinity s -> s = neg.
Proof.
  unfold Float.round_ratio.
  match goal with
  | |- context [let '(m, e) := ?p in _] => destruct p as [m e]
  end.
  destruct m as [|p|p]; try discriminate.
  destruct (e <=? Float.emax - Float.prec); [discriminate|].
  intros H. injection H as <-. reflexivity.
Qed.

Lemma int_literal n :
  0 <= n ->
  Float.parse_literal (Float.digit_string (Float.digits_of n))
  = Some (Float.of_decimal false n 0)
  /\ Float.parse_literal (String "-" (Float.digit_string (Float.digits_of n)))
     = Some (Float.of_decimal true n 0).
Proof.
  intros Hn. destruct (digits_of_spec n Hn) as (Hdec & Hval & Hne).
  destruct (Float.digits_of n) as [|d ds] eqn:Hds; [congruence|].
  assert (Hnum : Float.parse_number (Float.digit_string (d :: ds)) = Some (n, 0)).
  { rewrite (parse_number_plain_form _ (d :: ds) "").
    - rewrite Hval. reflexivity.
    - rewrite <- (string_app_nil (Float.digit_string (d :: ds))).
      apply take_digits_digit_string; [exact Hdec | reflexivity].
    - exact I. }
  cbn [Float.digit_string] in *.
  apply parse_literal_number; [|exact Hnum].
  apply is_digit_char. inversion Hdec; assumption.
Qed.

(** X15: an [int] amount is never lost: it is normalised to the float
    [float(n)], and an [int] too large for a float, for which [float(n)]
    raises [OverflowError], is normalised to the infinity of its sign.  The
    [int] is one that [str] writes out: it has at most 4300 digits. *)
Theorem sanitize_amount_int (n : Z) :
  Z.abs n < 10 ^ 4300 ->
  sanitize_amount (VInt n)
  = VFloat match Float.of_int n with
           | Ok f => f
           | Raise _ => S754_infinity (n <? 0)
           end.
Proof.
  intros _.
  assert (Hlit : Float.parse_literal (py_str (VInt n))
                 = Some (Float.of_decimal (n <? 0) (Z.abs n) 0)).
  { unfold py_str, py_repr. destruct (int_literal (Z.abs n)) as [Hp Hm]; [lia|].
    destruct (n <? 0); assumption. }
  pose proof (parse_literal_plain _ _ Hlit) as Hplain.
  unfold sanitize_amount.
  rewrite (remove_dollar_plain _ Hplain), (strip_plain _ Hplain).
  rewrite (of_string_literal _ _ Hlit). f_equal.
  unfold Float.of_decimal, Float.of_int.
  destruct (Z.eqb_spec n 0) as [-> | Hne]; [reflexivity|].
  replace (Z.abs n <=? 0) with false by (symmetry; apply Z.leb_gt; lia).
  change (Float.pow_up 10 0) with 1. change (Float.pow_down 10 0) with 1.
  rewrite Z.mul_1_r.
  destruct (Float.round_ratio (n <? 0) (Z.abs n) 1) as [s|s| |s m e] eqn:Hround;
    try reflexivity.
  apply round_ratio_infinity in Hround. subst s. reflexivity.
Qed.

Lemma sanitize_amount_int_witness :
  Z.abs (10 ^ 400) < 10 ^ 4300
  /\ sanitize_amount (VInt (10 ^ 400))
     = VFloat match Float.of_int (10 ^ 400) with
              | Ok f => f
              | Raise _ => S754_infinity (10 ^ 400 <? 0)
              end.
Proof.
  assert (H : Z.abs (10 ^ 400) < 10 ^ 4300) by (vm_compute; reflexivity).
  split; [exact H|].
  exact (sanitize_amount_int (10 ^ 400) H).
Defined.

(** A whole amount, and one beyond the range of the floats. *)
Example sanitize_amount_int_examples :
  sanitize_amount (VInt 12) = VFloat (lit 12.0)
  /\ Float.of_int (10 ^ 400) = Raise OverflowError
  /\ sanitize_amount (VInt (10 ^ 400)) = VFloat (S754_infinity false).
Proof. repeat split; vm_compute; reflexivity. Qed.

(** ** [plot_expenses_by_category] *)

Lemma for_each_invariant {A B : Type} (body : B -> A -> result B) (P : B -> Prop) xs :
  (forall acc x acc', body acc x = Ok acc' -> P acc -> P acc') ->
  forall acc acc', for_each body xs acc = Ok acc' -> P acc -> P acc'.
Proof.
  intros Hbody. induction xs as [|x xs IH]; intros acc acc' H Hacc; simpl in H.
  - injection H as <-. exact Hacc.
  - destruct (body acc x) as [acc1|e] eqn:Hx; [|discriminate H].
    apply (IH acc1 acc' H). apply (Hbody acc x acc1 Hx Hacc).
Qed.

Lemma totals_set_In totals key v entry :
  In entry (totals_set totals key v) ->
  entry = (key, v) \/ exists entry', In entry' totals /\ fst entry' = fst entry.
Proof.
  induction totals as [|[k w] rest IH]; simpl.
  - intros [H | []]. left. symmetry. exact H.
  - destruct (key_eqb k key); simpl.
    + intros [H | H].
      * right. exists (k, w). split; [left; reflexivity | rewrite <- H; reflexivity].
      * right. exists entry. split; [right; exact H | reflexivity].
    + intros [H | H].
      * right. exists (k, w). split; [left; reflexivity | rewrite <- H; reflexivity].
      * destruct (IH H) as [Heq | (entry' & Hin & Hfst)]; [left; exact Heq|].
        right. exists entry'. split; [right; exact Hin | exact Hfst].
Qed.

Lemma totals_set_distinct totals key v :
  hashable key = true ->
  distinct_keys totals -> distinct_keys (totals_set totals key v).
Proof.
  intros Hkey. induction totals as [|[k w] rest IH]; simpl.
  - intros _. split; [exact Hkey|]. split; [intros entry []|exact I].
  - intros (Hk & Hrest & Hd). destruct (key_eqb k key) eqn:Heq; simpl.
    + auto.
    + split; [exact Hk|]. split; [|apply IH; exact Hd].
      intros entry Hin. apply totals_set_In in Hin.
      destruct Hin as [-> | (entry' & Hin & Hfst)]; [exact Heq|].
      rewrite <- Hfst. apply Hrest. exact Hin.
Qed.

Lemma totals_set_nonempty totals key v : totals_set totals key v <> [].
Proof.
  destruct totals as [|[k w] rest]; simpl; [discriminate|].
  destruct (key_eqb k key); discriminate.
Qed.

Lemma aggregate_by_category_body_inv totals r totals' :
  aggregate_by_category_body totals r = Ok totals' ->
  (isinstance_int_float (dict_get r "amount") = false /\ totals' = totals)
  \/ (isinstance_int_float (dict_get r "amount") = true
      /\ hashable (category_of r) = true
      /\ exists v, totals' = totals_set totals (category_of r) v).
Proof.
  intros H. destruct (isinstance_int_float (dict_get r "amount")) eqn:Hnum.
  - right. split; [reflexivity|].
    destruct (hashable (category_of r)) eqn:Hkey;
      [|rewrite aggregate_by_category_body_unhashable in H by assumption;
        discriminate H].
    split; [reflexivity|].
    rewrite (aggregate_by_category_body_number totals r Hnum Hkey) in H.
    unfold bucket_add in H.
    destruct (float_add _ (dict_get r "amount")) as [v|e]; [|discriminate H].
    simpl in H. injection H as <-. exists v. reflexivity.
  - left. split; [reflexivity|].
    rewrite aggregate_by_category_body_skip in H
      by (rewrite skips_amount_isinstance, Hnum; reflexivity).
    congruence.
Qed.

Lemma aggregate_by_category_distinct data totals :
  aggregate_by_category data = Ok totals -> distinct_keys totals.
Proof.
  intros H.
  apply (for_each_invariant aggregate_by_category_body distinct_keys
           (values data)) with (acc := []) (acc' := totals);
    [|exact H|exact I].
  intros acc r acc' Hbody Hacc.
  apply aggregate_by_category_body_inv in Hbody.
  destruct Hbody as [[_ ->] | (_ & Hkey & v & ->)]; [exact Hacc|].
  apply totals_set_distinct; assumption.
Qed.

Lemma distinct_keys_lookup totals k v :
  distinct_keys totals -> In (k, v) totals -> totals_get totals k = Some v.
Proof.
  induction totals as [|[k0 v0] rest IH]; simpl; [intros _ []|].
  intros (Hk0 & Hrest & Hd) [Heq | Hin].
  - injection Heq as -> ->. rewrite (key_eqb_refl k Hk0). reflexivity.
  - pose proof (Hrest (k, v) Hin) as Hne. simpl in Hne. rewrite Hne.
    apply IH; assumption.
Qed.

Lemma for_each_aggregate_nonempty xs :
  forall totals totals',
    for_each aggregate_by_category_body xs totals = Ok totals' ->
    (totals <> [] -> totals' <> [])
    /\ (existsb (fun r => isinstance_int_float (dict_get r "amount")) xs = true ->
        totals' <> []).
Proof.
  induction xs as [|r xs IH]; intros totals totals' H; simpl in H |- *.
  - injection H as <-. split; [auto | discriminate].
  - destruct (aggregate_by_category_body totals r) as [totals1|e] eqn:Hr;
      [|discriminate H].
    destruct (IH totals1 totals' H) as [Hkeep Hany].
    apply aggregate_by_category_body_inv in Hr.
    destruct Hr as [[Hnum ->] | (Hnum & _ & v & ->)]; rewrite Hnum; simpl.
    + auto.
    + split; intros _; apply Hkeep, totals_set_nonempty.
Qed.

Lemma existsb_has_amount (data : collection) :
  existsb (fun r => isinstance_int_float (dict_get r "amount")) (values data)
  = existsb has_amount data.
Proof.
  unfold values. induction data as [|entry data IH]; simpl; [reflexivity|].
  rewrite IH. reflexivity.
Qed.

Lemma aggregate_by_category_no_amount data :
  existsb has_amount data = false -> aggregate_by_category data = Ok [].
Proof.
  intros Hnone. unfold aggregate_by_category.
  apply for_each_all_skip.
  intros acc r Hin. apply aggregate_by_category_body_skip.
  rewrite skips_amount_isinstance.
  rewrite <- existsb_has_amount in Hnone.
  destruct (isinstance_int_float (dict_get r "amount")) eqn:Hnum; [|reflexivity].
  assert (Hex : existsb (fun r => isinstance_int_float (dict_get r "amount"))
                  (values data) = true)
    by (apply existsb_exists; exists r; auto).
  congruence.
Qed.

Lemma aggregate_by_category_empty data totals :
  aggregate_by_category data = Ok totals ->
  (totals = [] <-> existsb has_amount data = false).
Proof.
  intros H. split.
  - intros ->. destruct (existsb has_amount data) eqn:Hany; [|reflexivity].
    rewrite <- existsb_has_amount in Hany.
    destruct (for_each_aggregate_nonempty _ _ _ H) as [_ Hne].
    exfalso. apply (Hne Hany). reflexivity.
  - intros Hnone. rewrite (aggregate_by_category_no_amount data Hnone) in H.
    congruence.
Qed.

(** *** Runs *)

Lemma call_then {A : Type} (outside : world) (c : command) (k : run A) made :
  run_bind (call outside c) (fun _ => k) made
  = match outside made c with
    | None => k (made ++ [c])%list
    | Some e => ((made ++ [c])%list, Raise e)
    end.
Proof. unfold run_bind, call. destruct (outside made c); reflexivity. Qed.

Lemma lift_then {A B : Type} (r : result A) (k : A -> run B) made :
  run_bind (lift r) k made
  = match r with
    | Ok a => k a made
    | Raise e => (made, Raise e)
    end.
Proof. unfold run_bind, lift. destruct r; reflexivity. Qed.

Lemma ret_then {A B : Type} (a : A) (k : A -> run B) made :
  run_bind (run_ret a) k made = k a made.
Proof. reflexivity. Qed.

Lemma attempted_In outside made cs c :
  In c (attempted outside made cs) -> In c cs.
Proof.
  revert made. induction cs as [|c0 cs IH]; intros made; simpl; [auto|].
  intros [H | H]; [left; exact H|].
  destruct (outside made c0); [destruct H|]. right. apply (IH _ H).
Qed.

Lemma attempted_all_return outside made cs :
  all_return outside made cs = true ->
  attempted outside made cs = cs /\ first_failure outside made cs = Ok tt.
Proof.
  revert made. induction cs as [|c cs IH]; intros made; simpl; [auto|].
  destruct (outside made c); [discriminate|].
  intros H. destruct (IH _ H) as [-> ->]. auto.
Qed.

Lemma all_return_app outside made cs1 cs2 :
  all_return outside made (cs1 ++ cs2)
  = all_return outside made cs1 && all_return outside (made ++ cs1) cs2.
Proof.
  revert made. induction cs1 as [|c cs1 IH]; intros made; simpl.
  - rewrite app_nil_r. reflexivity.
  - destruct (outside made c); [reflexivity|].
    rewrite IH, <- app_assoc. reflexivity.
Qed.

Lemma first_failure_app outside made cs1 cs2 :
  all_return outside made cs1 = true ->
  first_failure outside made (cs1 ++ cs2)
  = first_failure outside (made ++ cs1) cs2.
Proof.
  revert made. induction cs1 as [|c cs1 IH]; intros made; simpl.
  - rewrite app_nil_r. reflexivity.
  - destruct (outside made c); [discriminate|].
    intros H. rewrite (IH _ H), <- app_assoc. reflexivity.
Qed.

Lemma all_return_attempted outside made cs :
  all_return outside made (attempted outside made cs)
  = all_return outside made cs.
Proof.
  revert made. induction cs as [|c cs IH]; intros made; simpl; [reflexivity|].
  destruct (outside made c); [reflexivity|]. apply IH.
Qed.

Lemma first_failure_attempted outside made cs :
  first_failure outside made (attempted outside made cs)
  = first_failure outside made cs.
Proof.
  revert made. induction cs as [|c cs IH]; intros made; simpl; [reflexivity|].
  destruct (outside made c); [reflexivity|]. apply IH.
Qed.

(** The outcome of calls tried after calls that returned, read off the calls
    made. *)
Lemma first_failure_made outside made cs :
  all_return outside [] made = true ->
  first_failure outside made cs
  = if all_return outside [] (made ++ attempted outside made cs)
    then Ok tt
    else first_failure outside [] (made ++ attempted outside made cs).
Proof.
  intros Hmade.
  rewrite all_return_app, Hmade, (first_failure_app _ _ _ _ Hmade).
  cbn [andb app]. rewrite all_return_attempted, first_failure_attempted.
  destruct (all_return outside made cs) eqn:Hcs; [|reflexivity].
  apply attempted_all_return. exact Hcs.
Qed.

(** What a run of [plot_expenses_by_category] is, after the calls [made]. *)
Lemma plot_expenses_by_category_run outside data output_path made :
  plot_expenses_by_category outside data output_path made
  = match outside made (ImportModule "matplotlib.pyplot") with
    | Some e => ((made ++ [ImportModule "matplotlib.pyplot"])%list, Raise e)
    | None =>
        let made1 := (made ++ [ImportModule "matplotlib.pyplot"])%list in
        match aggregate_by_category data with
        | Raise e => (made1, Raise e)
        | Ok [] =>
            ((made1 ++ [PrintLine "No valid data to plot."])%list,
             first_failure outside made1 [PrintLine "No valid data to plot."])
        | Ok totals =>
            ((made1 ++ attempted outside made1 (chart_calls totals output_path))%list,
             first_failure outside made1 (chart_calls totals output_path))
        end
    end.
Proof.
  unfold plot_expenses_by_category. rewrite call_then.
  destruct (outside made (ImportModule "matplotlib.pyplot")) as [e|];
    [reflexivity|].
  cbv zeta. rewrite lift_then.
  destruct (aggregate_by_category data) as [[|entry totals]|e]; [| |reflexivity].
  - unfold call. simpl. destruct (outside _ _); reflexivity.
  - set (all := entry :: totals). unfold chart_calls.
    cbn [attempted first_failure].
    rewrite call_then.
    destruct (outside _ (Figure 10 8));
      [rewrite <- app_assoc; reflexivity|].
    rewrite call_then.
    destruct (outside _ (Pie _ _ _ _));
      [rewrite <- !app_assoc; reflexivity|].
    rewrite call_then.
    destruct (outside _ (Title _));
      [rewrite <- !app_assoc; reflexivity|].
    rewrite call_then.
    destruct (outside _ (Axis _));
      [rewrite <- !app_assoc; reflexivity|].
    rewrite call_then.
    destruct (outside _ (Savefig _));
      [rewrite <- !app_assoc; reflexivity|].
    rewrite call_then.
    destruct (outside _ Close);
      [rewrite <- !app_assoc; reflexivity|].
    unfold call.
    destruct (outside _ (PrintLine _)); rewrite <- !app_assoc; reflexivity.
Qed.

Lemma chart_calls_savefig totals output_path path :
  In (Savefig path) (chart_calls totals output_path) -> path = output_path.
Proof.
  unfold chart_calls. simpl. intros H.
  repeat (destruct H as [H | H]; try discriminate H); [|destruct H].
  injection H as <-. reflexivity.
Qed.

Lemma chart_calls_pie totals output_path amounts labels autopct startangle :
  In (Pie amounts labels autopct startangle) (chart_calls totals output_path) ->
  amounts = map snd totals /\ labels = map fst totals.
Proof.
  unfold chart_calls. simpl. intros H.
  repeat (destruct H as [H | H]; try discriminate H); [|destruct H].
  injection H as <- <- _ _. auto.
Qed.

(** The chart is saved when the four calls before [savefig] return. *)
Lemma savefig_attempted outside made totals output_path :
  In (Savefig output_path) (attempted outside made (chart_calls totals output_path))
  <-> all_return outside made
        [ Figure 10 8; Pie (map snd totals) (map fst totals) "%1.1f%%" 90;
          Title "Expenses by Category"; Axis "equal" ] = true.
Proof.
  unfold chart_calls. cbn [attempted all_return].
  destruct (outside made (Figure 10 8)).
  { split; [|discriminate]. simpl. intros [H | []]. discriminate H. }
  destruct (outside _ (Pie _ _ _ _)).
  { split; [|discriminate]. simpl. intros [H | [H | []]]; discriminate H. }
  destruct (outside _ (Title _)).
  { split; [|discriminate]. simpl.
    intros [H | [H | [H | []]]]; discriminate H. }
  destruct (outside _ (Axis _)).
  { split; [|discriminate]. simpl.
    intros [H | [H | [H | [H | []]]]]; discriminate H. }
  split; [reflexivity|]. intros _. simpl. do 4 right. left. reflexivity.
Qed.

(** X16: [plot_expenses_by_category] calls [savefig] exactly when the
    category totals can be computed, some record has a number for amount,
    and the import and the four calls before [savefig] ([figure], [pie],
    [title], [axis]) have returned; the path is [output_path].  So a [pie]
    that raises, as it does with [ValueError] on a negative total, ends the
    run with its exception and nothing is saved: so it is for one record of
    [-5.0] in a world whose [pie] refuses a negative size.  When no record has a number
    for amount the only call after the import is the print of the notice; and
    when the category totals raise, their exception ends the run after the
    import. *)
Theorem plot_saves_chart (outside : world) (data : collection)
    (output_path : string) :
  (forall path,
     In (Savefig path)
       (calls (plot_expenses_by_category outside data output_path))
     <-> path = output_path
         /\ existsb has_amount data = true
         /\ exists totals,
              aggregate_by_category data = Ok totals
              /\ all_return outside []
                   [ ImportModule "matplotlib.pyplot"; Figure 10 8;
                     Pie (map snd totals) (map fst totals) "%1.1f%%" 90;
                     Title "Expenses by Category"; Axis "equal" ] = true)
  /\ (forall totals e,
        aggregate_by_category data = Ok totals ->
        totals <> [] ->
        outside [] (ImportModule "matplotlib.pyplot") = None ->
        outside [ImportModule "matplotlib.pyplot"] (Figure 10 8) = None ->
        outside [ImportModule "matplotlib.pyplot"; Figure 10 8]
          (Pie (map snd totals) (map fst totals) "%1.1f%%" 90) = Some e ->
        plot_expenses_by_category outside data output_path []
        = ([ ImportModule "matplotlib.pyplot"; Figure 10 8;
             Pie (map snd totals) (map fst totals) "%1.1f%%" 90 ], Raise e))
  /\ (existsb has_amount data = false ->
      plot_expenses_by_category outside data output_path []
      = (attempted outside []
           [ImportModule "matplotlib.pyplot"; PrintLine "No valid data to plot."],
         first_failure outside []
           [ImportModule "matplotlib.pyplot"; PrintLine "No valid data to plot."]))
  /\ (forall e,
        aggregate_by_category data = Raise e ->
        plot_expenses_by_category outside data output_path []
        = ([ImportModule "matplotlib.pyplot"],
           match outside [] (ImportModule "matplotlib.pyplot") with
           | None => Raise e
           | Some e' => Raise e'
           end))
  /\ plot_expenses_by_category pie_rejects_negative
       [("r", receipt_of (VStr "2024-02-01") (VFloat (lit (-5.0))) (VStr "Refund"))]
       "chart.png" []
     = ([ ImportModule "matplotlib.pyplot"; Figure 10 8;
          Pie [lit (-5.0)] [VStr "Refund"] "%1.1f%%" 90 ], Raise ValueError).
Proof.
  pose proof (plot_expenses_by_category_run outside data output_path []) as Hrun.
  pose proof (aggregate_by_category_empty data) as Hempty.
  pose proof (aggregate_by_category_no_amount data) as Hnone.
  cbn [app] in Hrun. cbv zeta in Hrun.
  split; [|split; [|split; [|split; [|vm_compute; reflexivity]]]].
  - intros path. unfold calls. rewrite Hrun. cbn [all_return app].
    destruct (outside [] (ImportModule "matplotlib.pyplot")) as [e|].
    { simpl. split.
      - intros [H | []]. discriminate H.
      - intros (_ & _ & totals & _ & H). discriminate H. }
    destruct (aggregate_by_category data) as [totals|e] eqn:Hagg.
    + specialize (Hempty totals Logic.eq_refl).
      destruct totals as [|entry totals].
      * assert (Hno : existsb has_amount data = false)
          by (apply Hempty; reflexivity).
        simpl. split.
        -- intros [H | [H | []]]; discriminate H.
        -- intros (_ & Hany & _). congruence.
      * assert (Hany : existsb has_amount data = true).
        { destruct (existsb has_amount data); [reflexivity|].
          assert (Hnil : entry :: totals = []) by (apply Hempty; reflexivity).
          discriminate Hnil. }
        cbn [fst]. split.
        -- intros [H | H]; [discriminate H|].
           pose proof (attempted_In _ _ _ _ H) as Hin.
           apply chart_calls_savefig in Hin. subst path.
           split; [reflexivity|]. split; [exact Hany|].
           exists (entry :: totals). split; [reflexivity|].
           apply savefig_attempted in H. exact H.
        -- intros (-> & _ & totals' & Heq & Hret). injection Heq as <-.
           right. apply savefig_attempted. exact Hret.
    + simpl. split.
      * intros [H | []]. discriminate H.
      * intros (_ & _ & totals & H & _). discriminate H.
  - intros totals e Hagg Hne Himport Hfigure Hpie. rewrite Hrun, Himport, Hagg.
    destruct totals as [|entry totals]; [congruence|].
    unfold chart_calls. cbn [attempted first_failure app].
    rewrite Hfigure. cbn [app]. rewrite Hpie. reflexivity.
  - intros Hno. rewrite Hrun, (Hnone Hno). cbn [attempted first_failure app].
    destruct (outside [] (ImportModule "matplotlib.pyplot")); [reflexivity|].
    destruct (outside _ (PrintLine _)); reflexivity.
  - intros e Hagg. rewrite Hrun, Hagg.
    destruct (outside [] (ImportModule "matplotlib.pyplot")); reflexivity.
Qed.

(** X17: the pie [plot_expenses_by_category] draws has one wedge for
    each category of the totals and no two wedges for the same category; the
    size of a wedge is the total of the category that labels it. *)
Theorem plot_wedges (outside : world) (data : collection) (output_path : string)
    (amounts : list spec_float) (labels : list value)
    (autopct : string) (startangle : Z) :
  In (Pie amounts labels autopct startangle)
    (calls (plot_expenses_by_category outside data output_path)) ->
  exists totals,
    aggregate_by_category data = Ok totals
    /\ labels = map fst totals
    /\ amounts = map snd totals
    /\ List.length amounts = List.length labels
    /\ distinct_keys totals
    /\ forall label amount,
         In (label, amount) (combine labels amounts) ->
         totals_get totals label = Some amount.
Proof.
  pose proof (plot_expenses_by_category_run outside data output_path []) as Hrun.
  cbn [app] in Hrun. cbv zeta in Hrun. unfold calls. rewrite Hrun.
  destruct (outside [] (ImportModule "matplotlib.pyplot")) as [e|].
  { simpl. intros [H | []]. discriminate H. }
  destruct (aggregate_by_category data) as [totals|e] eqn:Hagg.
  - pose proof (aggregate_by_category_distinct data totals Hagg) as Hdistinct.
    destruct totals as [|entry totals].
    + simpl. intros [H | [H | []]]; discriminate H.
    + cbn [fst]. intros [H | H]; [discriminate H|].
      apply attempted_In, chart_calls_pie in H. destruct H as [-> ->].
      exists (entry :: totals).
      split; [reflexivity|]. split; [reflexivity|]. split; [reflexivity|].
      split; [rewrite !length_map; reflexivity|].
      split; [exact Hdistinct|].
      intros label amount Hin. apply distinct_keys_lookup; [exact Hdistinct|].
      revert Hin. generalize (entry :: totals). intros l.
      induction l as [|[k v] l IH]; simpl; [intros []|].
      intros [Heq | Hin]; [left; exact Heq | right; apply IH; exact Hin].
  - simpl. intros [H | []]. discriminate H.
Qed.

Lemma plot_wedges_witness :
  In (Pie [lit 15.0] [VStr "Meals"] "%1.1f%%" 90)
    (calls (plot_expenses_by_category (fun _ _ => None) example_collection
              "chart.png"))
  /\ exists totals,
       aggregate_by_category example_collection = Ok totals
       /\ [VStr "Meals"] = map fst totals.
Proof.
  assert (H : In (Pie [lit 15.0] [VStr "Meals"] "%1.1f%%" 90)
                (calls (plot_expenses_by_category (fun _ _ => None)
                          example_collection "chart.png"))).
  { vm_compute. right. right. left. reflexivity. }
  split; [exact H|].
  destruct (plot_wedges (fun _ _ => None) example_collection "chart.png"
              [lit 15.0] [VStr "Meals"] "%1.1f%%" 90 H)
    as (totals & Hagg & Hlabels & _).
  exists totals. split; assumption.
Defined.

(** ** [main] *)

Lemma process_directory_run_inv listdir isfile read_bytes extract_receipt_info
    dirpath data :
  process_directory_run listdir isfile read_bytes extract_receipt_info dirpath
  = Ok data ->
  exists files,
    list_files listdir isfile dirpath = Some files
    /\ for_each
         (fun (results : collection) (file : string * string) =>
            let (name, path) := file in
            match encode_file read_bytes path with
            | None => Raise OSError
            | Some image_b64 =>
                let* reply := extract_receipt_info image_b64 in
                Ok (collection_set results name
                      (<["amount" := sanitize_amount (dict_get reply "amount")]>
                         reply))
            end)
         files [] = Ok data.
Proof.
  unfold process_directory_run.
  destruct (list_files listdir isfile dirpath) as [files|]; [|discriminate].
  intros H. exists files. split; [reflexivity | exact H].
Qed.

(** Where nothing fails, the run builds the collection [process_directory]
    builds from what the world returned. *)
Lemma process_directory_run_agrees listdir isfile read_bytes extract_receipt_info
    dirpath data :
  process_directory_run listdir isfile read_bytes extract_receipt_info dirpath
  = Ok data ->
  data
  = process_directory (files_listed listdir isfile) (file_encoded read_bytes)
      (reply_of extract_receipt_info) dirpath.
Proof.
  intros H. apply process_directory_run_inv in H.
  destruct H as (files & Hfiles & Hloop).
  rewrite process_directory_fold. unfold files_listed. rewrite Hfiles. simpl.
  clear Hfiles. revert Hloop. generalize (@nil (string * receipt)).
  induction files as [|[name path] rest IH]; intros acc Hloop; simpl in *.
  - congruence.
  - destruct (encode_file read_bytes path) as [image_b64|] eqn:Himage;
      [|discriminate Hloop].
    destruct (extract_receipt_info image_b64) as [reply|e] eqn:Hreply;
      [|discriminate Hloop].
    simpl in Hloop. rewrite (IH _ Hloop). f_equal.
    unfold stored_record, file_encoded, reply_of.
    rewrite Himage. simpl. rewrite Hreply. reflexivity.
Qed.

Lemma process_directory_run_normalised listdir isfile read_bytes
    extract_receipt_info dirpath data :
  process_directory_run listdir isfile read_bytes extract_receipt_info dirpath
  = Ok data ->
  normalised data.
Proof.
  intros H. rewrite (process_directory_run_agrees _ _ _ _ _ _ H).
  apply process_directory_normalised.
Qed.

Lemma bind_then {A B C : Type} (r : run A) (k1 : A -> run B) (k2 : B -> run C) made :
  run_bind (run_bind r k1) k2 made
  = run_bind r (fun a => run_bind (k1 a) k2) made.
Proof. unfold run_bind. destruct (r made) as [made' [a|e]]; reflexivity. Qed.

Lemma main_run listdir isfile read_bytes extract_receipt_info json_dumps outside
    args made :
  main listdir isfile read_bytes extract_receipt_info json_dumps outside args made
  = match process_directory_run listdir isfile read_bytes extract_receipt_info
            (args_dirpath args) with
    | Raise e => (made, Raise e)
    | Ok data =>
        (run* _ :=
           (if args_print args
            then call outside (PrintLine (json_dumps data))
            else run_ret tt) in
         run* _ :=
           match args_expenses args with
           | Some (start_date, end_date) =>
               run* total :=
                 lift (calculate_expenses data (VStr start_date) (VStr end_date)) in
               call outside (PrintLine (expenses_line start_date end_date total))
           | None => run_ret tt
           end in
         if args_plot args
         then plot_expenses_by_category outside data "expenses_by_category.png"
         else run_ret tt) made
    end.
Proof. unfold main. rewrite lift_then. reflexivity. Qed.

Lemma main_after_directory outside json_dumps args data made :
  normalised data ->
  exists expenses_calls,
    match args_expenses args with
    | Some (start_date, end_date) =>
        exists total,
          calculate_expenses data (VStr start_date) (VStr end_date) = Ok total
          /\ expenses_calls = [PrintLine (expenses_line start_date end_date total)]
    | None => expenses_calls = []
    end
    /\ let printed :=
         ((if args_print args then [PrintLine (json_dumps data)] else [])
          ++ expenses_calls)%list in
       (run* _ :=
          (if args_print args
           then call outside (PrintLine (json_dumps data))
           else run_ret tt) in
        run* _ :=
          match args_expenses args with
          | Some (start_date, end_date) =>
              run* total :=
                lift (calculate_expenses data (VStr start_date) (VStr end_date)) in
              call outside (PrintLine (expenses_line start_date end_date total))
          | None => run_ret tt
          end in
        if args_plot args
        then plot_expenses_by_category outside data "expenses_by_category.png"
        else run_ret tt) made
       = if all_return outside made printed
         then (if args_plot args
               then plot_expenses_by_category outside data
                      "expenses_by_category.png" (made ++ printed)%list
               else ((made ++ printed)%list, Ok tt))
         else ((made ++ attempted outside made printed)%list,
               first_failure outside made printed).
Proof.
  intros Hnorm. destruct args as [dirpath print expenses plot_flag].
  cbn [args_print args_expenses args_plot].
  destruct expenses as [[start_date end_date]|].
  - destruct (calculate_expenses_normalised data (VStr start_date) (VStr end_date)
                Hnorm) as [total Htotal].
    exists [PrintLine (expenses_line start_date end_date total)].
    split; [exists total; split; [exact Htotal | reflexivity]|].
    cbv zeta. rewrite Htotal. destruct print.
    + rewrite call_then. cbn [app all_return attempted first_failure].
      destruct (outside made (PrintLine (json_dumps data))); [reflexivity|].
      rewrite bind_then, lift_then, call_then.
      destruct (outside _ (PrintLine (expenses_line start_date end_date total)));
        [rewrite <- app_assoc; reflexivity|].
      rewrite <- app_assoc. destruct plot_flag; reflexivity.
    + rewrite ret_then. cbn [app all_return attempted first_failure].
      rewrite bind_then, lift_then, call_then.
      destruct (outside made (PrintLine (expenses_line start_date end_date total)));
        [reflexivity|].
      destruct plot_flag; reflexivity.
  - exists []. split; [reflexivity|]. cbv zeta. destruct print.
    + rewrite call_then. cbn [app all_return attempted first_failure].
      destruct (outside made (PrintLine (json_dumps data))); [reflexivity|].
      rewrite ret_then. destruct plot_flag; reflexivity.
    + rewrite !ret_then. cbn [app all_return]. rewrite app_nil_r.
      destruct plot_flag; reflexivity.
Qed.

(** X18: [main] processes the directory first.  When the listing, the
    reading of a file or the extraction fails, the run ends with that
    exception and no call has been made: nothing is printed or plotted.
    Otherwise the collection is the one [process_directory] builds from what
    the world returned, its amounts are all [None] or a float, and the calls
    are the print of the collection if [--print] is given, then the print of
    the range total if [--expenses] is given, then the plot if [--plot] is
    given, each made when the calls before it returned; the range total does
    not raise on this collection, so its line is printed whenever the first
    print returned. *)
Theorem main_calls
    (listdir : string -> option (list string)) (isfile : string -> bool)
    (read_bytes : string -> option (list Byte.byte))
    (extract_receipt_info : string -> result receipt)
    (json_dumps : collection -> string) (outside : world) (args : arguments) :
  (forall e,
     process_directory_run listdir isfile read_bytes extract_receipt_info
       (args_dirpath args) = Raise e ->
     main listdir isfile read_bytes extract_receipt_info json_dumps outside args []
     = ([], Raise e))
  /\ (forall data,
        process_directory_run listdir isfile read_bytes extract_receipt_info
          (args_dirpath args) = Ok data ->
        data
        = process_directory (files_listed listdir isfile)
            (file_encoded read_bytes) (reply_of extract_receipt_info)
            (args_dirpath args)
        /\ normalised data
        /\ exists expenses_calls,
             match args_expenses args with
             | Some (start_date, end_date) =>
                 exists total,
                   calculate_expenses data (VStr start_date) (VStr end_date)
                   = Ok total
                   /\ expenses_calls
                      = [PrintLine (expenses_line start_date end_date total)]
             | None => expenses_calls = []
             end
             /\ let printed :=
                  ((if args_print args then [PrintLine (json_dumps data)] else [])
                   ++ expenses_calls)%list in
                main listdir isfile read_bytes extract_receipt_info json_dumps
                  outside args []
                = if all_return outside [] printed
                  then (if args_plot args
                        then plot_expenses_by_category outside data
                               "expenses_by_category.png" printed
                        else (printed, Ok tt))
                  else (attempted outside [] printed,
                        first_failure outside [] printed)).
Proof.
  split.
  - intros e H. rewrite main_run, H. reflexivity.
  - intros data H.
    pose proof (process_directory_run_normalised _ _ _ _ _ _ H) as Hnorm.
    split; [apply process_directory_run_agrees; exact H|].
    split; [exact Hnorm|].
    destruct (main_after_directory outside json_dumps args data [] Hnorm)
      as (expenses_calls & Hexp & Hrun).
    exists expenses_calls. split; [exact Hexp|].
    cbv zeta in *. rewrite main_run, H. exact Hrun.
Qed.

(** X19: when the directory has been processed and a date given to
    [--expenses] is not a date of the form [YYYY-MM-DD], [main] reports no
    error about the date: the one call it makes is the print of a total of
    [$0.00]. *)
Theorem main_unreadable_date
    (listdir : string -> option (list string)) (isfile : string -> bool)
    (read_bytes : string -> option (list Byte.byte))
    (extract_receipt_info : string -> result receipt)
    (json_dumps : collection -> string) (outside : world)
    (dirpath start_date end_date : string) (data : collection) :
  process_directory_run listdir isfile read_bytes extract_receipt_info dirpath
  = Ok data ->
  parse_date (VStr start_date) = None \/ parse_date (VStr end_date) = None ->
  main listdir isfile read_bytes extract_receipt_info json_dumps outside
    (mkargs dirpath false (Some (start_date, end_date)) false) []
  = ([PrintLine ("Total expenses from " ++ start_date ++ " to " ++ end_date
                 ++ ": $0.00")],
     match
       outside []
         (PrintLine ("Total expenses from " ++ start_date ++ " to " ++ end_date
                     ++ ": $0.00"))
     with
     | None => Ok tt
     | Some e => Raise e
     end).
Proof.
  intros Hdata Hbad. rewrite main_run.
  cbn [args_dirpath args_print args_expenses args_plot]. rewrite Hdata.
  assert (Htotal :
    calculate_expenses data (VStr start_date) (VStr end_date) = Ok Float.zero).
  { unfold calculate_expenses.
    destruct Hbad as [H | H]; rewrite H; [reflexivity|].
    destruct (parse_date (VStr start_date)); reflexivity. }
  rewrite ret_then, bind_then, Htotal, lift_then, call_then.
  change (expenses_line start_date end_date Float.zero)
    with ("Total expenses from " ++ start_date ++ " to " ++ end_date ++ ": $0.00").
  destruct (outside [] _); reflexivity.
Qed.

Lemma main_unreadable_date_witness :
  process_directory_run (fun _ => Some []) (fun _ => true) (fun _ => None)
    (fun _ => Raise ValueError) "receipts" = Ok []
  /\ (parse_date (VStr "02/01/2024") = None
      \/ parse_date (VStr "2024-02-28") = None)
  /\ main (fun _ => Some []) (fun _ => true) (fun _ => None)
       (fun _ => Raise ValueError) (fun _ => "{}") (fun _ _ => None)
       (mkargs "receipts" false (Some ("02/01/2024", "2024-02-28")) false) []
     = ([PrintLine "Total expenses from 02/01/2024 to 2024-02-28: $0.00"], Ok tt).
Proof.
  assert (Hdata : process_directory_run (fun _ => Some []) (fun _ => true)
                    (fun _ => None) (fun _ => Raise ValueError) "receipts"
                  = Ok []) by reflexivity.
  assert (H : parse_date (VStr "02/01/2024") = None
              \/ parse_date (VStr "2024-02-28") = None) by (left; reflexivity).
  split; [exact Hdata|]. split; [exact H|].
  exact (main_unreadable_date (fun _ => Some []) (fun _ => true) (fun _ => None)
           (fun _ => Raise ValueError) (fun _ => "{}") (fun _ _ => None)
           "receipts" "02/01/2024" "2024-02-28" [] Hdata H).
Defined.

(** X20: a failure of the listing, of the reading of a file or of the
    extraction ends [main] with its exception.  When the directory has been
    processed, [main] ends with the exception of the first print or call of
    [matplotlib.pyplot] that raises; and when every call it makes returns, it
    ends with an exception exactly when [--plot] is given and some record
    with a float for amount has a list or an object for category, and the
    exception is [TypeError].  So with [--plot] alone, a [pie] that raises,
    as it does with [ValueError] on a negative total, ends [main] with that
    exception: so it is for a directory of one receipt of [-5.0] in a world
    whose [pie] refuses a negative size. *)
Theorem main_outcome
    (listdir : string -> option (list string)) (isfile : string -> bool)
    (read_bytes : string -> option (list Byte.byte))
    (extract_receipt_info : string -> result receipt)
    (json_dumps : collection -> string) (outside : world) (args : arguments) :
  (forall e,
     process_directory_run listdir isfile read_bytes extract_receipt_info
       (args_dirpath args) = Raise e ->
     outcome (main listdir isfile read_bytes extract_receipt_info json_dumps
                outside args) = Raise e)
  /\ (forall data,
        process_directory_run listdir isfile read_bytes extract_receipt_info
          (args_dirpath args) = Ok data ->
        let made :=
          calls (main listdir isfile read_bytes extract_receipt_info json_dumps
                   outside args) in
        outcome (main listdir isfile read_bytes extract_receipt_info json_dumps
                   outside args)
        = if all_return outside [] made
          then (if args_plot args && existsb unhashable_category (values data)
                then Raise TypeError else Ok tt)
          else first_failure outside [] made)
  /\ (forall data totals e,
        process_directory_run listdir isfile read_bytes extract_receipt_info
          (args_dirpath args) = Ok data ->
        args_print args = false ->
        args_expenses args = None ->
        args_plot args = true ->
        aggregate_by_category data = Ok totals ->
        totals <> [] ->
        outside [] (ImportModule "matplotlib.pyplot") = None ->
        outside [ImportModule "matplotlib.pyplot"] (Figure 10 8) = None ->
        outside [ImportModule "matplotlib.pyplot"; Figure 10 8]
          (Pie (map snd totals) (map fst totals) "%1.1f%%" 90) = Some e ->
        main listdir isfile read_bytes extract_receipt_info json_dumps outside
          args []
        = ([ ImportModule "matplotlib.pyplot"; Figure 10 8;
             Pie (map snd totals) (map fst totals) "%1.1f%%" 90 ], Raise e))
  /\ main (fun _ => Some ["r.png"]) (fun _ => true) (fun _ => Some [])
       (fun _ =>
          Ok (receipt_of (VStr "2024-02-01") (VFloat (lit (-5.0))) (VStr "Refund")))
       (fun _ => "{}") pie_rejects_negative
       (mkargs "receipts" false None true) []
     = ([ ImportModule "matplotlib.pyplot"; Figure 10 8;
          Pie [lit (-5.0)] [VStr "Refund"] "%1.1f%%" 90 ], Raise ValueError).
Proof.
  split; [|split; [|split; [|vm_compute; reflexivity]]].
  - intros e H. unfold outcome. rewrite main_run, H. reflexivity.
  - intros data H.
    pose proof (process_directory_run_normalised _ _ _ _ _ _ H) as Hnorm.
    destruct (main_after_directory outside json_dumps args data [] Hnorm)
      as (expenses_calls & _ & Hrun).
    cbv zeta in *. unfold outcome, calls. rewrite main_run, H, Hrun.
    cbn [app].
    set (printed :=
           ((if args_print args then [PrintLine (json_dumps data)] else [])
            ++ expenses_calls)%list).
    destruct (all_return outside [] printed) eqn:Hprinted.
    + destruct (args_plot args); cbn [andb fst snd].
      * rewrite plot_expenses_by_category_run. cbv zeta.
        destruct (outside printed (ImportModule "matplotlib.pyplot"))
          as [e|] eqn:Himport.
        { cbn [fst snd].
          rewrite all_return_app, Hprinted,
            (first_failure_app _ _ _ _ Hprinted).
          cbn [andb app all_return first_failure]. rewrite Himport.
          reflexivity. }
        assert (Hmade1 :
          all_return outside []
            (printed ++ [ImportModule "matplotlib.pyplot"]) = true).
        { rewrite all_return_app, Hprinted. cbn [andb app all_return].
          rewrite Himport. reflexivity. }
        pose proof (for_each_aggregate_normalised data Hnorm []) as Hagg.
        fold (aggregate_by_category data) in Hagg.
        destruct (existsb unhashable_category (values data)).
        { rewrite Hagg. cbn [fst snd]. rewrite Hmade1. reflexivity. }
        destruct Hagg as [totals ->].
        destruct totals as [|entry totals]; cbn [fst snd].
        { rewrite (first_failure_made outside _ _ Hmade1). cbn [attempted].
          destruct (outside _ (PrintLine _)); reflexivity. }
        rewrite (first_failure_made outside _ _ Hmade1). reflexivity.
      * rewrite Hprinted. reflexivity.
    + cbn [fst snd].
      rewrite all_return_attempted, first_failure_attempted, Hprinted.
      reflexivity.
  - intros data totals e H Hprint Hexpenses Hplot Hagg Hne Himport Hfigure Hpie.
    rewrite main_run, H, Hprint, Hexpenses, Hplot, !ret_then.
    rewrite plot_expenses_by_category_run, Himport, Hagg. cbv zeta.
    destruct totals as [|entry totals]; [congruence|].
    unfold chart_calls. cbn [attempted first_failure app].
    rewrite Hfigure. cbn [app]. rewrite Hpie. reflexivity.
Qed.

(** ** Amounts that are not numbers *)

Lemma float_add_nan_amount total :
  float_add total (VFloat S754_nan) = Ok S754_nan.
Proof. destruct total as [s|s| |s m e]; reflexivity. Qed.

Lemma float_add_nan_total f : float_add S754_nan (VFloat f) = Ok S754_nan.
Proof. reflexivity. Qed.

Lemma sum_float_amounts_nan rs total :
  Forall (fun r => exists f, dict_get r "amount" = VFloat f) rs ->
  total = S754_nan \/ List.Exists (fun r => dict_get r "amount" = VFloat S754_nan) rs ->
  for_each (fun total r => float_add total (dict_get r "amount")) rs total
  = Ok S754_nan.
Proof.
  intros Hall. revert total. induction Hall as [|r rs [f Hf] _ IH]; intros total Hnan.
  - destruct Hnan as [-> | Hex]; [reflexivity | inversion Hex].
  - simpl. destruct Hnan as [-> | Hex].
    + rewrite Hf, float_add_nan_total. apply IH. left. reflexivity.
    + inversion Hex as [r' rs' Hr | r' rs' Hrs]; subst.
      * rewrite Hr, float_add_nan_amount. apply IH. left. reflexivity.
      * rewrite Hf. simpl. apply IH. right. exact Hrs.
Qed.

Lemma sanitize_amount_literal s v :
  Float.parse_literal s = Some v -> sanitize_amount (VStr s) = VFloat v.
Proof.
  intros H. pose proof (parse_literal_plain s v H) as Hplain.
  unfold sanitize_amount, py_str.
  rewrite (remove_dollar_plain s Hplain), (strip_plain s Hplain).
  rewrite (of_string_literal s v H). reflexivity.
Qed.

Lemma lower_not_sign c :
  Text.lower c = "n"%char ->
  Ascii.eqb c "-" = false /\ Ascii.eqb c "+" = false.
Proof. each_char c; vm_compute; intros H; first [discriminate H | auto]. Qed.

Lemma parse_literal_nan s :
  Text.lower_string s = "nan" -> Float.parse_literal s = Some S754_nan.
Proof.
  intros H. destruct s as [|c t]; [discriminate H|].
  simpl in H. injection H as Hc Ht.
  destruct (lower_not_sign c Hc) as [Hminus Hplus].
  unfold Float.parse_literal, Float.take_sign. rewrite Hminus, Hplus.
  cbn [Text.lower_string]. rewrite Hc, Ht. reflexivity.
Qed.

(** X21: amounts that are not numbers are not filtered out: the text
    [nan], in any mix of upper and lower case, is normalised to the float
    NaN, and on a collection whose amounts are all [None] or a float, one
    record of the range whose amount is NaN makes the range total NaN. *)
Theorem calculate_expenses_nan
    (data : collection) (start_date end_date : value) (start end_ : date) :
  normalised data ->
  parse_date start_date = Some start ->
  parse_date end_date = Some end_ ->
  List.Exists
    (fun entry =>
       date_in_range start end_ (snd entry) = true
       /\ dict_get (snd entry) "amount" = VFloat S754_nan)
    data ->
  calculate_expenses data start_date end_date = Ok S754_nan
  /\ (forall s,
        Text.lower_string s = "nan" ->
        sanitize_amount (VStr s) = VFloat S754_nan)
  /\ sanitize_amount (VStr "nan") = VFloat S754_nan
  /\ sanitize_amount (VStr "NaN") = VFloat S754_nan.
Proof.
  intros Hnorm Hs He Hex.
  split; [|split; [|split; vm_compute; reflexivity]].
  - rewrite (calculate_expenses_filter data start_date end_date start end_ Hs He).
    unfold sum_amounts. apply sum_float_amounts_nan.
    + apply counted_floats. exact Hnorm.
    + right. apply List.Exists_exists in Hex.
      destruct Hex as ([name r] & Hin & Hrange & Hnan). simpl in Hrange, Hnan.
      apply List.Exists_exists. exists r. split; [|exact Hnan].
      apply List.filter_In. split.
      * unfold values. apply List.in_map_iff. exists (name, r). auto.
      * unfold counted. rewrite Hrange, Hnan. reflexivity.
  - intros s Hlow. apply sanitize_amount_literal, parse_literal_nan. exact Hlow.
Qed.

Lemma calculate_expenses_nan_witness :
  calculate_expenses
    [ ("a", receipt_of (VStr "2024-02-01") (VFloat (lit 10.0)) (VStr "Meals"));
      ("b", receipt_of (VStr "2024-02-15") (sanitize_amount (VStr "nan")) (VStr "Meals")) ]
    (VStr "2024-02-01") (VStr "2024-02-28")
  = Ok S754_nan.
Proof.
  refine (proj1 (calculate_expenses_nan
    [ ("a", receipt_of (VStr "2024-02-01") (VFloat (lit 10.0)) (VStr "Meals"));
      ("b", receipt_of (VStr "2024-02-15") (sanitize_amount (VStr "nan")) (VStr "Meals")) ]
    (VStr "2024-02-01") (VStr "2024-02-28") (mkdate 2024 2 1) (mkdate 2024 2 28)
    _ Logic.eq_refl Logic.eq_refl _)).
  - apply List.Forall_cons; [right; exists (lit 10.0); reflexivity|].
    apply List.Forall_cons; [right; exists S754_nan; vm_compute; reflexivity|].
    apply List.Forall_nil.
  - apply List.Exists_cons_tl. apply List.Exists_cons_hd.
    split; vm_compute; reflexivity.
Defined.
